(** * Healthcare resource optimisation: the data-processing core

    A shallow embedding of the cleaning, validation, feature-engineering
    and merging code of [src/data_processing] and the properties the
    specification states about it.

    The Python code drives pandas.  A [DataFrame] is modelled column-wise,
    as pandas stores it: an ordered list of named [Series], each a dtype
    and a list of cells, next to the row count of the index.  Row
    operations (filters, [drop_duplicates], [sort_values], [merge]) compute
    a list of row positions and take every column at these positions.

    Numbers are exact rationals ([Q], kept reduced): the model follows the
    arithmetic the code asks for, not the rounding of float64.  A lookup
    of an absent column ([KeyError]) and a division of Python integers by
    zero are modelled as [None]; a cell of a kind an operation cannot use
    is treated like a missing value. *)

From Stdlib Require Import QArith Qround Ascii.
From stdpp Require Import base list strings pretty option numbers sorting.

Close Scope Q_scope.

(** ** Cells, series and frames *)

(** [Ts day tod] is a datetime64 timestamp: the calendar day, counted from
    1970-01-01, and the time elapsed within that day.  [NA] stands for
    NaN, None and NaT alike. *)
Inductive cell : Type :=
  | Num (q : Q)
  | Str (s : string)
  | Ts (day : Z) (tod : Z)
  | NA.

Inductive dtype : Type :=
  | number      (* int64 / float64: what select_dtypes([np.number]) keeps *)
  | object
  | category
  | datetime.

Record Series : Type := mkSeries { sdtype : dtype; values : list cell }.

Record DataFrame : Type := mkDF { nrows : nat; columns : list (string * Series) }.

Global Instance dtype_eq_dec : EqDecision dtype.
Proof. solve_decision. Defined.

Definition isnull (c : cell) : bool :=
  match c with NA => true | _ => false end.

Definition notna (c : cell) : bool := negb (isnull c).

(** Equality of two cells as [duplicated] and [merge] see it: missing
    values compare equal to each other. *)
Definition cell_eqb (a b : cell) : bool :=
  match a, b with
  | Num p, Num q => Qeq_bool p q
  | Str s, Str t => bool_decide (s = t)
  | Ts d t, Ts d' t' => bool_decide (d = d') && bool_decide (t = t')
  | NA, NA => true
  | _, _ => false
  end.

Fixpoint row_eqb (r1 r2 : list cell) : bool :=
  match r1, r2 with
  | [], [] => true
  | a :: r1', b :: r2' => cell_eqb a b && row_eqb r1' r2'
  | _, _ => false
  end.

(** *** Column access: [col in df.columns], [df[col]], [df[col] = s] *)

Fixpoint assoc (name : string) (l : list (string * Series)) : option Series :=
  match l with
  | [] => None
  | (n, s) :: l' => if decide (n = name) then Some s else assoc name l'
  end.

(** A column that exists is replaced in place, a new one is appended. *)
Fixpoint assoc_set (name : string) (s : Series) (l : list (string * Series))
  : list (string * Series) :=
  match l with
  | [] => [(name, s)]
  | (n, s') :: l' =>
      if decide (n = name) then (name, s) :: l' else (n, s') :: assoc_set name s l'
  end.

Definition get_col (name : string) (df : DataFrame) : option Series :=
  assoc name (columns df).

Definition has_col (name : string) (df : DataFrame) : bool :=
  bool_decide (is_Some (get_col name df)).

Definition set_col (name : string) (s : Series) (df : DataFrame) : DataFrame :=
  mkDF (nrows df) (assoc_set name s (columns df)).

Definition col_names (df : DataFrame) : list string := (columns df).*1.

(** Every column is as long as the index. *)
Definition wf_frame (df : DataFrame) : Prop :=
  Forall (λ p, length (values p.2) = nrows df) (columns df).

(** Taking rows by position ([df.iloc[idx]], the indexers of a filter, a
    sort or a join).  [None] in an indexer yields a row of missing values,
    as the right side of a left join does for an unmatched key. *)
Definition take_cells (idx : list (option nat)) (l : list cell) : list cell :=
  (λ oi, match oi with
         | Some i => default NA (l !! i)
         | None => NA
         end) <$> idx.

Definition take_series (idx : list (option nat)) (s : Series) : Series :=
  mkSeries (sdtype s) (take_cells idx (values s)).

Definition take_rows (idx : list nat) (df : DataFrame) : DataFrame :=
  mkDF (length idx) (prod_map id (take_series (Some <$> idx)) <$> columns df).

(** The rows of a frame restricted to the columns [names] (all of which
    are present when the frame is well formed). *)
Definition row_at (cols : list Series) (i : nat) : list cell :=
  (λ s, default NA (values s !! i)) <$> cols.

Definition rows_of (cols : list Series) (n : nat) : list (list cell) :=
  row_at cols <$> seq 0 n.

(** Positions of the rows a boolean mask keeps. *)
Fixpoint mask_positions (i : nat) (mask : list bool) : list nat :=
  match mask with
  | [] => []
  | b :: mask' => (if b then [i] else []) ++ mask_positions (S i) mask'
  end.

(** [df[mask]] *)
Definition filter_rows (mask : list bool) (df : DataFrame) : DataFrame :=
  take_rows (mask_positions 0 mask) df.

(** ** Numeric helpers: the pandas reductions, skipping missing values *)

Definition num_of (c : cell) : option Q :=
  match c with Num q => Some q | _ => None end.

Definition nums (l : list cell) : list Q := omap num_of l.

Fixpoint Qinsert (x : Q) (l : list Q) : list Q :=
  match l with
  | [] => [x]
  | y :: l' => if Qle_bool x y then x :: l else y :: Qinsert x l'
  end.

Definition Qsort (l : list Q) : list Q := foldr Qinsert [] l.

Definition Qsum (l : list Q) : Q := foldr Qplus 0%Q l.

Definition Qnat (n : nat) : Q := inject_Z (Z.of_nat n).

(** [Series.quantile(p)], linear interpolation between the two closest
    ranks of the sorted non-missing values. *)
Definition quantile (p : Q) (l : list cell) : cell :=
  let s := Qsort (nums l) in
  match s with
  | [] => NA
  | x0 :: _ =>
      let pos := (p * Qnat (length s - 1))%Q in
      let lo := Z.to_nat (Qfloor pos) in
      let frac := (pos - inject_Z (Qfloor pos))%Q in
      let a := default x0 (s !! lo) in
      let b := default a (s !! S lo) in
      Num (Qred (a + frac * (b - a)))
  end.

Definition median (l : list cell) : cell := quantile (1 # 2) l.

Definition mean (l : list cell) : cell :=
  match nums l with
  | [] => NA
  | xs => Num (Qred (Qsum xs / Qnat (length xs)))
  end.

(** Sample variance (ddof = 1); undefined below two observations. *)
Definition variance (l : list cell) : option Q :=
  let xs := nums l in
  match xs with
  | [] | [_] => None
  | _ =>
      let m := (Qsum xs / Qnat (length xs))%Q in
      Some (Qred (Qsum ((λ x, (x - m) * (x - m))%Q <$> xs) / Qnat (length xs - 1)))
  end.

(** [s.std() > 0].  The standard deviation is the root of the variance,
    so it is positive exactly when the variance is; a missing standard
    deviation compares false. *)
Definition std_positive (l : list cell) : bool :=
  match variance l with
  | Some v => negb (Qle_bool v 0)
  | None => false
  end.

Definition cell_sum (l : list cell) : cell := Num (Qred (Qsum (nums l))).

Definition count_notna (l : list cell) : nat := length (filter (λ c, notna c = true) l).

(** [Series.clip(upper=u)]: values above the bound take the bound. *)
Definition clip_upper (u : cell) (l : list cell) : list cell :=
  match u with
  | Num b =>
      (λ c, match c with
            | Num q => if Qle_bool q b then Num q else Num b
            | _ => c
            end) <$> l
  | _ => l
  end.

(** [Series.fillna(v)]; filling with a missing value changes nothing. *)
Definition fillna (v : cell) (l : list cell) : list cell :=
  (λ c, if isnull c then v else c) <$> l.

(** [Series.shift(periods)]: values move down by [periods] positions (up
    for a negative argument); the vacated positions hold a missing value
    and the length is kept. *)
Definition shift (periods : Z) (l : list cell) : list cell :=
  let n := length l in
  if decide (0 ≤ periods)%Z then
    let k := Z.to_nat periods in
    replicate (k `min` n) NA ++ take (n - k) l
  else
    let k := Z.to_nat (- periods) in
    drop k l ++ replicate (k `min` n) NA.

Definition shift_series (periods : Z) (s : Series) : Series :=
  mkSeries (sdtype s) (shift periods (values s)).

(** [Series.rolling(window)] with the default [min_periods = window]: the
    scan keeps the values met so far, most recent first, and applies the
    statistic to the last [window] of them once that many have been seen. *)
Fixpoint rolling_go (window : nat) (stat : list cell → cell)
    (seen : list cell) (l : list cell) : list cell :=
  match l with
  | [] => []
  | x :: l' =>
      let seen' := x :: seen in
      (if decide (window ≤ length seen') then stat (reverse (take window seen'))
       else NA) :: rolling_go window stat seen' l'
  end.

Definition rolling (window : nat) (stat : list cell → cell) (l : list cell)
  : list cell :=
  rolling_go window stat [] l.

(** What pandas leaves to numpy and to its parsers.  These are not part of
    the repository; the development is parametric in them. *)
Class Externals : Type := {
  (** [numpy.sqrt] on a non-negative number *)
  ext_sqrt : Q → Q;
  (** [pd.to_datetime(x, errors='coerce')] on a string or a number:
      the day and the time of day, or a parse failure *)
  ext_to_datetime : cell → option (Z * Z);
  (** [pd.to_numeric(x, errors='coerce')] on a string *)
  ext_to_numeric : string → option Q;
  (** [str(x)] of a number or a timestamp, as [astype(str)] prints it *)
  ext_repr : cell → string;
}.

(** The statistics of a window.  A window that holds a missing value has
    fewer than [min_periods] observations and yields a missing value. *)
Definition complete (win : list cell) : bool := forallb notna win.

Definition window_mean (win : list cell) : cell :=
  if complete win then mean win else NA.

Definition window_std `{Externals} (win : list cell) : cell :=
  if complete win then
    match variance win with
    | Some v => Num (ext_sqrt v)
    | None => NA
    end
  else NA.

Definition Qmax (a b : Q) : Q := if Qle_bool a b then b else a.
Definition Qmin (a b : Q) : Q := if Qle_bool a b then a else b.

Definition cell_max (l : list cell) : cell :=
  match nums l with
  | [] => NA
  | x :: xs => Num (foldl Qmax x xs)
  end.

Definition cell_min (l : list cell) : cell :=
  match nums l with
  | [] => NA
  | x :: xs => Num (foldl Qmin x xs)
  end.

Definition window_max (win : list cell) : cell :=
  if complete win then cell_max win else NA.

Definition window_min (win : list cell) : cell :=
  if complete win then cell_min win else NA.

Definition rolling_series (window : nat) (stat : list cell → cell) (s : Series)
  : Series :=
  mkSeries number (rolling window stat (values s)).

(** ** feature_engineering.py: FeatureEngineer *)

(** [df[name] = f(df[col])].  Every use sits behind [if col in
    df.columns], so the column is there. *)
Definition assign_from (name col : string) (f : Series → Series)
    (df : DataFrame) : DataFrame :=
  match get_col col df with
  | Some s => set_col name (f s) df
  | None => df
  end.

(** [f'{col}_lag{lag}'] *)
Definition lag_name (col : string) (lag : Z) : string :=
  col +:+ "_lag" +:+ pretty lag.

(** [df_feat[f'{col}_lag{lag}'] = df_feat[col].shift(lag)] *)
Definition add_lag (col : string) (df_feat : DataFrame) (lag : Z) : DataFrame :=
  assign_from (lag_name col lag) col (shift_series lag) df_feat.

Definition create_lagged_features (df : DataFrame) (value_cols : list string)
    (lags : list Z) : DataFrame :=
  foldl (λ df_feat col,
           if has_col col df_feat then foldl (add_lag col) df_feat lags
           else df_feat)
        df value_cols.

Definition default_lags : list Z := [1; 3; 7; 14]%Z.

(** [f'{col}_rolling_{stat}_{window}d'].  A window is a natural number:
    pandas refuses a negative one. *)
Definition rolling_name (col stat : string) (window : nat) : string :=
  col +:+ "_rolling_" +:+ stat +:+ "_" +:+ pretty window +:+ "d".

Definition add_rolling `{Externals} (col : string) (df_feat : DataFrame)
    (window : nat) : DataFrame :=
  let df1 := assign_from (rolling_name col "mean" window) col
               (rolling_series window window_mean) df_feat in
  let df2 := assign_from (rolling_name col "std" window) col
               (rolling_series window window_std) df1 in
  let df3 := assign_from (rolling_name col "max" window) col
               (rolling_series window window_max) df2 in
  assign_from (rolling_name col "min" window) col
    (rolling_series window window_min) df3.

Definition create_rolling_features `{Externals} (df : DataFrame)
    (value_cols : list string) (windows : list nat) : DataFrame :=
  foldl (λ df_feat col,
           if has_col col df_feat then foldl (add_rolling col) df_feat windows
           else df_feat)
        df value_cols.

Definition default_windows : list nat := [3; 7; 14].

(** ** Strings *)

(** [sub in s] *)
Fixpoint contains (sub s : string) : bool :=
  String.prefix sub s
  || match s with
     | EmptyString => false
     | String _ s' => contains sub s'
     end.

Fixpoint lstrip (s : string) : string :=
  match s with
  | EmptyString => EmptyString
  | String a s' => if Ascii.is_space a then lstrip s' else s
  end.

(** [s.strip()] *)
Definition strip (s : string) : string :=
  String.rev (lstrip (String.rev (lstrip s))).

Definition lower_char (a : ascii) : ascii :=
  let n := nat_of_ascii a in
  if (65 <=? n) && (n <=? 90) then ascii_of_nat (n + 32) else a.

(** [s.lower()] on ASCII text *)
Fixpoint lower (s : string) : string :=
  match s with
  | EmptyString => EmptyString
  | String a s' => String (lower_char a) (lower s')
  end.

(** [sep.join(l)] *)
Fixpoint join (sep : string) (l : list string) : string :=
  match l with
  | [] => ""
  | [x] => x
  | x :: l' => x +:+ sep +:+ join sep l'
  end.

(** The [.str] accessor: an element that is no string yields a missing
    value. *)
Definition str_map (f : string → string) (s : Series) : Series :=
  mkSeries object ((λ c, match c with Str x => Str (f x) | _ => NA end) <$> values s).

(** ** Calendar *)

(** Monday is 0; 1970-01-01 was a Thursday. *)
Definition dayofweek (day : Z) : Z := ((day + 3) `mod` 7)%Z.

(** Year, month and day of month of a day number (proleptic Gregorian
    calendar, the civil-from-days computation). *)
Definition civil (day : Z) : Z * Z * Z :=
  let z := (day + 719468)%Z in
  let era := (z `div` 146097)%Z in
  let doe := (z - era * 146097)%Z in
  let yoe := ((doe - doe `div` 1460 + doe `div` 36524 - doe `div` 146096) `div` 365)%Z in
  let doy := (doe - (365 * yoe + yoe `div` 4 - yoe `div` 100))%Z in
  let mp := ((5 * doy + 2) `div` 153)%Z in
  let d := (doy - (153 * mp + 2) `div` 5 + 1)%Z in
  let m := (if (mp <? 10)%Z then mp + 3 else mp - 9)%Z in
  let y := (yoe + era * 400 + (if (m <=? 2)%Z then 1 else 0))%Z in
  (y, m, d).

Definition dt_field (f : Z → Z) (s : Series) : Series :=
  mkSeries number
    ((λ c, match c with Ts d _ => Num (inject_Z (f d)) | _ => NA end) <$> values s).

Definition dt_dayofweek : Series → Series := dt_field dayofweek.
Definition dt_month : Series → Series := dt_field (λ d, (civil d).1.2).
Definition dt_year : Series → Series := dt_field (λ d, (civil d).1.1).

(** [.dt.date]: the calendar day, the time of day dropped.  The day is
    kept as the timestamp of its midnight, which is also what
    [pd.to_datetime] makes of a date. *)
Definition dt_date (c : cell) : cell :=
  match c with Ts d _ => Ts d 0 | _ => NA end.

Definition day_of (c : cell) : option Z :=
  match c with Ts d _ => Some d | _ => None end.

(** [pd.to_datetime(s, errors='coerce')] *)
Definition to_datetime `{Externals} (s : Series) : Series :=
  mkSeries datetime
    ((λ c, match c with
           | Ts d t => Ts d t
           | NA => NA
           | _ => match ext_to_datetime c with
                  | Some (d, t) => Ts d t
                  | None => NA
                  end
           end) <$> values s).

(** [pd.to_numeric(s, errors='coerce')] *)
Definition to_numeric `{Externals} (s : Series) : Series :=
  mkSeries number
    ((λ c, match c with
           | Num q => Num q
           | Str x => match ext_to_numeric x with Some q => Num q | None => NA end
           | _ => NA
           end) <$> values s).

(** [s // 100] *)
Definition floordiv (n : Z) (s : Series) : Series :=
  mkSeries number
    ((λ c, match c with
           | Num q => Num (inject_Z (Qfloor (q / inject_Z n)))
           | _ => NA
           end) <$> values s).

(** [pd.cut(s, bins, labels, right=False)]: the label of the half-open
    interval [bins[i], bins[i+1]) that holds the value; missing outside
    the bins. *)
Fixpoint cut_cell (q : Q) (bins : list Q) (labels : list string) : cell :=
  match bins, labels with
  | lo :: ((hi :: _) as bins'), lab :: labels' =>
      if Qle_bool lo q && negb (Qle_bool hi q) then Str lab
      else cut_cell q bins' labels'
  | _, _ => NA
  end.

Definition cut (bins : list Q) (labels : list string) (s : Series) : Series :=
  mkSeries category
    ((λ c, match c with Num q => cut_cell q bins labels | _ => NA end) <$> values s).

Definition Z_of_bool (b : bool) : Q := if b then 1%Q else 0%Q.

(** [s.isin(l).astype(int)] and [(~s.isin(l)).astype(int)] *)
Definition isin (l : list Q) (c : cell) : bool :=
  match c with Num q => existsb (Qeq_bool q) l | _ => false end.

Definition isin_int (l : list Q) (s : Series) : Series :=
  mkSeries number ((λ c, Num (Z_of_bool (isin l c))) <$> values s).

Definition not_isin_int (l : list Q) (s : Series) : Series :=
  mkSeries number ((λ c, Num (Z_of_bool (negb (isin l c)))) <$> values s).

(** [(s >= n).astype(int)]; a missing value compares false. *)
Definition ge_int (n : Q) (s : Series) : Series :=
  mkSeries number
    ((λ c, Num (Z_of_bool (match c with Num q => Qle_bool n q | _ => false end)))
       <$> values s).

(** [s.astype(str).str.strip()] *)
Definition astype_str_strip `{Externals} (s : Series) : Series :=
  mkSeries object
    ((λ c, Str (strip (match c with Str x => x | _ => ext_repr c end))) <$> values s).

(** ** Duplicates *)

(** [true] for the first occurrence of each row, [false] for a repeat. *)
Fixpoint first_occurrence (seen : list (list cell)) (rows : list (list cell))
  : list bool :=
  match rows with
  | [] => []
  | r :: rows' => negb (existsb (row_eqb r) seen) :: first_occurrence (r :: seen) rows'
  end.

(** [df.columns] restricted to [subset]; a [KeyError] when one is absent. *)
Definition select_cols (subset : list string) (df : DataFrame) : option (list Series) :=
  mapM (λ n, get_col n df) subset.

(** [df.drop_duplicates()] *)
Definition drop_duplicates (df : DataFrame) : DataFrame :=
  filter_rows (first_occurrence [] (rows_of (columns df).*2 (nrows df))) df.

(** [df.drop_duplicates(subset=subset)] *)
Definition drop_duplicates_subset (subset : list string) (df : DataFrame)
  : option DataFrame :=
  cols ← select_cols subset df;
  Some (filter_rows (first_occurrence [] (rows_of cols (nrows df))) df).

(** [df.duplicated(...).sum()]: the number of repeats. *)
Definition count_duplicated (cols : list Series) (n : nat) : nat :=
  length (filter (λ b, b = false) (first_occurrence [] (rows_of cols n))).

(** ** cleaning.py: DataCleaner *)

(** [df.select_dtypes(include=kinds).columns] *)
Definition select_dtypes (kinds : list dtype) (df : DataFrame) : list string :=
  (filter (λ p, sdtype p.2 ∈ kinds) (columns df)).*1.

Definition fillna_series (v : cell) (s : Series) : Series :=
  mkSeries (sdtype s) (fillna v (values s)).

Definition count_cell (c : cell) (l : list cell) : nat :=
  length (filter (λ x, cell_eqb c x = true) l).

(** An order on cells to sort the candidates of a mode. *)
Definition cell_leb (a b : cell) : bool :=
  match a, b with
  | Num p, Num q => Qle_bool p q
  | Str s, Str t => String.leb s t
  | Ts d t, Ts d' t' => (d <? d')%Z || ((d =? d')%Z && (t <=? t')%Z)
  | Num _, _ => true
  | Str _, (Ts _ _ | NA) => true
  | Ts _ _, NA => true
  | NA, NA => true
  | _, _ => false
  end.

(** [s.mode()[0]]: the most frequent non-missing value, the least one
    among several; [None] when [s.mode()] is empty. *)
Definition mode (l : list cell) : option cell :=
  let present := filter (λ c, notna c = true) l in
  foldl (λ best c,
           match best with
           | None => Some c
           | Some b =>
               let nb := count_cell b present in
               let nc := count_cell c present in
               if (nb <? nc) || ((nb =? nc) && cell_leb c b) then Some c else Some b
           end)
        None present.

(** One step of the numeric loop of [_handle_missing_values]. *)
Definition impute_numeric (df : DataFrame) (col : string) : DataFrame :=
  match get_col col df with
  | Some s =>
      if existsb isnull (values s)
      then set_col col (fillna_series (median (values s)) s) df
      else df
  | None => df
  end.

(** One step of its categorical loop.  A categorical column without a
    single value has no mode, and pandas refuses to fill it with
    ['Unknown'], which is none of its categories. *)
Definition impute_categorical (df : DataFrame) (col : string) : option DataFrame :=
  match get_col col df with
  | Some s =>
      if existsb isnull (values s) then
        match mode (values s) with
        | Some mode_val => Some (set_col col (fillna_series mode_val s) df)
        | None =>
            if decide (sdtype s = category) then None
            else Some (set_col col (fillna_series (Str "Unknown") s) df)
        end
      else Some df
  | None => Some df
  end.

Fixpoint foldlM {A B} (f : A → B → option A) (a : A) (l : list B) : option A :=
  match l with
  | [] => Some a
  | x :: l' => a' ← f a x; foldlM f a' l'
  end.

Definition _handle_missing_values (df : DataFrame) : option DataFrame :=
  let df := foldl impute_numeric df (select_dtypes [number] df) in
  foldlM impute_categorical df (select_dtypes [object; category] df).

(** [if col in df.columns: df[name] = f(df[col])] *)
Definition derive (name col : string) (f : Series → Series) (df : DataFrame)
  : DataFrame :=
  if has_col col df then assign_from name col f df else df.

(** One step of the clipping loop. *)
Definition clip_column (df : DataFrame) (col : string) : DataFrame :=
  match get_col col df with
  | Some s =>
      if std_positive (values s) then
        let upper_bound := quantile (99 # 100) (values s) in
        set_col col (mkSeries (sdtype s) (clip_upper upper_bound (values s))) df
      else df
  | None => df
  end.

Definition clip_outliers (df : DataFrame) : DataFrame :=
  foldl clip_column df (select_dtypes [number] df).

Definition age_bins : list Q := [0; 18; 45; 65; 120]%Q.
Definition age_labels : list string := ["0-17"; "18-44"; "45-64"; "65+"].
Definition hour_bins : list Q := [0; 6; 12; 18; 24]%Q.
Definition hour_labels : list string := ["Night"; "Morning"; "Afternoon"; "Evening"].

(** [if 'ARRTIME' in df.columns]: the hour of arrival and its bucket. *)
Definition derive_arrival `{Externals} (df_clean : DataFrame) : DataFrame :=
  if has_col "ARRTIME" df_clean then
    let df1 := assign_from "arrival_hour" "ARRTIME"
                 (λ s, floordiv 100 (to_numeric s)) df_clean in
    assign_from "time_of_day" "arrival_hour" (cut hour_bins hour_labels) df1
  else df_clean.

(** The loop over the columns whose name holds [DIAG]. *)
Definition derive_diag `{Externals} (df_clean : DataFrame) : DataFrame :=
  let diag_cols := filter (λ col, contains "DIAG" col = true) (col_names df_clean) in
  foldl (λ d col, assign_from col col astype_str_strip d) df_clean diag_cols.

(** [if 'visit_date' in df.columns]: day of week, weekend flag, month. *)
Definition derive_calendar (df_clean : DataFrame) : DataFrame :=
  if has_col "visit_date" df_clean then
    let df1 := assign_from "day_of_week" "visit_date" dt_dayofweek df_clean in
    let df2 := assign_from "is_weekend" "day_of_week" (ge_int 5) df1 in
    assign_from "month" "visit_date" dt_month df2
  else df_clean.

(** The columns derived in [clean_nhamcs_data] between the removal of
    duplicates and the clipping, in the order of the source. *)
Definition derive_columns `{Externals} (df_clean : DataFrame) : DataFrame :=
  let df_clean := derive "visit_date" "VDATE" to_datetime df_clean in
  let df_clean := derive "age_group" "AGE" (cut age_bins age_labels) df_clean in
  let df_clean := derive_arrival df_clean in
  let df_clean := derive "high_acuity" "IMMEDR" (isin_int [1; 2]%Q) df_clean in
  let df_clean := derive "has_insurance" "PAYTYPER" (not_isin_int [5; 6]%Q) df_clean in
  let df_clean := derive_diag df_clean in
  derive_calendar df_clean.

Definition clean_nhamcs_data `{Externals} (df : DataFrame) : option DataFrame :=
  df_clean ← _handle_missing_values df;
  let df_clean := drop_duplicates df_clean in
  let df_clean := derive_columns df_clean in
  Some (clip_outliers df_clean).

(** [df[df[col].notna()]] followed by [df[df[col].str.strip() != '']]: a
    row stays when its text is there and not blank.  An element that is no
    string is no blank string either. *)
Definition keeps_text (c : cell) : bool :=
  match c with
  | NA => false
  | Str x => negb (bool_decide (strip x = ""))
  | _ => true
  end.

Definition drop_blank (col : string) (df : DataFrame) : DataFrame :=
  match get_col col df with
  | Some s => filter_rows (keeps_text <$> values s) df
  | None => df
  end.

(** [df['date'] = pd.to_datetime(df['date'], errors='coerce')] and
    [df.dropna(subset=['date'])] *)
Definition parse_dates `{Externals} (df : DataFrame) : DataFrame :=
  match get_col "date" df with
  | Some s =>
      let parsed := to_datetime s in
      filter_rows (notna <$> values parsed) (set_col "date" parsed df)
  | None => df
  end.

(** One step of the loop over the text columns. *)
Definition normalise_text (df : DataFrame) (col : string) : DataFrame :=
  if has_col col df then
    let df1 := assign_from (col +:+ "_lower") col (str_map lower) df in
    assign_from col col (str_map strip) df1
  else df.

Definition text_cols : list string := ["text"; "title"; "content"; "clean_text"].

(** [(s >= -1) & (s <= 1)]; a missing score compares false. *)
Definition in_unit_range (c : cell) : bool :=
  match c with
  | Num q => Qle_bool (-1) q && Qle_bool q 1
  | _ => false
  end.

Definition filter_sentiment (df : DataFrame) : DataFrame :=
  match get_col "sentiment_polarity" df with
  | Some s => filter_rows (in_unit_range <$> values s) df
  | None => df
  end.

(** The key of the duplicate check: the date and the title, or the date
    and the text when there is no title; of these, what the frame has. *)
Definition duplicate_cols (df : DataFrame) : list string :=
  let wanted := if has_col "title" df then ["date"; "title"] else ["date"; "text"] in
  filter (λ col, has_col col df = true) wanted.

Definition dedup_scraped (df : DataFrame) : DataFrame :=
  match duplicate_cols df with
  | [] => df
  | cols => default df (drop_duplicates_subset cols df)
  end.

Definition date_parts (df : DataFrame) : DataFrame :=
  if has_col "date" df then
    let df1 := assign_from "day_of_week" "date" dt_dayofweek df in
    let df2 := assign_from "month" "date" dt_month df1 in
    assign_from "year" "date" dt_year df2
  else df.

(** Timestamps in ascending order, missing ones last. *)
Definition ts_leb (a b : cell) : bool :=
  match a, b with
  | Ts d t, Ts d' t' => (d <? d')%Z || ((d =? d')%Z && (t <=? t')%Z)
  | NA, NA => true
  | NA, _ => false
  | _, _ => true
  end.

Fixpoint insert_by_key (x : nat * cell) (l : list (nat * cell)) : list (nat * cell) :=
  match l with
  | [] => [x]
  | y :: l' => if ts_leb x.2 y.2 then x :: l else y :: insert_by_key x l'
  end.

(** The row positions in the order of their keys (a stable sort). *)
Definition argsort (keys : list cell) : list nat :=
  (foldr insert_by_key [] (zip (seq 0 (length keys)) keys)).*1.

(** [df.sort_values(col).reset_index(drop=True)] *)
Definition sort_values (col : string) (df : DataFrame) : DataFrame :=
  match get_col col df with
  | Some s => take_rows (argsort (values s)) df
  | None => df
  end.

(** The frame before the duplicate check: the filters and the text
    columns. *)
Definition scraped_filtered `{Externals} (df : DataFrame) : DataFrame :=
  let df_clean := drop_blank "text" df in
  let df_clean := drop_blank "content" df_clean in
  let df_clean := parse_dates df_clean in
  let df_clean := foldl normalise_text df_clean text_cols in
  filter_sentiment df_clean.

(** The steps after the filters: the duplicate check, the date parts and
    the sort by date. *)
Definition scraped_finish (df_clean : DataFrame) : DataFrame :=
  let df_clean := dedup_scraped df_clean in
  let df_clean := date_parts df_clean in
  if has_col "date" df_clean then sort_values "date" df_clean else df_clean.

(** [source] names the stream in the log lines only. *)
Definition clean_scraped_data `{Externals} (df : DataFrame) (source : string)
  : DataFrame :=
  scraped_finish (scraped_filtered df).

(** *** Merging *)

(** A frame with a meaningful index: the result of a [groupby]. *)
Record Indexed : Type := mkIndexed { index : list cell; frame : DataFrame }.

Fixpoint Zinsert_uniq (x : Z) (l : list Z) : list Z :=
  match l with
  | [] => [x]
  | y :: l' =>
      if (x <? y)%Z then x :: l
      else if (x =? y)%Z then l
      else y :: Zinsert_uniq x l'
  end.

(** The group keys of [groupby(s.dt.date)]: the distinct days, ascending;
    rows without a date belong to no group. *)
Definition group_days (keys : list cell) : list Z :=
  foldr Zinsert_uniq [] (omap day_of keys).

(** The cells of a column that fall into the group of day [d]. *)
Definition group_cells (keys col : list cell) (d : Z) : list cell :=
  (filter (λ kc, day_of kc.1 = Some d) (zip keys col)).*2.

Definition agg (f : list cell → cell) (keys : list cell) (days : list Z) (s : Series)
  : Series :=
  mkSeries number ((λ d, f (group_cells keys (values s) d)) <$> days).

Definition agg_count : list cell → cell := λ g, Num (Qnat (count_notna g)).

Definition agg_size : list cell → cell := λ g, Num (Qnat (length g)).

(** [lambda x: ', '.join(x)] *)
Definition agg_join : list cell → cell :=
  λ g, Str (join ", " (omap (λ c, match c with Str x => Some x | _ => None end) g)).

(** [pd.to_datetime(index)] of a day index *)
Definition day_index (days : list Z) : list cell := (λ d, Ts d 0) <$> days.

(** [df.empty] *)
Definition empty (df : DataFrame) : bool :=
  bool_decide (nrows df = 0 ∨ columns df = []).

(** For every left key, the positions of the right index that equal it. *)
Definition matches (k : cell) (rindex : list cell) : list nat :=
  (filter (λ jc, cell_eqb k jc.2 = true) (zip (seq 0 (length rindex)) rindex)).*1.

(** The indexer of a left join: every left row once per match, in the left
    order, and once with no partner when nothing matches. *)
Definition join_indexer (lkeys rindex : list cell) : list (nat * option nat) :=
  (zip (seq 0 (length lkeys)) lkeys) ≫=
    (λ ik, match matches ik.2 rindex with
           | [] => [(ik.1, None)]
           | ms => (λ j, (ik.1, Some j)) <$> ms
           end).

(** [left.merge(right, left_on=lkeys, right_index=True, how='left')].
    A column name that both sides have gets the suffix [_x] on the left
    and [_y] on the right. *)
Definition merge_left (left : DataFrame) (lkeys : list cell) (right : Indexed)
  : DataFrame :=
  let idx := join_indexer lkeys (index right) in
  let lnames := col_names left in
  let rnames := col_names (frame right) in
  mkDF (length idx)
    (((λ p, (if decide (p.1 ∈ rnames) then p.1 +:+ "_x" else p.1,
             take_series (Some <$> idx.*1) p.2)) <$> columns left)
     ++ ((λ p, (if decide (p.1 ∈ lnames) then p.1 +:+ "_y" else p.1,
                take_series idx.*2 p.2)) <$> columns (frame right))).

Definition news_lags : list Z := [1; 3; 5; 7]%Z.

(** The daily aggregate of the news stream in [merge_datasets]. *)
Definition cdc_agg (cdc_df : DataFrame) : option Indexed :=
  date ← get_col "date" cdc_df;
  title ← get_col "title" cdc_df;
  keywords ← get_col "keywords" cdc_df;
  let keys := values date in
  let days := group_days keys in
  let a := mkDF (length days)
             [("news_mentions", agg agg_count keys days title);
              ("keywords", mkSeries object (values (agg agg_join keys days keywords)))] in
  let a := foldl (λ a lag, assign_from ("news_mentions_lag" +:+ pretty lag)
                             "news_mentions" (shift_series lag) a) a news_lags in
  Some (mkIndexed (day_index days) a).

(** The daily aggregate of the forum stream. *)
Definition reddit_agg (reddit_df : DataFrame) : option Indexed :=
  date ← get_col "date" reddit_df;
  post_id ← get_col "post_id" reddit_df;
  sentiment ← get_col "sentiment_polarity" reddit_df;
  symptoms ← get_col "symptoms_mentioned" reddit_df;
  let keys := values date in
  let days := group_days keys in
  let a := mkDF (length days)
             [("reddit_posts", agg agg_count keys days post_id);
              ("reddit_sentiment", agg mean keys days sentiment);
              ("symptoms_mentioned",
               mkSeries object (values (agg agg_join keys days symptoms)))] in
  let a := assign_from "reddit_sentiment_7d" "reddit_sentiment"
             (rolling_series 7 window_mean) a in
  Some (mkIndexed (day_index days) a).

(** The daily aggregate of the microblog stream. *)
Definition twitter_agg (twitter_df : DataFrame) : option Indexed :=
  date ← get_col "date" twitter_df;
  tweet_id ← get_col "tweet_id" twitter_df;
  sentiment ← get_col "sentiment_polarity" twitter_df;
  likes ← get_col "likes" twitter_df;
  retweets ← get_col "retweets" twitter_df;
  let keys := values date in
  let days := group_days keys in
  Some (mkIndexed (day_index days)
          (mkDF (length days)
             [("tweet_count", agg agg_count keys days tweet_id);
              ("twitter_sentiment", agg mean keys days sentiment);
              ("likes", agg cell_sum keys days likes);
              ("retweets", agg cell_sum keys days retweets)])).

(** One source of [merge_datasets]: skipped when it is not given or
    empty; aggregated, and joined on the day of the visit when the primary
    table has a [visit_date]. *)
Definition merge_source (aggregate : DataFrame → option Indexed)
    (merged_df : DataFrame) (source : option DataFrame) : option DataFrame :=
  match source with
  | Some src =>
      if empty src then Some merged_df
      else
        a ← aggregate src;
        match get_col "visit_date" merged_df with
        | Some visit_date =>
            Some (merge_left merged_df (dt_date <$> values visit_date) a)
        | None => Some merged_df
        end
  | None => Some merged_df
  end.

Definition scraped_markers : list string := ["news"; "reddit"; "twitter"; "sentiment"].

(** [any(x in col for x in ['news', 'reddit', 'twitter', 'sentiment'])] *)
Definition is_scraped (col : string) : bool :=
  existsb (λ x, contains x col) scraped_markers.

(** [df[cols] = df[cols].fillna(0)] for the columns [keep] selects *)
Definition fill_zero (keep : string → bool) (df : DataFrame) : DataFrame :=
  mkDF (nrows df)
    ((λ p, (p.1, if keep p.1 then fillna_series (Num 0) p.2 else p.2)) <$> columns df).

Definition merge_datasets (nhamcs_df : DataFrame)
    (cdc_df reddit_df twitter_df : option DataFrame) : option DataFrame :=
  merged_df ← merge_source cdc_agg nhamcs_df cdc_df;
  merged_df ← merge_source reddit_agg merged_df reddit_df;
  merged_df ← merge_source twitter_agg merged_df twitter_df;
  Some (fill_zero is_scraped merged_df).

(** ** data_merger.py: DataMerger *)

(** [df.groupby(df['date'].dt.date).size().to_frame(name)] *)
Definition daily_size (name : string) (df : DataFrame) : option Indexed :=
  date ← get_col "date" df;
  let keys := values date in
  let days := group_days keys in
  Some (mkIndexed (day_index days)
          (mkDF (length days) [(name, agg agg_size keys days date)])).

Definition daily_sentiment (reddit_df : DataFrame) : option Indexed :=
  date ← get_col "date" reddit_df;
  sentiment ← get_col "sentiment_polarity" reddit_df;
  let keys := values date in
  let days := group_days keys in
  Some (mkIndexed (day_index days)
          (mkDF (length days) [("reddit_sentiment", agg mean keys days sentiment)])).

(** One source of [merge_all_sources]: joined with
    [left_on='visit_date'], the column as it stands. *)
Definition merge_on_visit_date (aggregate : DataFrame → option Indexed)
    (merged_df : DataFrame) (source : option DataFrame) : option DataFrame :=
  match source with
  | Some src =>
      if empty src then Some merged_df
      else
        a ← aggregate src;
        visit_date ← get_col "visit_date" merged_df;
        Some (merge_left merged_df (values visit_date) a)
  | None => Some merged_df
  end.

Definition merge_all_sources (nhamcs_df : DataFrame)
    (cdc_df reddit_df twitter_df : option DataFrame) : option DataFrame :=
  merged_df ← merge_on_visit_date (daily_size "cdc_count") nhamcs_df cdc_df;
  merged_df ← merge_on_visit_date daily_sentiment merged_df reddit_df;
  merged_df ← merge_on_visit_date (daily_size "twitter_count") merged_df twitter_df;
  Some (fill_zero (λ _, true) merged_df).

(** ** data_validation.py: DataValidator *)

(** [a / b] on a numpy integer [a]: dividing by zero raises nothing, the
    result is [nan] (or an infinity), here [None]. *)
Definition np_true_divide (a b : nat) : option Q :=
  match b with
  | 0 => None
  | _ => Some (Qred (Qnat a / Qnat b))
  end.

(** [a / b] on Python integers: [ZeroDivisionError], here [None], when
    [b] is zero. *)
Definition py_true_divide (a b : nat) : option Q :=
  match b with
  | 0 => None
  | _ => Some (Qred (Qnat a / Qnat b))
  end.

Record DuplicateReport : Type := mkDuplicateReport {
  duplicate_count : nat;
  (** [None]: not a number *)
  duplicate_ratio : option Q;
  (** [None]: ['all'] *)
  checked_columns : option (list string);
}.

(** [subset] is empty for [None] and for an empty list alike: both take
    the branch of [if subset] that checks whole rows.  [None] as result:
    a column of [subset] is absent. *)
Definition check_duplicates (df : DataFrame) (subset : list string)
  : option DuplicateReport :=
  cols ← match subset with
         | [] => Some (columns df).*2
         | _ => select_cols subset df
         end;
  let dup_count := count_duplicated cols (nrows df) in
  Some (mkDuplicateReport dup_count
          (np_true_divide dup_count (nrows df))
          (match subset with [] => None | _ => Some subset end)).

Record OutlierInfo : Type := mkOutlierInfo {
  outlier_count : nat;
  outlier_ratio : Q;
  lower_bound : cell;
  upper_bound : cell;
}.

Record ColumnStats : Type := mkColumnStats {
  stat_min : cell;
  stat_max : cell;
  stat_mean : cell;
  stat_median : cell;
  stat_std : cell;
}.

Record RangeReport : Type := mkRangeReport {
  outliers : list (string * OutlierInfo);
  range_violations : list (string * nat);
  statistics : list (string * ColumnStats);
}.

Definition cell_op (f : Q → Q → Q) (a b : cell) : cell :=
  match a, b with
  | Num p, Num q => Num (Qred (f p q))
  | _, _ => NA
  end.

(** [a < b]; false when either side is missing. *)
Definition cell_ltb (a b : cell) : bool :=
  match a, b with
  | Num p, Num q => negb (Qle_bool q p)
  | _, _ => false
  end.

Definition cell_std `{Externals} (l : list cell) : cell :=
  match variance l with
  | Some v => Num (ext_sqrt v)
  | None => NA
  end.

(** The body of the loop of [check_numeric_ranges] for one column. *)
Definition check_column `{Externals} (df : DataFrame)
    (expected_ranges : list (string * (Q * Q))) (report : RangeReport)
    (col : string) : option RangeReport :=
  s ← get_col col df;
  let v := values s in
  let Q1 := quantile (1 # 4) v in
  let Q3 := quantile (3 # 4) v in
  let IQR := cell_op Qminus Q3 Q1 in
  let lower := cell_op Qminus Q1 (cell_op Qmult (Num (3 # 2)) IQR) in
  let upper := cell_op Qplus Q3 (cell_op Qmult (Num (3 # 2)) IQR) in
  let n_outliers :=
    length (filter (λ c, cell_ltb c lower || cell_ltb upper c = true) v) in
  ratio ← py_true_divide n_outliers (nrows df);
  let violations :=
    match list_find (λ e, e.1 = col) expected_ranges with
    | Some (_, (_, (exp_min, exp_max))) =>
        [(col, length (filter (λ c, cell_ltb c (Num exp_min)
                                    || cell_ltb (Num exp_max) c = true) v))]
    | None => []
    end in
  Some (mkRangeReport
          (outliers report ++ [(col, mkOutlierInfo n_outliers ratio lower upper)])
          (range_violations report ++ violations)
          (statistics report ++
             [(col, mkColumnStats (cell_min v) (cell_max v) (mean v) (median v)
                      (cell_std v))])).

(** [None]: the call raises [ZeroDivisionError]. *)
Definition check_numeric_ranges `{Externals} (df : DataFrame)
    (expected_ranges : list (string * (Q * Q))) : option RangeReport :=
  foldlM (check_column df expected_ranges) (mkRangeReport [] [] [])
    (select_dtypes [number] df).

(** ** Auxiliary notions for the statements below *)

(** The character [c] does not occur in [s]. *)
Fixpoint char_free (c : ascii) (s : string) : Prop :=
  match s with
  | EmptyString => True
  | String a s' => a ≠ c ∧ char_free c s'
  end.

(** The right index of a join holds no key twice. *)
Definition unique_index (rindex : list cell) : Prop :=
  ∀ k, length (matches k rindex) ≤ 1.


(** No column of [left] bears one of the names [rnames]: a join with a
    frame of these columns renames nothing. *)
Definition disjoint_names (left : DataFrame) (rnames : list string) : Prop :=
  Forall (λ n, n ∉ rnames) (col_names left).



(** Column [name] of [d'] is column [name] of [d] up to a selection of
    rows: [d'] has the column only if [d] has it, and then every cell of
    it is a cell of that of [d] (or the missing value a position outside
    the frame yields). *)
Definition selects (name : string) (d d' : DataFrame) : Prop :=
  ∀ s', get_col name d' = Some s' →
    ∃ s, get_col name d = Some s
         ∧ Forall (λ c, c = NA ∨ c ∈ values s) (values s').

(** A score within the closed interval from -1 to 1. *)
Definition unit_score (c : cell) : Prop :=
  ∃ q, c = Num q ∧ (-1 <= q)%Q ∧ (q <= 1)%Q.

(** The frame is well formed and its sentiment scores, if it has any, lie
    in the unit range. *)
Definition scores_in_range (d : DataFrame) : Prop :=
  wf_frame d
  ∧ ∀ s, get_col "sentiment_polarity" d = Some s → Forall unit_score (values s).

(** What the clipping loop makes of one column. *)
Definition clip_series (s : Series) : Series :=
  if std_positive (values s)
  then mkSeries (sdtype s) (clip_upper (quantile (99 # 100) (values s)) (values s))
  else s.

(** The elements of a list that a mask keeps. *)
Fixpoint keep {A} (mask : list bool) (l : list A) : list A :=
  match mask, l with
  | b :: mask', x :: l' => if b then x :: keep mask' l' else keep mask' l'
  | _, _ => []
  end.

(** What the numeric loop of [_handle_missing_values] makes of a column. *)
Definition impute_numeric_series (s : Series) : Series :=
  if existsb isnull (values s) then fillna_series (median (values s)) s else s.

(** What its categorical loop makes of a column; [None] where pandas
    refuses the fill. *)
Definition impute_categorical_series (s : Series) : option Series :=
  if existsb isnull (values s) then
    match mode (values s) with
    | Some mode_val => Some (fillna_series mode_val s)
    | None =>
        if decide (sdtype s = category) then None
        else Some (fillna_series (Str "Unknown") s)
    end
  else Some s.

(** A frame on which [_handle_missing_values] finds nothing to fill: a
    numeric column with a missing value has no median, a text or
    categorical column has no missing value. *)
Definition imputed (d : DataFrame) : Prop :=
  ∀ col s, get_col col d = Some s →
    (sdtype s = number → existsb isnull (values s) = true → median (values s) = NA)
    ∧ (sdtype s ∈ [object; category] → existsb isnull (values s) = false).

(** A pending assignment [df[name] = f(df[col])], and a run of them. *)
Definition write : Type := string * string * (Series → Series).

Definition apply_write (df : DataFrame) (w : write) : DataFrame :=
  assign_from w.1.1 w.1.2 w.2 df.

(** The statistics [create_rolling_features] names its columns after, and
    the four assignments of one iteration of its loop. *)
Definition rolling_stats : list string := ["mean"; "std"; "max"; "min"].

Definition window_stat `{Externals} (st : string) : list cell → cell :=
  if decide (st = "mean") then window_mean
  else if decide (st = "std") then window_std
  else if decide (st = "max") then window_max
  else window_min.

Definition rolling_writes `{Externals} (col : string) (window : nat) : list write :=
  (λ st, (rolling_name col st window, col, rolling_series window (window_stat st)))
    <$> rolling_stats.

(** ** Sample frames *)

Definition series_of (l : list Q) : Series := mkSeries number (Num <$> l).

(** Externals for the samples: a square root to six decimals; no string
    is parsed or printed (the sample frames hold typed cells). *)
Definition sample_sqrt (q : Q) : Q :=
  Qred (Z.sqrt (Qnum q * 10 ^ 12 / Z.pos (Qden q)) # 10 ^ 6).

Definition sample_externals : Externals :=
  {| ext_sqrt := sample_sqrt;
     ext_to_datetime := λ _, None;
     ext_to_numeric := λ _, None;
     ext_repr := λ _, "nan" |}.



(** Two visits, the second at 14:30 of its day, with a lag column of the
    primary series; two news articles and one tweet, all on the day of the
    second visit. *)
Definition visits_sample : DataFrame :=
  mkDF 2 [("visit_date", mkSeries datetime [Ts 19000 0; Ts 19001 52200]);
          ("visits", series_of [5; 7]%Q);
          ("visits_lag1", mkSeries number [NA; Num 5])].

Definition news_sample : DataFrame :=
  mkDF 2 [("date", mkSeries datetime [Ts 19001 3600; Ts 19001 7200]);
          ("title", mkSeries object [Str "a"; Str "b"]);
          ("keywords", mkSeries object [Str "flu"; Str "rsv"])].

Definition tweets_sample : DataFrame :=
  mkDF 1 [("date", mkSeries datetime [Ts 19001 60]);
          ("tweet_id", series_of [1]%Q);
          ("sentiment_polarity", series_of [1 # 2]%Q);
          ("likes", series_of [3]%Q);
          ("retweets", series_of [1]%Q)].

(** Two posts, the second with a score above 1. *)
Definition scores_sample : DataFrame :=
  mkDF 2 [("sentiment_polarity", series_of [1 # 2; 3 # 2]%Q)].


(** A waiting time of 0 and one of 100. *)
Definition clip_sample : DataFrame :=
  mkDF 2 [("WAITTIME", series_of [0; 100]%Q)].

(** Three arrivals, the time of the third unknown. *)
Definition arrivals_sample : DataFrame :=
  mkDF 3 [("ARRTIME", mkSeries number [Num 100; Num 2300; NA])].

(** The arrivals with the unknown time filled by the median. *)
Definition arrivals_imputed : DataFrame :=
  mkDF 3 [("ARRTIME", mkSeries number [Num 100; Num 2300; Num 1200])].


(** ** Further notions and samples *)


(** The columns [merge_all_sources] adds. *)
Definition count_names : list string :=
  ["cdc_count"; "reddit_sentiment"; "twitter_count"].


(** ** feature_engineering.py: the calendar features *)

(** The day number of a date of the proleptic Gregorian calendar (the
    inverse of [civil]). *)
Definition days_from_civil (y m d : Z) : Z :=
  let y' := (if (m <=? 2)%Z then y - 1 else y)%Z in
  let era := (y' `div` 400)%Z in
  let yoe := (y' - era * 400)%Z in
  let mp := (if (2 <? m)%Z then m - 3 else m + 9)%Z in
  let doy := ((153 * mp + 2) `div` 5 + d - 1)%Z in
  let doe := (yoe * 365 + yoe `div` 4 - yoe `div` 100 + doy)%Z in
  (era * 146097 + doe - 719468)%Z.

(** [.dt.isocalendar().week]: the week of a day is the week of its
    Thursday, counted within the year of that Thursday. *)
Definition iso_week (day : Z) : Z :=
  let thursday := (day - dayofweek day + 3)%Z in
  let y := (civil thursday).1.1 in
  ((thursday - days_from_civil y 1 1) `div` 7 + 1)%Z.

Definition dt_day : Series → Series := dt_field (λ d, (civil d).2).
Definition dt_week : Series → Series := dt_field iso_week.

(** [.dt.quarter] *)
Definition quarter (day : Z) : Z := (((civil day).1.2 - 1) `div` 3 + 1)%Z.
Definition dt_quarter : Series → Series := dt_field quarter.

(** A boolean property of the day, [.astype(int)]; false on a missing
    timestamp. *)
Definition dt_flag (f : Z → bool) (s : Series) : Series :=
  mkSeries number
    ((λ c, Num (Z_of_bool (match c with Ts d _ => f d | _ => false end))) <$> values s).

(** [.dt.is_month_start] and [.dt.is_month_end] *)
Definition is_month_start (day : Z) : bool := ((civil day).2 =? 1)%Z.
Definition is_month_end (day : Z) : bool := ((civil (day + 1)).2 =? 1)%Z.

(** [(s == n).astype(int)]; a missing value compares false. *)
Definition eq_int (n : Q) (s : Series) : Series :=
  mkSeries number
    ((λ c, Num (Z_of_bool (match c with Num q => Qeq_bool q n | _ => false end)))
       <$> values s).

(** [pd.to_datetime(['2023-01-01', '2023-07-04', '2023-11-23',
    '2023-12-25'])]: the four days at midnight. *)
Definition holiday_dates : list cell :=
  [Ts (days_from_civil 2023 1 1) 0; Ts (days_from_civil 2023 7 4) 0;
   Ts (days_from_civil 2023 11 23) 0; Ts (days_from_civil 2023 12 25) 0].

(** [s.isin(holiday_dates).astype(int)]: equality of timestamps. *)
Definition isin_dates (dates : list cell) (s : Series) : Series :=
  mkSeries number
    ((λ c, Num (Z_of_bool (existsb (cell_eqb c) dates))) <$> values s).

(** The time of day is counted in seconds. *)
Definition day_length : Z := 86400.

(** [(s - pd.Timestamp('2020-01-01')).dt.days]: whole days, rounded
    down. *)
Definition days_since (epoch : Z) (s : Series) : Series :=
  mkSeries number
    ((λ c, match c with
           | Ts d t => Num (inject_Z (((d - epoch) * day_length + t) `div` day_length))
           | _ => NA
           end) <$> values s).

(** What numpy and the parser of [pd.to_datetime] with its default
    [errors='raise'] contribute to the feature engineering. *)
Class FeatureExternals : Type := {
  (** [pd.to_datetime(x)] on a string or a number: [None] when the call
      raises, [Some None] for a value read as [NaT] *)
  ext_parse_datetime : cell → option (option (Z * Z));
  (** [np.sin(2 * np.pi * x / period)] and [np.cos(2 * np.pi * x / period)] *)
  ext_sin_cycle : Z → Q → Q;
  ext_cos_cycle : Z → Q → Q;
}.

(** [pd.to_datetime(s)]: [None] when a value does not parse. *)
Definition to_datetime_strict `{FeatureExternals} (s : Series) : option Series :=
  vs ← mapM (λ c, match c with
                  | Ts d t => Some (Ts d t)
                  | NA => Some NA
                  | _ => match ext_parse_datetime c with
                         | Some (Some (d, t)) => Some (Ts d t)
                         | Some None => Some NA
                         | None => None
                         end
                  end) (values s);
  Some (mkSeries datetime vs).

(** The columns [create_temporal_features] writes, in the order of the
    source. *)
Definition temporal_names : list string :=
  ["year"; "month"; "day"; "day_of_week"; "week_of_year"; "quarter";
   "is_weekend"; "is_monday"; "is_friday"; "is_month_start"; "is_month_end";
   "is_holiday"; "days_since_epoch"].

(** After the conversion, every feature but the last is followed by a
    read of [df_feat[date_col]] through [.dt] (or by a subtraction of a
    timestamp): a date column that bears the name of one of them is
    overwritten with numbers, and the next read raises. *)
Definition create_temporal_features `{FeatureExternals} (df : DataFrame)
    (date_col : string) : option DataFrame :=
  match get_col date_col df with
  | None => Some df
  | Some s =>
      parsed ← to_datetime_strict s;
      if decide (date_col ∈ take 12 temporal_names) then None
      else
        let df_feat := set_col date_col parsed df in
        let df_feat := assign_from "year" date_col dt_year df_feat in
        let df_feat := assign_from "month" date_col dt_month df_feat in
        let df_feat := assign_from "day" date_col dt_day df_feat in
        let df_feat := assign_from "day_of_week" date_col dt_dayofweek df_feat in
        let df_feat := assign_from "week_of_year" date_col dt_week df_feat in
        let df_feat := assign_from "quarter" date_col dt_quarter df_feat in
        let df_feat := assign_from "is_weekend" "day_of_week" (ge_int 5) df_feat in
        let df_feat := assign_from "is_monday" "day_of_week" (eq_int 0) df_feat in
        let df_feat := assign_from "is_friday" "day_of_week" (eq_int 4) df_feat in
        let df_feat := assign_from "is_month_start" date_col
                         (dt_flag is_month_start) df_feat in
        let df_feat := assign_from "is_month_end" date_col
                         (dt_flag is_month_end) df_feat in
        let df_feat := assign_from "is_holiday" date_col
                         (isin_dates holiday_dates) df_feat in
        Some (assign_from "days_since_epoch" date_col
                (days_since (days_from_civil 2020 1 1)) df_feat)
  end.

(** One cyclical pair: [df[name_sin] = np.sin(2 * np.pi * df[col] / period)]
    and the cosine. *)
Definition cycle (f : Z → Q → Q) (period : Z) (s : Series) : Series :=
  mkSeries number
    ((λ c, match c with Num q => Num (f period q) | _ => NA end) <$> values s).

Definition add_cycle `{FeatureExternals} (col prefix : string) (period : Z)
    (df_feat : DataFrame) : DataFrame :=
  if has_col col df_feat then
    let df1 := assign_from (prefix +:+ "_sin") col (cycle ext_sin_cycle period) df_feat in
    assign_from (prefix +:+ "_cos") col (cycle ext_cos_cycle period) df1
  else df_feat.

Definition create_cyclical_features `{FeatureExternals} (df : DataFrame) : DataFrame :=
  let df_feat := add_cycle "day_of_week" "day_of_week" 7 df in
  let df_feat := add_cycle "month" "month" 12 df_feat in
  add_cycle "arrival_hour" "hour" 24 df_feat.

(** ** The interaction features *)

(** [df[name] = f(df[col1], df[col2])], row by row. *)
Definition assign_from2 (name col1 col2 : string) (f : cell → cell → cell)
    (df : DataFrame) : DataFrame :=
  match get_col col1 df, get_col col2 df with
  | Some a, Some b => set_col name (mkSeries number (zip_with f (values a) (values b))) df
  | _, _ => df
  end.

(** [c == n] on a number, [c == s] on a text, [c.between(lo, hi)]: all
    false on a missing value. *)
Definition cell_is (n : Q) (c : cell) : bool :=
  match c with Num q => Qeq_bool q n | _ => false end.

Definition cell_is_text (t : string) (c : cell) : bool :=
  match c with Str x => bool_decide (x = t) | _ => false end.

Definition between (lo hi : Q) (c : cell) : bool :=
  match c with Num q => Qle_bool lo q && Qle_bool q hi | _ => false end.

Definition flu_months : list Q := [10; 11; 12; 1; 2; 3]%Q.

Definition create_interaction_features (df : DataFrame) : DataFrame :=
  let df_feat := df in
  let df_feat :=
    if has_col "is_weekend" df_feat && has_col "arrival_hour" df_feat then
      assign_from2 "weekend_evening" "is_weekend" "arrival_hour"
        (λ w h, Num (Z_of_bool (cell_is 1 w && between 18 23 h))) df_feat
    else df_feat in
  let df_feat :=
    if has_col "age_group" df_feat && has_col "has_insurance" df_feat then
      assign_from2 "senior_uninsured" "age_group" "has_insurance"
        (λ a i, Num (Z_of_bool (cell_is_text "65+" a && cell_is 0 i))) df_feat
    else df_feat in
  let df_feat :=
    if has_col "is_weekend" df_feat && has_col "high_acuity" df_feat then
      assign_from2 "weekend_high_acuity" "is_weekend" "high_acuity"
        (cell_op Qmult) df_feat
    else df_feat in
  if has_col "month" df_feat then
    assign_from "is_flu_season" "month" (isin_int flu_months) df_feat
  else df_feat.

(** [value_cols] is empty for [None] and for an empty list alike: both
    skip the lagged and the rolling features. *)
Definition create_all_features `{Externals} `{FeatureExternals} (df : DataFrame)
    (date_col : string) (value_cols : list string) : option DataFrame :=
  df_feat ← create_temporal_features df date_col;
  let df_feat := create_cyclical_features df_feat in
  let df_feat :=
    match value_cols with
    | [] => df_feat
    | _ =>
        let df_feat := create_lagged_features df_feat value_cols default_lags in
        create_rolling_features df_feat value_cols default_windows
    end in
  Some (create_interaction_features df_feat).

(** The steps of [create_all_features] that follow the temporal features. *)
Definition after_temporal `{Externals} `{FeatureExternals} (value_cols : list string) (df_feat : DataFrame) : DataFrame :=
  let df_feat := create_cyclical_features df_feat in
  let df_feat :=
    match value_cols with
    | [] => df_feat
    | _ =>
        let df_feat := create_lagged_features df_feat value_cols default_lags in
        create_rolling_features df_feat value_cols default_windows
    end in
  create_interaction_features df_feat.

(** ** The aggregated features *)

(** The group keys of [groupby(col)]: the distinct values, missing ones
    left out.  pandas sorts them; the order does not show in the result
    of the left join that follows, and the keys are kept here in the
    order of their first appearance. *)
Fixpoint distinct (seen : list cell) (l : list cell) : list cell :=
  match l with
  | [] => []
  | c :: l' =>
      if isnull c || existsb (cell_eqb c) seen then distinct seen l'
      else c :: distinct (c :: seen) l'
  end.

Definition group_keys (keys : list cell) : list cell := distinct [] keys.

(** The cells of a column that fall into the group of key [k]. *)
Definition group_cells_by (keys col : list cell) (k : cell) : list cell :=
  (filter (λ kc, cell_eqb k kc.1 = true) (zip keys col)).*2.

Definition agg_by (f : list cell → cell) (keys ks : list cell) (s : Series) : Series :=
  mkSeries number ((λ k, f (group_cells_by keys (values s) k)) <$> ks).

Definition group_stat_names (group_col : string) : list string :=
  (λ st, group_col +:+ "_" +:+ st) <$> ["mean"; "std"; "count"; "min"; "max"].

(** [df.groupby(group_col)[agg_col].agg(['mean', 'std', 'count', 'min',
    'max']).add_prefix(f'{group_col}_')] *)
Definition group_stats `{Externals} (group_col agg_col : string) (df : DataFrame)
  : option Indexed :=
  g ← get_col group_col df;
  a ← get_col agg_col df;
  let keys := values g in
  let ks := group_keys keys in
  Some (mkIndexed ks
          (mkDF (length ks)
             [(group_col +:+ "_mean", agg_by mean keys ks a);
              (group_col +:+ "_std", agg_by cell_std keys ks a);
              (group_col +:+ "_count", agg_by agg_count keys ks a);
              (group_col +:+ "_min", agg_by cell_min keys ks a);
              (group_col +:+ "_max", agg_by cell_max keys ks a)])).

(** One step of the loop of [create_aggregated_features]. *)
Definition add_group_stats `{Externals} (agg_col : string) (df_feat : DataFrame)
    (group_col : string) : DataFrame :=
  if has_col group_col df_feat && has_col agg_col df_feat then
    match group_stats group_col agg_col df_feat, get_col group_col df_feat with
    | Some stats, Some g => merge_left df_feat (values g) stats
    | _, _ => df_feat
    end
  else df_feat.

Definition create_aggregated_features `{Externals} (df : DataFrame)
    (group_cols : list string) (agg_col : string) : DataFrame :=
  foldl (add_group_stats agg_col) df group_cols.

(** ** data_validation.py: the other checks *)

Record MissingReport : Type := mkMissingReport {
  total_missing : nat;
  columns_with_missing : list (string * nat);
  missing_ratios : list (string * Q);
  high_missing_columns : list string;
}.

Definition missing_count (s : Series) : nat :=
  length (filter (λ c, isnull c = true) (values s)).

(** [a > b] *)
Definition Qgt_bool (a b : Q) : bool := negb (Qle_bool a b).

(** [df.isnull().sum()] and [df.isnull().mean()], column by column; the
    mean of no row is not a number, and compares false. *)
Definition check_missing_values (df : DataFrame) (threshold : Q) : MissingReport :=
  let missing_counts := (λ p, (p.1, missing_count p.2)) <$> columns df in
  let missing_ratios :=
    (λ p, (p.1, np_true_divide (missing_count p.2) (nrows df))) <$> columns df in
  let above (bound : Q) (p : string * option Q) : option (string * Q) :=
    match p.2 with
    | Some r => if Qgt_bool r bound then Some (p.1, r) else None
    | None => None
    end in
  let high_missing_cols := (omap (above threshold) missing_ratios).*1 in
  mkMissingReport
    (sum_list missing_counts.*2)
    (filter (λ p, 0 < p.2) missing_counts)
    (omap (above 0%Q) missing_ratios)
    high_missing_cols.











(** ** Further samples *)

(** Externals of the feature engineering for the samples: no string is
    parsed (the sample frames hold timestamps), and the cyclical values
    are not looked at. *)
Definition sample_feature_externals : FeatureExternals :=
  {| ext_parse_datetime := λ _, None;
     ext_sin_cycle := λ _ _, 0%Q;
     ext_cos_cycle := λ _ _, 1%Q |}.

(** A waiting time of 0 and one of 100, with a text column. *)
Definition repeats_clip_sample : DataFrame :=
  mkDF 2 [("WAITTIME", series_of [0; 100]%Q);
          ("NOTE", mkSeries object [Str "a"; Str "b"])].

(** The assignments of [create_temporal_features] after the conversion
    of the date column, and those of one column of
    [create_lagged_features]. *)
Definition temporal_writes (date_col : string) : list write :=
  [("year", date_col, dt_year);
   ("month", date_col, dt_month);
   ("day", date_col, dt_day);
   ("day_of_week", date_col, dt_dayofweek);
   ("week_of_year", date_col, dt_week);
   ("quarter", date_col, dt_quarter);
   ("is_weekend", "day_of_week", ge_int 5);
   ("is_monday", "day_of_week", eq_int 0);
   ("is_friday", "day_of_week", eq_int 4);
   ("is_month_start", date_col, dt_flag is_month_start);
   ("is_month_end", date_col, dt_flag is_month_end);
   ("is_holiday", date_col, isin_dates holiday_dates);
   ("days_since_epoch", date_col, days_since (days_from_civil 2020 1 1))].

Definition lag_writes (col : string) (lags : list Z) : list write :=
  (λ lag, (lag_name col lag, col, shift_series lag)) <$> lags.

(** The names [create_cyclical_features] and
    [create_interaction_features] write. *)
Definition cyclical_names : list string :=
  ["day_of_week_sin"; "day_of_week_cos"; "month_sin"; "month_cos";
   "hour_sin"; "hour_cos"].

Definition interaction_names : list string :=
  ["weekend_evening"; "senior_uninsured"; "weekend_high_acuity"; "is_flu_season"].

(** A 0/1 flag. *)
Definition is_flag (c : cell) : Prop := c = Num 0 ∨ c = Num 1.

(** Three visits: a Saturday at 19:00, Christmas Day 2023 (a Monday) at
    14:30, and one without a date. *)
Definition calendar_sample : DataFrame :=
  mkDF 3 [("visit_date", mkSeries datetime [Ts 19714 68400; Ts 19716 52200; NA]);
          ("arrival_hour", mkSeries number [Num 19; Num 14; NA]);
          ("high_acuity", mkSeries number [Num 1; NA; Num 1]);
          ("month", mkSeries number [Num 7; Num 7; Num 7])].

(** Four visits with the columns the interaction features read: a
    weekend evening, a weekday evening, a weekend visit without an hour
    and without an acuity, and a visit without a weekend flag. *)
Definition interaction_sample : DataFrame :=
  mkDF 4 [("is_weekend", mkSeries number [Num 1; Num 0; Num 1; NA]);
          ("arrival_hour", mkSeries number [Num 19; Num 23; NA; Num 20]);
          ("high_acuity", mkSeries number [Num 1; Num 1; NA; Num 1])].


(** * Properties *)

(** ** Column access *)

Lemma assoc_set_eq name s l : assoc name (assoc_set name s l) = Some s.
Proof.
  induction l as [|[n s'] l IH]; simpl.
  - by rewrite decide_True.
  - destruct (decide (n = name)) as [->|Hne]; simpl.
    + by rewrite decide_True.
    + by rewrite decide_False.
Qed.

Lemma assoc_set_ne name name' s l :
  name ≠ name' → assoc name' (assoc_set name s l) = assoc name' l.
Proof.
  intros Hne. induction l as [|[n s'] l IH]; simpl.
  - by rewrite decide_False.
  - destruct (decide (n = name)) as [->|Hn]; simpl.
    + by rewrite !decide_False.
    + destruct (decide (n = name')); [done|apply IH].
Qed.

Lemma get_col_set_col_eq name s df : get_col name (set_col name s df) = Some s.
Proof. apply assoc_set_eq. Qed.

Lemma get_col_set_col_ne name name' s df :
  name ≠ name' → get_col name' (set_col name s df) = get_col name' df.
Proof. apply assoc_set_ne. Qed.

Lemma nrows_set_col name s df : nrows (set_col name s df) = nrows df.
Proof. done. Qed.

Lemma has_col_true name df : has_col name df = true ↔ is_Some (get_col name df).
Proof. unfold has_col. apply bool_decide_eq_true. Qed.

Lemma has_col_false name df : has_col name df = false ↔ get_col name df = None.
Proof.
  unfold has_col. rewrite bool_decide_eq_false, <-eq_None_not_Some. done.
Qed.

Lemma assign_from_eq name col f df s :
  get_col col df = Some s →
  get_col name (assign_from name col f df) = Some (f s).
Proof. intros Hs. unfold assign_from. rewrite Hs. apply get_col_set_col_eq. Qed.

Lemma assign_from_ne name name' col f df :
  name ≠ name' → get_col name' (assign_from name col f df) = get_col name' df.
Proof.
  intros Hne. unfold assign_from. destruct (get_col col df); [|done].
  by apply get_col_set_col_ne.
Qed.

Lemma nrows_assign_from name col f df : nrows (assign_from name col f df) = nrows df.
Proof. unfold assign_from. by destruct (get_col col df). Qed.

(** ** Generated column names are told apart *)

Lemma string_app_nil (t : string) : "" +:+ t = t.
Proof. done. Qed.

Lemma string_app_cons a (s t : string) : String a s +:+ t = String a (s +:+ t).
Proof. done. Qed.

Ltac str_simpl :=
  repeat (rewrite ?string_app_nil, ?string_app_cons in *; simpl in * ).




Lemma char_free_occurs c s t : ¬ char_free c (s +:+ String c t).
Proof. induction s as [|a s IH]; str_simpl; intros [? ?]; [done|auto]. Qed.












(** ** Lagged features *)

Lemma length_shift k l : length (shift k l) = length l.
Proof.
  unfold shift. case_decide.
  - rewrite length_app, length_replicate, length_take. lia.
  - rewrite length_app, length_replicate, length_drop. lia.
Qed.


Section lagged.
Context (value_cols : list string) (lags : list Z).
Context (c : string) (k : Z) (s : Series).
Context (Hfresh : ∀ c' k', c' ∈ value_cols → k' ∈ lags → c ≠ lag_name c' k').

Local Abbreviation P d :=
  (get_col (lag_name c k) d = Some (shift_series k s)).





End lagged.




(** ** Runs of column assignments *)

Lemma foldl_bind {A B C} (g : A → C → A) (h : B → list C) (a : A) (l : list B) :
  foldl (λ a x, foldl g a (h x)) a l = foldl g a (l ≫= h).
Proof.
  revert a. induction l as [|x l IH]; intros a; simpl; [done|].
  by rewrite foldl_app, IH.
Qed.

(** Assignments that read an absent column do nothing, so the guard
    [if col in df.columns] around a run of them can be dropped. *)
Lemma apply_writes_absent col (ws : list write) df :
  Forall (λ w, w.1.2 = col) ws → get_col col df = None →
  foldl apply_write df ws = df.
Proof.
  intros Hws Hnone. induction Hws as [|w ws Hw Hws IH]; simpl; [done|].
  unfold apply_write at 2, assign_from. by rewrite Hw, Hnone.
Qed.

Lemma apply_writes_guard col (ws : list write) df :
  Forall (λ w, w.1.2 = col) ws →
  (if has_col col df then foldl apply_write df ws else df) = foldl apply_write df ws.
Proof.
  intros Hws. destruct (has_col col df) eqn:Hhas; [done|].
  apply has_col_false in Hhas. by rewrite (apply_writes_absent col).
Qed.

(** The value a run of assignments leaves in column [name]: when no
    assignment overwrites the source column [c], and every assignment to
    [name] computes [f] of [c], the run ends with [name = f(c)]. *)
Lemma apply_writes_spec (ws : list write) df c s name f :
  get_col c df = Some s →
  Forall (λ w, w.1.1 ≠ c) ws →
  Forall (λ w, w.1.1 = name → w.1.2 = c ∧ w.2 s = f s) ws →
  (∃ w, w ∈ ws ∧ w.1.1 = name) →
  get_col name (foldl apply_write df ws) = Some (f s).
Proof.
  intros Hs Hsrc Hname [w0 [Hin Hw0]].
  cut (get_col c (foldl apply_write df ws) = Some s
       ∧ get_col name (foldl apply_write df ws) = Some (f s)); [by intros [_ ?]|].
  revert df Hs Hin.
  cut (∀ df, get_col c df = Some s →
         (get_col name df = Some (f s) ∨ w0 ∈ ws) →
         get_col c (foldl apply_write df ws) = Some s
         ∧ get_col name (foldl apply_write df ws) = Some (f s)); [by eauto|].
  induction ws as [|w ws IH]; intros df Hs Hor; simpl.
  - destruct Hor as [?|Hin]; [done|]. by apply elem_of_nil in Hin.
  - apply list.Forall_cons in Hsrc as [Hw_src Hsrc].
    apply list.Forall_cons in Hname as [Hw_name Hname].
    apply IH; [done|done| |].
    + unfold apply_write. by rewrite assign_from_ne.
    + destruct (decide (w.1.1 = name)) as [Heq|Hne].
      * left. destruct (Hw_name Heq) as [Hcol Hf].
        unfold apply_write. rewrite <-Heq, <-Hf. apply assign_from_eq. by rewrite Hcol.
      * destruct Hor as [Hold|[->|Hin]%elem_of_cons]; [|done|by right].
        left. unfold apply_write. by rewrite assign_from_ne.
Qed.

(** ** Rolling windows *)

Lemma length_rolling_go w stat seen l : length (rolling_go w stat seen l) = length l.
Proof. revert seen. induction l as [|x l IH]; intros seen; simpl; [done|by rewrite IH]. Qed.

Lemma length_rolling w stat l : length (rolling w stat l) = length l.
Proof. apply length_rolling_go. Qed.






Section rolling_features.
Context `{Externals}.

Lemma foldl_ext_eq {A B} (f g : A → B → A) (a : A) (l : list B) :
  (∀ a x, f a x = g a x) → foldl f a l = foldl g a l.
Proof. intros Hfg. revert a. induction l as [|x l IH]; intros a; simpl; [done|]. by rewrite Hfg, IH. Qed.

Lemma rolling_writes_col col window :
  Forall (λ w : write, w.1.2 = col) (rolling_writes col window).
Proof. unfold rolling_writes. apply Forall_fmap, Forall_true. done. Qed.

Lemma add_rolling_writes col df window :
  add_rolling col df window = foldl apply_write df (rolling_writes col window).
Proof. reflexivity. Qed.

(** The nested loops are one run of assignments. *)
Lemma create_rolling_features_writes df value_cols windows :
  create_rolling_features df value_cols windows
  = foldl apply_write df (value_cols ≫= λ col, windows ≫= rolling_writes col).
Proof.
  unfold create_rolling_features. rewrite <-foldl_bind.
  apply foldl_ext_eq. intros d col.
  rewrite <-(apply_writes_guard col).
  - destruct (has_col col d); [|done].
    rewrite <-foldl_bind. apply foldl_ext_eq. intros. apply add_rolling_writes.
  - apply Forall_bind, list.Forall_forall. intros w _. apply rolling_writes_col.
Qed.

Lemma elem_of_all_rolling_writes (wr : write) value_cols windows :
  wr ∈ (value_cols ≫= λ col, windows ≫= rolling_writes col) ↔
  ∃ col w st, col ∈ value_cols ∧ w ∈ windows ∧ st ∈ rolling_stats ∧
    wr = (rolling_name col st w, col, rolling_series w (window_stat st)).
Proof.
  rewrite list_elem_of_bind. split.
  - intros (col & Hwr & Hcol). apply list_elem_of_bind in Hwr as (w & Hwr & Hw).
    apply list_elem_of_fmap in Hwr as (st & -> & Hst). by exists col, w, st.
  - intros (col & w & st & Hcol & Hw & Hst & ->). exists col. split; [|done].
    apply list_elem_of_bind. exists w. split; [|done].
    apply list_elem_of_fmap. by exists st.
Qed.

End rolling_features.




(** ** Validation: the ratios divide by the number of rows *)

Lemma assoc_is_Some name l : name ∈ l.*1 → is_Some (assoc name l).
Proof.
  induction l as [|[n s] l IH]; simpl.
  - intros Hin. by apply elem_of_nil in Hin.
  - intros Hin. destruct (decide (n = name)); [by eexists|].
    apply IH. apply elem_of_cons in Hin as [?|?]; [congruence|done].
Qed.

Lemma assoc_Some_elem name s l : assoc name l = Some s → (name, s) ∈ l.
Proof.
  induction l as [|[n s'] l IH]; simpl; [done|].
  destruct (decide (n = name)) as [->|].
  - intros [= ->]. by left.
  - intros Hs. right. by apply IH.
Qed.

Lemma select_dtypes_columns kinds df col :
  col ∈ select_dtypes kinds df → col ∈ col_names df.
Proof.
  unfold select_dtypes, col_names.
  intros ([n s] & -> & Hin)%list_elem_of_fmap.
  apply list_elem_of_filter in Hin as [_ Hin].
  apply list_elem_of_fmap. by exists (n, s).
Qed.

Lemma select_dtypes_present kinds df col :
  col ∈ select_dtypes kinds df → is_Some (get_col col df).
Proof. intros Hin. by apply assoc_is_Some, (select_dtypes_columns kinds). Qed.

Section validation.
Context `{Externals}.

Lemma check_column_rows df er rep col :
  0 < nrows df → is_Some (get_col col df) →
  ∃ rep1 info,
    check_column df er rep col = Some rep1
    ∧ outliers rep1 = outliers rep ++ [(col, info)]
    ∧ outlier_ratio info = Qred (Qnat (outlier_count info) / Qnat (nrows df)).
Proof.
  intros Hn [s Hs]. unfold check_column. rewrite Hs. simpl.
  destruct (nrows df) as [|n] eqn:Hrows; [lia|]. simpl.
  eexists _, _. split; [reflexivity|]. simpl. split; reflexivity.
Qed.

Lemma check_column_no_rows df er rep col :
  nrows df = 0 → check_column df er rep col = None.
Proof.
  intros Hn. unfold check_column. destruct (get_col col df); [|done].
  simpl. by rewrite Hn.
Qed.

Lemma check_columns_rows df er rep cols :
  0 < nrows df → Forall (λ col, is_Some (get_col col df)) cols →
  ∃ rep',
    foldlM (check_column df er) rep cols = Some rep'
    ∧ ∀ col info, (col, info) ∈ outliers rep' →
        (col, info) ∈ outliers rep
        ∨ outlier_ratio info = Qred (Qnat (outlier_count info) / Qnat (nrows df)).
Proof.
  intros Hn Hcols. revert rep.
  induction Hcols as [|col cols Hcol Hcols IH]; intros rep; simpl.
  - exists rep. split; [done|]. auto.
  - destruct (check_column_rows df er rep col Hn Hcol)
      as (rep1 & info & -> & Hout & Hratio). simpl.
    destruct (IH rep1) as (rep' & -> & Hrep').
    exists rep'. split; [done|].
    intros col' info' Hin. destruct (Hrep' _ _ Hin) as [Hold|?]; [|by right].
    rewrite Hout in Hold. apply elem_of_app in Hold as [?|Hnew]; [by left|].
    apply list_elem_of_singleton in Hnew as [= -> ->]. by right.
Qed.

(** C9.  Both ratios divide by the number of rows and nothing guards the
    division.  With at least one row the duplicate ratio is the count by
    the rows and [check_numeric_ranges] returns, each outlier ratio being
    the count by the rows; with no row the duplicate ratio is not a
    number, and [check_numeric_ranges] raises as soon as there is a
    numeric column. *)
Theorem ratios_divide_by_rows (df : DataFrame) (subset : list string)
    (expected_ranges : list (string * (Q * Q))) :
  (∀ r, check_duplicates df subset = Some r →
     duplicate_ratio r
     = if decide (nrows df = 0) then None
       else Some (Qred (Qnat (duplicate_count r) / Qnat (nrows df))))
  ∧ (check_numeric_ranges df expected_ranges = None
     ↔ nrows df = 0 ∧ select_dtypes [number] df ≠ [])
  ∧ (∀ rep col info,
       check_numeric_ranges df expected_ranges = Some rep →
       (col, info) ∈ outliers rep →
       outlier_ratio info = Qred (Qnat (outlier_count info) / Qnat (nrows df))).
Proof.
  assert (Forall (λ col, is_Some (get_col col df)) (select_dtypes [number] df)) as Hpresent.
  { apply list.Forall_forall. intros col. apply select_dtypes_present. }
  split_and!.
  - intros r Hr. unfold check_duplicates in Hr.
    apply bind_Some in Hr as (cols & _ & Hr). injection Hr as <-. simpl.
    unfold np_true_divide. destruct (nrows df); by case_decide.
  - unfold check_numeric_ranges. split.
    + intros Hnone. destruct (decide (nrows df = 0)) as [Hz|Hnz].
      * split; [done|]. intros Hnil. by rewrite Hnil in Hnone.
      * destruct (check_columns_rows df expected_ranges (mkRangeReport [] [] [])
                    _ ltac:(lia) Hpresent) as (rep' & Hrep' & _).
        congruence.
    + intros [Hz Hne]. destruct (select_dtypes [number] df) as [|col cols]; [done|].
      simpl. by rewrite check_column_no_rows.
  - intros rep col info Hrep Hin.
    destruct (decide (nrows df = 0)) as [Hz|Hnz].
    + exfalso. unfold check_numeric_ranges in Hrep.
      destruct (select_dtypes [number] df) as [|col' cols].
      * simpl in Hrep. injection Hrep as <-. by apply elem_of_nil in Hin.
      * simpl in Hrep. by rewrite check_column_no_rows in Hrep.
    + destruct (check_columns_rows df expected_ranges (mkRangeReport [] [] [])
                  _ ltac:(lia) Hpresent) as (rep' & Hrep' & Hall).
      unfold check_numeric_ranges in Hrep. rewrite Hrep' in Hrep. injection Hrep as ->.
      destruct (Hall _ _ Hin) as [Hold|?]; [|done]. by apply elem_of_nil in Hold.
Qed.
End validation.


(** ** Taking rows by position *)

Lemma length_take_cells idx l : length (take_cells idx l) = length idx.
Proof. unfold take_cells. by rewrite length_fmap. Qed.

Lemma take_cells_seq l : take_cells (Some <$> seq 0 (length l)) l = l.
Proof.
  unfold take_cells. rewrite <-list_fmap_compose.
  apply list_eq. intros i. rewrite list_lookup_fmap.
  destruct (decide (i < length l)) as [Hi|Hi].
  - rewrite lookup_seq_lt by done. simpl.
    destruct (lookup_lt_is_Some_2 l i Hi) as [x Hx]. by rewrite Hx.
  - rewrite lookup_seq_ge by lia. simpl. symmetry. apply lookup_ge_None. lia.
Qed.

Lemma take_series_seq s n :
  length (values s) = n → take_series (Some <$> seq 0 n) s = s.
Proof. intros <-. destruct s as [d v]. unfold take_series. simpl. by rewrite take_cells_seq. Qed.

Lemma wf_take_rows idx df : wf_frame (take_rows idx df).
Proof.
  unfold wf_frame, take_rows. simpl. apply Forall_fmap, Forall_true.
  intros [n s]. simpl. by rewrite length_take_cells, length_fmap.
Qed.

Lemma nrows_filter_rows mask df :
  nrows (filter_rows mask df) = length (filter (λ b, b = true) mask).
Proof.
  unfold filter_rows, take_rows. simpl. generalize 0.
  induction mask as [|b mask IH]; intros i; [done|].
  destruct b.
  - rewrite filter_cons_True by done. simpl. by rewrite IH.
  - rewrite filter_cons_False by done. simpl. by rewrite IH.
Qed.

(** ** Group keys are distinct *)

Lemma Zinsert_uniq_sorted x l :
  StronglySorted Z.lt l →
  StronglySorted Z.lt (Zinsert_uniq x l) ∧ ∀ y, y ∈ Zinsert_uniq x l → y = x ∨ y ∈ l.
Proof.
  induction 1 as [|y l Hl IH Hy]; simpl.
  - split; [repeat constructor|]. intros y ->%list_elem_of_singleton. by left.
  - destruct (Z.ltb_spec x y) as [Hlt|Hge].
    + split.
      * constructor; [by constructor|]. constructor; [done|].
        eapply Forall_impl; [exact Hy|]. simpl. lia.
      * intros z [->|Hz]%elem_of_cons; auto.
    + destruct (Z.eqb_spec x y) as [->|Hne].
      * split; [by constructor|]. auto.
      * destruct IH as [IH1 IH2]. split.
        -- constructor; [done|]. apply list.Forall_forall. intros z Hz.
           destruct (IH2 z Hz) as [->|Hin]; [lia|].
           by eapply (proj1 (list.Forall_forall _ _) Hy).
        -- intros z [->|Hz]%elem_of_cons; [right; by left|].
           destruct (IH2 z Hz); [by left|right; by right].
Qed.

Lemma group_days_sorted keys : StronglySorted Z.lt (group_days keys).
Proof.
  unfold group_days. induction (omap day_of keys) as [|x l IH]; simpl.
  - constructor.
  - by apply Zinsert_uniq_sorted.
Qed.

Lemma StronglySorted_lt_NoDup (l : list Z) : StronglySorted Z.lt l → NoDup l.
Proof.
  induction 1 as [|y l Hl IH Hy]; constructor; [|done].
  intros Hin. apply (proj1 (list.Forall_forall _ _) Hy) in Hin. lia.
Qed.

Lemma group_days_NoDup keys : NoDup (group_days keys).
Proof. apply StronglySorted_lt_NoDup, group_days_sorted. Qed.

(** ** A left join on distinct keys keeps the left rows *)

Lemma filter_none {A} (P : A → Prop) `{∀ x, Decision (P x)} (l : list A) :
  Forall (λ x, ¬ P x) l → filter P l = [].
Proof.
  induction 1 as [|x l Hx Hl IH]; [done|]. by rewrite filter_cons_False.
Qed.

Lemma matches_go_le1 k (days : list Z) (i : nat) :
  NoDup days →
  length (filter (λ jc : nat * cell, cell_eqb k jc.2 = true)
            (zip (seq i (length days)) (day_index days))) ≤ 1.
Proof.
  intros Hnd. revert i. induction Hnd as [|d days Hd Hnd IH]; intros i; simpl; [lia|].
  destruct (decide (cell_eqb k (Ts d 0) = true)) as [Heq|Hne].
  - rewrite filter_cons_True by done. simpl.
    rewrite filter_none; [simpl; lia|].
    apply list.Forall_forall. intros [j c] Hin Hc. simpl in Hc.
    apply elem_of_zip_r in Hin. unfold day_index in Hin.
    apply list_elem_of_fmap in Hin as (d' & -> & Hd').
    destruct k as [| |kd kt|]; simpl in Heq, Hc; try done.
    apply andb_true_iff in Heq as [?%bool_decide_eq_true _].
    apply andb_true_iff in Hc as [?%bool_decide_eq_true _]. congruence.
  - rewrite filter_cons_False by done. apply IH.
Qed.

Lemma unique_day_index keys : unique_index (day_index (group_days keys)).
Proof.
  intros k. unfold matches. rewrite length_fmap.
  replace (length (day_index (group_days keys))) with (length (group_days keys))
    by (unfold day_index; by rewrite length_fmap).
  apply matches_go_le1, group_days_NoDup.
Qed.

Lemma join_indexer_go (iks : list (nat * cell)) rindex :
  unique_index rindex →
  ((iks ≫= λ ik, match matches ik.2 rindex with
                 | [] => [(ik.1, None)]
                 | ms => (λ j, (ik.1, Some j)) <$> ms
                 end).*1 : list nat) = iks.*1.
Proof.
  intros Huniq. induction iks as [|[i k] iks IH]; [done|].
  rewrite bind_cons, fmap_app, IH. simpl.
  specialize (Huniq k). destruct (matches k rindex) as [|j [|j' ms]]; simpl in *; [done|done|lia].
Qed.

Lemma join_indexer_left lkeys rindex :
  unique_index rindex → (join_indexer lkeys rindex).*1 = seq 0 (length lkeys).
Proof.
  intros Huniq. unfold join_indexer. rewrite join_indexer_go by done.
  apply fst_zip. by rewrite length_seq.
Qed.

Lemma length_join_indexer lkeys rindex :
  unique_index rindex → length (join_indexer lkeys rindex) = length lkeys.
Proof.
  intros Huniq. rewrite <-(length_fmap fst), join_indexer_left by done.
  apply length_seq.
Qed.

Lemma nrows_merge_left left lkeys right :
  unique_index (index right) → nrows (merge_left left lkeys right) = length lkeys.
Proof. intros Huniq. unfold merge_left. simpl. by apply length_join_indexer. Qed.

Lemma wf_merge_left left lkeys right : wf_frame (merge_left left lkeys right).
Proof.
  unfold wf_frame, merge_left. simpl. apply Forall_app. split.
  - apply Forall_fmap, Forall_true. intros [n s]. simpl.
    by rewrite length_take_cells, !length_fmap.
  - apply Forall_fmap, Forall_true. intros [n s]. simpl.
    by rewrite length_take_cells, !length_fmap.
Qed.

Lemma wf_get_col df name s :
  wf_frame df → get_col name df = Some s → length (values s) = nrows df.
Proof.
  intros Hwf Hs. apply assoc_Some_elem in Hs.
  by apply (proj1 (list.Forall_forall _ _) Hwf (name, s)).
Qed.

(** ** Row count across the merges *)


Lemma wf_fill_zero keep df : wf_frame df → wf_frame (fill_zero keep df).
Proof.
  unfold wf_frame, fill_zero. simpl. intros Hwf. apply Forall_fmap.
  eapply Forall_impl; [exact Hwf|]. intros [n s] Hlen. simpl in *.
  destruct (keep n); simpl; [|done]. unfold fillna. by rewrite length_fmap.
Qed.




Lemma daily_size_unique name src a : daily_size name src = Some a → unique_index (index a).
Proof.
  unfold daily_size. intros Ha.
  apply bind_Some in Ha as (date & _ & Ha).
  injection Ha as <-. apply unique_day_index.
Qed.

Lemma daily_sentiment_unique src a : daily_sentiment src = Some a → unique_index (index a).
Proof.
  unfold daily_sentiment. intros Ha.
  apply bind_Some in Ha as (date & _ & Ha).
  apply bind_Some in Ha as (sentiment & _ & Ha).
  injection Ha as <-. apply unique_day_index.
Qed.

Section one_source.
Context (aggregate : DataFrame → option Indexed).
Context (Huniq : ∀ src a, aggregate src = Some a → unique_index (index a)).


Lemma merge_on_visit_date_rows merged source out :
  wf_frame merged → merge_on_visit_date aggregate merged source = Some out →
  nrows out = nrows merged ∧ wf_frame out.
Proof.
  intros Hwf. unfold merge_on_visit_date.
  destruct source as [src|]; [|by intros [= <-]].
  destruct (empty src); [by intros [= <-]|].
  intros (a & Ha & Hout)%bind_Some.
  apply bind_Some in Hout as (vd & Hvd & Hout).
  injection Hout as <-. split; [|apply wf_merge_left].
  rewrite nrows_merge_left by eauto. by eapply wf_get_col.
Qed.


End one_source.







Lemma get_col_is_Some_names name df : is_Some (get_col name df) ↔ name ∈ col_names df.
Proof.
  split; [|apply assoc_is_Some].
  intros [s Hs]. apply assoc_Some_elem in Hs.
  unfold col_names. apply list_elem_of_fmap. by exists (name, s).
Qed.



Lemma daily_size_names name src a :
  daily_size name src = Some a → col_names (frame a) = [name].
Proof.
  unfold daily_size. intros (date & _ & Ha)%bind_Some. by injection Ha as <-.
Qed.

Lemma daily_sentiment_names src a :
  daily_sentiment src = Some a → col_names (frame a) = ["reddit_sentiment"].
Proof.
  unfold daily_sentiment. intros (date & _ & Ha)%bind_Some.
  apply bind_Some in Ha as (sentiment & _ & Ha). by injection Ha as <-.
Qed.


(** ** Columns of a join *)

Lemma assoc_app name l1 l2 :
  assoc name (l1 ++ l2)
  = match assoc name l1 with Some s => Some s | None => assoc name l2 end.
Proof.
  induction l1 as [|[n s] l1 IH]; simpl; [done|]. by destruct (decide (n = name)).
Qed.

Lemma assoc_fmap (g : string → Series → Series) name l :
  assoc name ((λ p, (p.1, g p.1 p.2)) <$> l) = g name <$> assoc name l.
Proof.
  induction l as [|[n s] l IH]; simpl; [done|].
  destruct (decide (n = name)) as [->|]; [done|apply IH].
Qed.

Lemma assoc_prod_map (f : Series → Series) name l :
  assoc name (prod_map id f <$> l) = f <$> assoc name l.
Proof.
  induction l as [|[n s] l IH]; simpl; [done|].
  destruct (decide (n = name)) as [->|]; [done|apply IH].
Qed.

Lemma assoc_None name l : assoc name l = None ↔ name ∉ l.*1.
Proof.
  split.
  - intros Hnone Hin. apply assoc_is_Some in Hin as [s Hs]. congruence.
  - intros Hnot. destruct (assoc name l) as [s|] eqn:Hs; [|done].
    apply assoc_Some_elem in Hs. destruct Hnot.
    apply list_elem_of_fmap. by exists (name, s).
Qed.

Lemma get_col_fill_zero keep name df :
  get_col name (fill_zero keep df)
  = (λ s, if keep name then fillna_series (Num 0) s else s) <$> get_col name df.
Proof.
  unfold get_col, fill_zero. simpl.
  apply (assoc_fmap (λ n s, if keep n then fillna_series (Num 0) s else s)).
Qed.

Lemma fillna_notna v l : v ≠ NA → Forall (λ c, c ≠ NA) (fillna v l).
Proof.
  intros Hv. unfold fillna. apply Forall_fmap, Forall_true. intros c. simpl.
  by destruct c.
Qed.

Lemma fillna_lookup v l i :
  fillna v l !! i = (λ c, if isnull c then v else c) <$> l !! i.
Proof. unfold fillna. apply list_lookup_fmap. Qed.

Section join_columns.
Context (left : DataFrame) (lkeys : list cell) (right : Indexed).
Context (Hwf : wf_frame left) (Hkeys : length lkeys = nrows left).
Context (Huniq : unique_index (index right)).
Context (Hdisj : disjoint_names left (col_names (frame right))).

Lemma merge_left_columns :
  columns (merge_left left lkeys right)
  = columns left
    ++ (prod_map id (take_series (join_indexer lkeys (index right)).*2)
          <$> columns (frame right)).
Proof.
  unfold merge_left. simpl. f_equal.
  - rewrite <-(list_fmap_id (columns left)) at 2.
    apply list.Forall_fmap_ext_1, list.Forall_forall. intros [n s] Hin. simpl.
    rewrite decide_False.
    + f_equal. rewrite join_indexer_left by done. apply take_series_seq.
      rewrite Hkeys. by apply (proj1 (list.Forall_forall _ _) Hwf (n, s)).
    + apply (proj1 (list.Forall_forall _ _) Hdisj).
      unfold col_names. apply list_elem_of_fmap. by exists (n, s).
  - apply list.Forall_fmap_ext_1, list.Forall_forall. intros [n s] Hin. simpl.
    rewrite decide_False; [done|].
    intros Hleft. apply (proj1 (list.Forall_forall _ _) Hdisj) in Hleft. destruct Hleft.
    unfold col_names. apply list_elem_of_fmap. by exists (n, s).
Qed.

Lemma merge_left_left_col name s :
  get_col name left = Some s → get_col name (merge_left left lkeys right) = Some s.
Proof.
  intros Hs. unfold get_col. rewrite merge_left_columns, assoc_app.
  unfold get_col in Hs. by rewrite Hs.
Qed.

Lemma merge_left_right_col name s :
  get_col name (frame right) = Some s →
  get_col name (merge_left left lkeys right)
  = Some (take_series (join_indexer lkeys (index right)).*2 s).
Proof.
  intros Hs. unfold get_col. rewrite merge_left_columns, assoc_app, assoc_prod_map.
  assert (assoc name (columns left) = None) as ->.
  { apply assoc_None. intros Hin.
    apply (proj1 (list.Forall_forall _ _) Hdisj) in Hin. destruct Hin.
    apply get_col_is_Some_names. by eexists. }
  unfold get_col in Hs. by rewrite Hs.
Qed.

Lemma merge_left_col_names :
  col_names (merge_left left lkeys right) = col_names left ++ col_names (frame right).
Proof.
  unfold col_names. rewrite merge_left_columns, fmap_app, <-list_fmap_compose. done.
Qed.

End join_columns.

(** ** A visit day without activity *)



Lemma matches_nil k rindex :
  Forall (λ c, cell_eqb k c = false) rindex → matches k rindex = [].
Proof.
  intros Hall. unfold matches. rewrite filter_none; [done|].
  apply list.Forall_forall. intros [j c] Hin. simpl.
  apply elem_of_zip_r in Hin.
  rewrite (proj1 (list.Forall_forall _ _) Hall c Hin). done.
Qed.


Section one_joined_source.
Context (aggregate : DataFrame → option Indexed) (names : list string).
Context (Hnames : ∀ src a, aggregate src = Some a → col_names (frame a) = names).
Context (Hindex : ∀ src a, aggregate src = Some a →
  ∃ date, get_col "date" src = Some date
          ∧ index a = day_index (group_days (values date))).




End one_joined_source.








(** ** Zero-fill after the joins *)




Lemma names_apart (l k : list string) :
  bool_decide (Forall (λ n, n ∉ k) l) = true → Forall (λ n, n ∉ k) l.
Proof. apply bool_decide_eq_true. Qed.

Lemma disjoint_names_app df l k :
  disjoint_names df (l ++ k) → disjoint_names df l ∧ disjoint_names df k.
Proof.
  unfold disjoint_names. intros Hd.
  split; (eapply Forall_impl; [exact Hd|]); intros n Hn Hin; apply Hn, elem_of_app; tauto.
Qed.


Lemma wf_visits_sample : wf_frame visits_sample.
Proof. unfold wf_frame, visits_sample. simpl. repeat constructor. Qed.




(** In [merge_datasets] the columns [tweet_count], [likes] and [retweets]
    of the microblog aggregate bear none of the four words and stay
    missing where there is no tweet. *)
Lemma merge_datasets_leaves_tweet_count :
  ∃ out,
    merge_datasets visits_sample None None (Some tweets_sample) = Some out
    ∧ get_col "tweet_count" out = Some (mkSeries number [NA; Num 1])
    ∧ get_col "twitter_sentiment" out = Some (mkSeries number [Num 0; Num (1 # 2)]).
Proof. eexists. split_and!; [vm_compute; reflexivity|reflexivity..]. Qed.




(** ** Well-formed frames under the cleaning steps *)

Lemma wf_set_col name s df :
  wf_frame df → length (values s) = nrows df → wf_frame (set_col name s df).
Proof.
  unfold wf_frame, set_col. simpl. intros Hwf Hlen.
  induction Hwf as [|[n s'] l Hs' Hl IH]; simpl.
  - by repeat constructor.
  - destruct (decide (n = name)); constructor; done.
Qed.

Lemma wf_assign_from name col f df :
  wf_frame df → (∀ s, length (values (f s)) = length (values s)) →
  wf_frame (assign_from name col f df).
Proof.
  intros Hwf Hf. unfold assign_from.
  destruct (get_col col df) as [s|] eqn:Hs; [|done].
  apply wf_set_col; [done|]. rewrite Hf. by eapply wf_get_col.
Qed.

Lemma get_col_take_rows name idx df :
  get_col name (take_rows idx df) = take_series (Some <$> idx) <$> get_col name df.
Proof. unfold get_col, take_rows. simpl. apply assoc_prod_map. Qed.

Lemma get_col_filter_rows name mask df :
  get_col name (filter_rows mask df)
  = take_series (Some <$> mask_positions 0 mask) <$> get_col name df.
Proof. apply get_col_take_rows. Qed.

Lemma wf_filter_rows mask df : wf_frame (filter_rows mask df).
Proof. apply wf_take_rows. Qed.

Lemma take_cells_valid (P : cell → Prop) idx l :
  Forall (λ i, i < length l) idx → Forall P l →
  Forall P (take_cells (Some <$> idx) l).
Proof.
  intros Hidx HP. unfold take_cells. rewrite <-list_fmap_compose.
  apply Forall_fmap. eapply Forall_impl; [exact Hidx|].
  intros i Hi. simpl. destruct (lookup_lt_is_Some_2 l i Hi) as [c Hc].
  rewrite Hc. simpl. by eapply (proj1 (list.Forall_forall _ _) HP), list_elem_of_lookup_2.
Qed.

Lemma mask_positions_bound start mask :
  Forall (λ i, i < start + length mask) (mask_positions start mask).
Proof.
  revert start. induction mask as [|b mask IH]; intros start; simpl; [constructor|].
  apply Forall_app. split.
  - destruct b; repeat constructor. lia.
  - eapply Forall_impl; [apply IH|]. simpl. lia.
Qed.

(** A mask computed from a column keeps, of this column, the cells it
    accepts. *)
Lemma take_cells_mask (f : cell → bool) pre l :
  take_cells (Some <$> mask_positions (length pre) (f <$> l)) (pre ++ l)
  = filter (λ c, f c = true) l.
Proof.
  revert pre. induction l as [|c l IH]; intros pre; simpl; [done|].
  specialize (IH (pre ++ [c])). rewrite length_app, <-app_assoc in IH. simpl in IH.
  replace (length pre + 1) with (S (length pre)) in IH by lia.
  destruct (f c) eqn:Hc; simpl.
  - rewrite filter_cons_True by done. unfold take_cells in *. simpl.
    rewrite lookup_app_r, Nat.sub_diag by lia. simpl. by rewrite <-IH.
  - rewrite filter_cons_False by (by rewrite Hc). done.
Qed.

Lemma length_first_occurrence seen rows :
  length (first_occurrence seen rows) = length rows.
Proof.
  revert seen. induction rows as [|r rows IH]; intros seen; simpl; [done|].
  by rewrite IH.
Qed.

Lemma length_rows_of cols n : length (rows_of cols n) = n.
Proof. unfold rows_of. by rewrite length_fmap, length_seq. Qed.

Lemma insert_by_key_perm x l : insert_by_key x l ≡ₚ x :: l.
Proof.
  induction l as [|y l IH]; simpl; [done|].
  destruct (ts_leb x.2 y.2); [done|]. rewrite IH. apply Permutation_swap.
Qed.

Lemma argsort_perm keys : argsort keys ≡ₚ seq 0 (length keys).
Proof.
  unfold argsort.
  assert (∀ l : list (nat * cell), foldr insert_by_key [] l ≡ₚ l) as Hperm.
  { induction l as [|x l IH]; simpl; [done|]. by rewrite insert_by_key_perm, IH. }
  rewrite Hperm. rewrite fst_zip; [done|]. by rewrite length_seq.
Qed.


Lemma argsort_bound keys : Forall (λ i, i < length keys) (argsort keys).
Proof.
  rewrite argsort_perm. apply list.Forall_forall. intros i Hi.
  apply elem_of_seq in Hi. lia.
Qed.

(** ** A column under row selections *)

Lemma selects_refl name d : selects name d d.
Proof.
  intros s Hs. exists s. split; [done|]. apply list.Forall_forall. auto.
Qed.

Lemma selects_trans name d1 d2 d3 :
  selects name d1 d2 → selects name d2 d3 → selects name d1 d3.
Proof.
  intros H12 H23 s3 Hs3. destruct (H23 s3 Hs3) as (s2 & Hs2 & H2).
  destruct (H12 s2 Hs2) as (s1 & Hs1 & H1). exists s1. split; [done|].
  apply list.Forall_forall. intros c Hc.
  destruct (proj1 (list.Forall_forall _ _) H2 c Hc) as [->|Hc2]; [by left|].
  exact (proj1 (list.Forall_forall _ _) H1 c Hc2).
Qed.

Lemma selects_take_rows name idx d : selects name d (take_rows idx d).
Proof.
  intros s'. rewrite get_col_take_rows.
  destruct (get_col name d) as [s|]; [|done]. intros [= <-]. exists s. split; [done|].
  simpl. unfold take_cells. rewrite <-list_fmap_compose. apply Forall_fmap, Forall_true.
  intros i. simpl. destruct (values s !! i) as [c|] eqn:Hc; simpl; [|by left].
  right. by eapply list_elem_of_lookup_2.
Qed.

Lemma selects_set_col name name' s d :
  name' ≠ name → selects name d (set_col name' s d).
Proof.
  intros Hne s'. rewrite get_col_set_col_ne by done. apply selects_refl.
Qed.

Lemma selects_assign_from name name' col f d :
  name' ≠ name → selects name d (assign_from name' col f d).
Proof.
  intros Hne s'. rewrite assign_from_ne by done. apply selects_refl.
Qed.

Lemma selects_drop_blank name col d : selects name d (drop_blank col d).
Proof.
  unfold drop_blank. destruct (get_col col d); [apply selects_take_rows|apply selects_refl].
Qed.

Lemma selects_dedup_scraped name d : selects name d (dedup_scraped d).
Proof.
  unfold dedup_scraped. destruct (duplicate_cols d) as [|c cols]; [apply selects_refl|].
  unfold drop_duplicates_subset. destruct (select_cols (c :: cols) d); simpl.
  - apply selects_take_rows.
  - apply selects_refl.
Qed.

Lemma selects_sort_values name col d : selects name d (sort_values col d).
Proof.
  unfold sort_values. destruct (get_col col d); [apply selects_take_rows|apply selects_refl].
Qed.

Lemma selects_filter_sentiment name d : selects name d (filter_sentiment d).
Proof.
  unfold filter_sentiment.
  destruct (get_col "sentiment_polarity" d); [apply selects_take_rows|apply selects_refl].
Qed.

Lemma selects_date_parts name d :
  name ∉ ["day_of_week"; "month"; "year"] → selects name d (date_parts d).
Proof.
  intros Hname. unfold date_parts. destruct (has_col "date" d); [|apply selects_refl].
  rewrite !not_elem_of_cons in Hname. destruct Hname as (? & ? & ? & _).
  eapply selects_trans; [|by apply selects_assign_from].
  eapply selects_trans; [|by apply selects_assign_from].
  by apply selects_assign_from.
Qed.

(** ** Sentiment scores *)

Lemma in_unit_range_score c : in_unit_range c = true → unit_score c.
Proof.
  destruct c as [q| | |]; simpl; try done.
  intros [H1 H2]%andb_true_iff. exists q. split; [done|].
  split; by apply Qle_bool_iff.
Qed.

Lemma scores_in_range_filter d s :
  get_col "sentiment_polarity" d = Some s → scores_in_range (filter_sentiment d).
Proof.
  intros Hs. unfold filter_sentiment. rewrite Hs. split; [apply wf_filter_rows|].
  intros s'. rewrite get_col_filter_rows, Hs. intros [= <-]. simpl.
  rewrite (take_cells_mask in_unit_range []).
  apply list.Forall_forall. intros c [Hc _]%list_elem_of_filter.
  by apply in_unit_range_score.
Qed.

Lemma scores_in_range_take_rows idx d :
  Forall (λ i, i < nrows d) idx → scores_in_range d → scores_in_range (take_rows idx d).
Proof.
  intros Hidx [Hwf Hrange]. split; [apply wf_take_rows|].
  intros s'. rewrite get_col_take_rows.
  destruct (get_col "sentiment_polarity" d) as [s|] eqn:Hs; [|done].
  intros [= <-]. simpl. apply take_cells_valid; [|by apply Hrange].
  by rewrite (wf_get_col _ _ _ Hwf Hs).
Qed.

Lemma scores_in_range_assign name col f d :
  name ≠ "sentiment_polarity" → (∀ s, length (values (f s)) = length (values s)) →
  scores_in_range d → scores_in_range (assign_from name col f d).
Proof.
  intros Hne Hf [Hwf Hrange]. split; [by apply wf_assign_from|].
  intros s. rewrite assign_from_ne by done. apply Hrange.
Qed.

Lemma length_dt_field f s : length (values (dt_field f s)) = length (values s).
Proof. unfold dt_field. simpl. by rewrite length_fmap. Qed.

Lemma scores_in_range_dedup d : scores_in_range d → scores_in_range (dedup_scraped d).
Proof.
  intros Hd. unfold dedup_scraped. destruct (duplicate_cols d) as [|c cols]; [done|].
  unfold drop_duplicates_subset. destruct (select_cols (c :: cols) d) as [ks|]; [|done].
  simpl. apply scores_in_range_take_rows; [|done].
  eapply Forall_impl; [apply mask_positions_bound|].
  intros i. simpl. by rewrite length_first_occurrence, length_rows_of.
Qed.

Lemma scores_in_range_date_parts d : scores_in_range d → scores_in_range (date_parts d).
Proof.
  intros Hd. unfold date_parts. destruct (has_col "date" d); [|done].
  repeat (apply scores_in_range_assign; [discriminate|apply length_dt_field|]). done.
Qed.

Lemma scores_in_range_sort d : scores_in_range d → scores_in_range (sort_values "date" d).
Proof.
  intros Hd. unfold sort_values. destruct (get_col "date" d) as [s|] eqn:Hs; [|done].
  apply scores_in_range_take_rows; [|done].
  rewrite <-(wf_get_col _ _ _ (proj1 Hd) Hs). apply argsort_bound.
Qed.

Lemma selects_finish name d :
  name ∉ ["day_of_week"; "month"; "year"] → selects name d (scraped_finish d).
Proof.
  intros Hname. unfold scraped_finish.
  assert (selects name d (date_parts (dedup_scraped d))) as Hsel.
  { eapply selects_trans; [apply selects_dedup_scraped|by apply selects_date_parts]. }
  destruct (has_col "date" (date_parts (dedup_scraped d))); [|done].
  eapply selects_trans; [exact Hsel|apply selects_sort_values].
Qed.

Lemma scores_in_range_finish d : scores_in_range d → scores_in_range (scraped_finish d).
Proof.
  intros Hd. apply scores_in_range_dedup, scores_in_range_date_parts in Hd.
  unfold scraped_finish. destruct (has_col "date" (date_parts (dedup_scraped d))); [|done].
  by apply scores_in_range_sort.
Qed.

Section scraped.
Context `{Externals}.

Lemma selects_parse_dates name d : name ≠ "date" → selects name d (parse_dates d).
Proof.
  intros Hname. unfold parse_dates. destruct (get_col "date" d); [|apply selects_refl].
  eapply selects_trans; [|apply selects_take_rows]. by apply selects_set_col.
Qed.

Lemma selects_normalise_text name d col :
  name ≠ col → name ≠ col +:+ "_lower" → selects name d (normalise_text d col).
Proof.
  intros Hc Hl. unfold normalise_text. destruct (has_col col d); [|apply selects_refl].
  eapply selects_trans; [|by apply selects_assign_from].
  by apply selects_assign_from.
Qed.

Lemma selects_scraped_filtered name d :
  name ∉ ["date"; "text"; "text_lower"; "title"; "title_lower"; "content";
          "content_lower"; "clean_text"; "clean_text_lower"] →
  selects name d (scraped_filtered d).
Proof.
  intros Hname. rewrite !not_elem_of_cons in Hname.
  destruct Hname as (? & ? & ? & ? & ? & ? & ? & ? & ? & _).
  unfold scraped_filtered.
  eapply selects_trans; [|apply selects_filter_sentiment].
  unfold text_cols. simpl.
  eapply selects_trans; [|by apply selects_normalise_text].
  eapply selects_trans; [|by apply selects_normalise_text].
  eapply selects_trans; [|by apply selects_normalise_text].
  eapply selects_trans; [|by apply selects_normalise_text].
  eapply selects_trans; [|by apply selects_parse_dates].
  eapply selects_trans; [|apply selects_drop_blank].
  apply selects_drop_blank.
Qed.

Lemma clean_scraped_data_finish df source :
  clean_scraped_data df source = scraped_finish (scraped_filtered df).
Proof. reflexivity. Qed.
End scraped.

Section sentiment.
Context `{Externals}.

(** C7, as the code has it.  Every sentiment score of the cleaned table
    lies between -1 and 1, and it is a score of the input as it stood: no
    score is changed.  A record whose score is outside the interval, or
    missing, is not in the output. *)
Theorem sentiment_scores_within_unit_range (df : DataFrame) (source : string)
    (s : Series) :
  get_col "sentiment_polarity" (clean_scraped_data df source) = Some s →
  Forall unit_score (values s)
  ∧ ∃ s0, get_col "sentiment_polarity" df = Some s0
          ∧ Forall (λ c, c ∈ values s0) (values s).
Proof.
  intros Hs.
  assert ("sentiment_polarity" ∉ ["day_of_week"; "month"; "year"]) as Hn1.
  { rewrite !not_elem_of_cons. split_and!; try discriminate. apply not_elem_of_nil. }
  assert ("sentiment_polarity" ∉
          ["date"; "text"; "text_lower"; "title"; "title_lower"; "content";
           "content_lower"; "clean_text"; "clean_text_lower"]) as Hn2.
  { rewrite !not_elem_of_cons. split_and!; try discriminate. apply not_elem_of_nil. }
  pose proof (selects_scraped_filtered "sentiment_polarity" df Hn2) as Hpre.
  rewrite clean_scraped_data_finish in Hs.
  assert (∃ s5, get_col "sentiment_polarity"
                  (foldl normalise_text
                     (parse_dates (drop_blank "content" (drop_blank "text" df)))
                     text_cols) = Some s5) as [s5 Hs5].
  { destruct (selects_finish "sentiment_polarity" (scraped_filtered df) Hn1 s Hs)
      as (s6 & Hs6 & _).
    destruct (selects_filter_sentiment "sentiment_polarity" _ s6 Hs6) as (s5 & Hs5 & _).
    by exists s5. }
  pose proof (scores_in_range_filter _ _ Hs5) as H6.
  change (scores_in_range (scraped_filtered df)) in H6.
  pose proof (selects_finish "sentiment_polarity" (scraped_filtered df) Hn1) as Hpost.
  revert Hs H6 Hpre Hpost. generalize (scraped_filtered df). intros d0 Hs H6 Hpre Hpost.
  apply scores_in_range_finish in H6.
  split; [by apply H6|].
  destruct (selects_trans _ _ _ _ Hpre Hpost s Hs) as (s0 & Hs0 & Hsel).
  exists s0. split; [done|].
  apply list.Forall_forall. intros c Hc.
  destruct (proj1 (list.Forall_forall _ _) Hsel c Hc) as [->|?]; [|done].
  apply (proj1 (list.Forall_forall _ _) (proj2 H6 s Hs)) in Hc as (q & Hq & _).
  discriminate.
Qed.
End sentiment.

(** C7 as stated fails: the record with score 3/2 is dropped, its score
    is not brought down to 1. *)
Lemma clean_scraped_data_drops_out_of_range :
  nrows scores_sample = 2
  ∧ nrows (clean_scraped_data (H := sample_externals) scores_sample "reddit") = 1
  ∧ get_col "sentiment_polarity"
      (clean_scraped_data (H := sample_externals) scores_sample "reddit")
    = Some (series_of [1 # 2]%Q).
Proof. split_and!; vm_compute; reflexivity. Qed.

(** The score that remains in the sample. *)
Lemma sentiment_scores_sample :
  Forall unit_score [Num (1 # 2)].
Proof.
  exact (proj1 (sentiment_scores_within_unit_range (H := sample_externals)
                  scores_sample "reddit" (series_of [1 # 2]%Q) eq_refl)).
Defined.

(** ** Duplicates of scraped records *)










Section duplicates.
Context `{Externals}.



End duplicates.




(** ** Loops over the columns of a frame *)

Lemma assoc_set_same name s l : assoc name l = Some s → assoc_set name s l = l.
Proof.
  induction l as [|[n s'] l IH]; simpl; [done|].
  destruct (decide (n = name)) as [->|].
  - by intros [= ->].
  - intros Hs. by rewrite IH.
Qed.

Lemma set_col_same name s df : get_col name df = Some s → set_col name s df = df.
Proof.
  intros Hs. destruct df as [n cols]. unfold set_col. simpl. f_equal.
  by apply assoc_set_same.
Qed.

Lemma assoc_set_names name s l :
  (assoc_set name s l).*1 = if decide (name ∈ l.*1) then l.*1 else l.*1 ++ [name].
Proof.
  induction l as [|[n s'] l IH].
  - simpl. destruct (decide (name ∈ [])) as [Hin|]; [|done]. by apply elem_of_nil in Hin.
  - rewrite fmap_cons. simpl assoc_set. simpl fst.
    destruct (decide (n = name)) as [->|Hne].
    + rewrite fmap_cons. simpl fst.
      destruct (decide (name ∈ name :: l.*1)) as [|Hnin]; [done|].
      destruct Hnin. by left.
    + rewrite fmap_cons, IH. simpl fst.
      destruct (decide (name ∈ l.*1)) as [Hin|Hnin];
        destruct (decide (name ∈ n :: l.*1)) as [Hin'|Hnin']; try done.
      * destruct Hnin'. by right.
      * apply elem_of_cons in Hin' as [->|?]; done.
Qed.

Lemma NoDup_set_col name s df : NoDup (col_names df) → NoDup (col_names (set_col name s df)).
Proof.
  unfold col_names, set_col. simpl. rewrite assoc_set_names.
  destruct (decide (name ∈ (columns df).*1)); [done|].
  intros Hnd. apply NoDup_app. split_and!; [done| |apply NoDup_singleton].
  intros x Hx ->%list_elem_of_singleton. done.
Qed.

Lemma NoDup_assign_from name col f df :
  NoDup (col_names df) → NoDup (col_names (assign_from name col f df)).
Proof.
  intros Hnd. unfold assign_from. destruct (get_col col df); [|done].
  by apply NoDup_set_col.
Qed.

Lemma col_names_take_rows idx df : col_names (take_rows idx df) = col_names df.
Proof. unfold col_names, take_rows. simpl. by rewrite <-list_fmap_compose. Qed.

(** What a loop [for col in names: df[col] = g(df[col])] leaves in each
    column, when no name is listed twice. *)
Lemma foldl_columns (g : string → Series → Series) names df name :
  NoDup names →
  get_col name (foldl (λ d col, assign_from col col (g col) d) df names)
  = if decide (name ∈ names) then g name <$> get_col name df else get_col name df.
Proof.
  intros Hnd. revert df. induction Hnd as [|col names Hcol Hnd IH]; intros df.
  - destruct (decide (name ∈ [])) as [Hin|]; [|done]. by apply elem_of_nil in Hin.
  - simpl foldl. rewrite IH. destruct (decide (name = col)) as [->|Hne].
    + destruct (decide (col ∈ names)) as [|_]; [done|].
      destruct (decide (col ∈ col :: names)) as [_|Hnin]; [|destruct Hnin; by left].
      unfold assign_from. destruct (get_col col df) as [s|] eqn:Hs.
      * by rewrite get_col_set_col_eq.
      * by rewrite Hs.
    + rewrite assign_from_ne by done.
      destruct (decide (name ∈ names)) as [Hin|Hnin];
        destruct (decide (name ∈ col :: names)) as [Hin'|Hnin']; try done.
      * destruct Hnin'. by right.
      * apply elem_of_cons in Hin' as [->|?]; done.
Qed.

Lemma NoDup_fst_filter (P : string * Series → Prop) `{∀ x, Decision (P x)}
    (l : list (string * Series)) :
  NoDup l.*1 → NoDup (filter P l).*1.
Proof.
  induction l as [|[n s] l IH]; simpl; [done|].
  intros [Hn Hl]%NoDup_cons. destruct (decide (P (n, s))).
  - rewrite filter_cons_True by done. simpl. apply NoDup_cons. split; [|by apply IH].
    intros ([n' s'] & Heq & Hin)%list_elem_of_fmap. simpl in Heq. subst n'.
    apply list_elem_of_filter in Hin as [_ Hin]. apply Hn.
    apply list_elem_of_fmap. by exists (n, s').
  - rewrite filter_cons_False by done. by apply IH.
Qed.

Lemma NoDup_select_dtypes kinds df :
  NoDup (col_names df) → NoDup (select_dtypes kinds df).
Proof. apply NoDup_fst_filter. Qed.

Lemma assoc_NoDup_elem name s l : NoDup l.*1 → (name, s) ∈ l → assoc name l = Some s.
Proof.
  induction l as [|[n s'] l IH]; simpl.
  - intros _ Hin. by apply elem_of_nil in Hin.
  - intros [Hn Hl]%NoDup_cons [Heq|Hin]%elem_of_cons.
    + injection Heq as -> ->. by rewrite decide_True.
    + rewrite decide_False; [by apply IH|].
      intros ->. apply Hn. apply list_elem_of_fmap. by exists (name, s).
Qed.

Lemma elem_of_select_dtypes kinds df name :
  NoDup (col_names df) →
  name ∈ select_dtypes kinds df
  ↔ ∃ s, get_col name df = Some s ∧ sdtype s ∈ kinds.
Proof.
  intros Hnd. unfold select_dtypes. split.
  - intros ([n s] & -> & Hin)%list_elem_of_fmap.
    apply list_elem_of_filter in Hin as [Hk Hin]. exists s. split; [|done].
    by apply assoc_NoDup_elem.
  - intros (s & Hs & Hk). apply list_elem_of_fmap. exists (name, s). split; [done|].
    apply list_elem_of_filter. split; [done|]. by apply assoc_Some_elem.
Qed.

(** ** The clipping step *)

Lemma clip_column_assign d col :
  clip_column d col = assign_from col col clip_series d.
Proof.
  unfold clip_column, assign_from, clip_series.
  destruct (get_col col d) as [s|] eqn:Hs; [|done].
  destruct (std_positive (values s)); [done|]. symmetry. by apply set_col_same.
Qed.

(** Column by column: a numeric column of positive standard deviation
    is clipped at its 99th percentile, every other column is as it was. *)
Lemma get_col_clip_outliers d name :
  NoDup (col_names d) →
  get_col name (clip_outliers d)
  = (λ s, if decide (sdtype s = number) then clip_series s else s) <$> get_col name d.
Proof.
  intros Hnd. unfold clip_outliers.
  rewrite (foldl_ext_eq _ (λ d col, assign_from col col ((λ _, clip_series) col) d))
    by apply clip_column_assign.
  rewrite foldl_columns by by apply NoDup_select_dtypes.
  destruct (decide (name ∈ select_dtypes [number] d)) as [Hin|Hnin].
  - apply elem_of_select_dtypes in Hin as (s & Hs & Hk); [|done].
    apply list_elem_of_singleton in Hk. rewrite Hs. simpl. by rewrite decide_True.
  - destruct (get_col name d) as [s|] eqn:Hs; [|done]. simpl.
    destruct (decide (sdtype s = number)) as [Hnum|]; [|done].
    destruct Hnin. apply elem_of_select_dtypes; [done|]. exists s. split; [done|].
    rewrite Hnum. by left.
Qed.

(** ** The derived columns *)

Lemma derive_ne name name' col f d :
  name' ≠ name → get_col name (derive name' col f d) = get_col name d.
Proof.
  intros Hne. unfold derive. destruct (has_col col d); [|done].
  by apply assign_from_ne.
Qed.

Lemma derive_eq name col f d s :
  get_col col d = Some s → get_col name (derive name col f d) = Some (f s).
Proof.
  intros Hs. unfold derive.
  rewrite (proj2 (has_col_true col d)) by (by rewrite Hs).
  by apply assign_from_eq.
Qed.

Lemma NoDup_derive name col f d :
  NoDup (col_names d) → NoDup (col_names (derive name col f d)).
Proof.
  intros Hnd. unfold derive. destruct (has_col col d); [|done].
  by apply NoDup_assign_from.
Qed.

Lemma derive_calendar_other name d :
  name ∉ ["day_of_week"; "is_weekend"; "month"] →
  get_col name (derive_calendar d) = get_col name d.
Proof.
  rewrite !not_elem_of_cons. intros (? & ? & ? & _).
  unfold derive_calendar. destruct (has_col "visit_date" d); [|done].
  by rewrite 3!assign_from_ne by done.
Qed.

Lemma derive_calendar_columns d s :
  get_col "visit_date" d = Some s →
  get_col "day_of_week" (derive_calendar d) = Some (dt_dayofweek s)
  ∧ get_col "is_weekend" (derive_calendar d) = Some (ge_int 5 (dt_dayofweek s))
  ∧ get_col "month" (derive_calendar d) = Some (dt_month s).
Proof.
  intros Hs. unfold derive_calendar.
  rewrite (proj2 (has_col_true "visit_date" d)) by (by rewrite Hs).
  assert (get_col "day_of_week" (assign_from "day_of_week" "visit_date" dt_dayofweek d)
          = Some (dt_dayofweek s)) as Hdow by by apply assign_from_eq.
  split_and!.
  - rewrite 2!assign_from_ne by done. exact Hdow.
  - rewrite assign_from_ne by done. by apply assign_from_eq.
  - apply assign_from_eq. by rewrite 2!assign_from_ne by done.
Qed.

Lemma NoDup_derive_calendar d :
  NoDup (col_names d) → NoDup (col_names (derive_calendar d)).
Proof.
  intros Hnd. unfold derive_calendar. destruct (has_col "visit_date" d); [|done].
  by repeat apply NoDup_assign_from.
Qed.

Section derived.
Context `{Externals}.

Lemma derive_arrival_other name d :
  name ∉ ["arrival_hour"; "time_of_day"] →
  get_col name (derive_arrival d) = get_col name d.
Proof.
  rewrite !not_elem_of_cons. intros (? & ? & _).
  unfold derive_arrival. destruct (has_col "ARRTIME" d); [|done].
  by rewrite 2!assign_from_ne by done.
Qed.

Lemma derive_arrival_hour d s :
  get_col "ARRTIME" d = Some s →
  get_col "arrival_hour" (derive_arrival d) = Some (floordiv 100 (to_numeric s)).
Proof.
  intros Hs. unfold derive_arrival.
  rewrite (proj2 (has_col_true "ARRTIME" d)) by (by rewrite Hs).
  rewrite assign_from_ne by done.
  exact (assign_from_eq _ _ (λ s, floordiv 100 (to_numeric s)) _ _ Hs).
Qed.

Lemma NoDup_derive_arrival d :
  NoDup (col_names d) → NoDup (col_names (derive_arrival d)).
Proof.
  intros Hnd. unfold derive_arrival. destruct (has_col "ARRTIME" d); [|done].
  by repeat apply NoDup_assign_from.
Qed.

Lemma derive_diag_other name d :
  contains "DIAG" name = false → get_col name (derive_diag d) = get_col name d.
Proof.
  intros Hname. unfold derive_diag.
  assert (Forall (λ col, col ≠ name)
            (filter (λ col, contains "DIAG" col = true) (col_names d))) as Hall.
  { apply list.Forall_forall. intros col [Hcol _]%list_elem_of_filter ->. congruence. }
  revert Hall. generalize (filter (λ col, contains "DIAG" col = true) (col_names d)).
  intros names Hall. revert d. induction Hall as [|col names Hcol Hall IH]; intros d; [done|].
  simpl. rewrite IH. by apply assign_from_ne.
Qed.

Lemma NoDup_derive_diag d : NoDup (col_names d) → NoDup (col_names (derive_diag d)).
Proof.
  unfold derive_diag. generalize (filter (λ col, contains "DIAG" col = true) (col_names d)).
  intros names. revert d. induction names as [|col names IH]; intros d Hnd; [done|].
  simpl. by apply IH, NoDup_assign_from.
Qed.

Lemma NoDup_derive_columns d :
  NoDup (col_names d) → NoDup (col_names (derive_columns d)).
Proof.
  intros Hnd. unfold derive_columns.
  by apply NoDup_derive_calendar, NoDup_derive_diag, NoDup_derive, NoDup_derive,
    NoDup_derive_arrival, NoDup_derive, NoDup_derive.
Qed.

(** A column that no derivation writes comes through unchanged. *)
Lemma derive_columns_other name d :
  name ∉ ["visit_date"; "age_group"; "arrival_hour"; "time_of_day"; "high_acuity";
          "has_insurance"; "day_of_week"; "is_weekend"; "month"] →
  contains "DIAG" name = false →
  get_col name (derive_columns d) = get_col name d.
Proof.
  rewrite !not_elem_of_cons. intros (? & ? & ? & ? & ? & ? & ? & ? & ? & _) Hdiag.
  unfold derive_columns.
  rewrite derive_calendar_other
    by (rewrite !not_elem_of_cons; split_and!; try done; apply not_elem_of_nil).
  rewrite derive_diag_other by done.
  rewrite !derive_ne by done.
  rewrite derive_arrival_other
    by (rewrite !not_elem_of_cons; split_and!; try done; apply not_elem_of_nil).
  by rewrite !derive_ne.
Qed.

Lemma derive_columns_arrival_hour d s :
  get_col "ARRTIME" d = Some s →
  get_col "arrival_hour" (derive_columns d) = Some (floordiv 100 (to_numeric s)).
Proof.
  intros Hs. unfold derive_columns.
  rewrite derive_calendar_other
    by (rewrite !not_elem_of_cons; split_and!; try done; apply not_elem_of_nil).
  rewrite derive_diag_other by done.
  rewrite !derive_ne by done.
  apply derive_arrival_hour. by rewrite !derive_ne.
Qed.

Lemma derive_columns_high_acuity d s :
  get_col "IMMEDR" d = Some s →
  get_col "high_acuity" (derive_columns d) = Some (isin_int [1; 2]%Q s).
Proof.
  intros Hs. unfold derive_columns.
  rewrite derive_calendar_other
    by (rewrite !not_elem_of_cons; split_and!; try done; apply not_elem_of_nil).
  rewrite derive_diag_other by done.
  rewrite derive_ne by done.
  apply derive_eq.
  rewrite derive_arrival_other
    by (rewrite !not_elem_of_cons; split_and!; try done; apply not_elem_of_nil).
  by rewrite !derive_ne.
Qed.

Lemma derive_columns_has_insurance d s :
  get_col "PAYTYPER" d = Some s →
  get_col "has_insurance" (derive_columns d) = Some (not_isin_int [5; 6]%Q s).
Proof.
  intros Hs. unfold derive_columns.
  rewrite derive_calendar_other
    by (rewrite !not_elem_of_cons; split_and!; try done; apply not_elem_of_nil).
  rewrite derive_diag_other by done.
  apply derive_eq.
  rewrite derive_ne by done.
  rewrite derive_arrival_other
    by (rewrite !not_elem_of_cons; split_and!; try done; apply not_elem_of_nil).
  by rewrite !derive_ne.
Qed.

Lemma derive_columns_calendar d s :
  get_col "VDATE" d = Some s →
  get_col "day_of_week" (derive_columns d) = Some (dt_dayofweek (to_datetime s))
  ∧ get_col "is_weekend" (derive_columns d)
    = Some (ge_int 5 (dt_dayofweek (to_datetime s)))
  ∧ get_col "month" (derive_columns d) = Some (dt_month (to_datetime s)).
Proof.
  intros Hs. unfold derive_columns. apply derive_calendar_columns.
  rewrite derive_diag_other by done.
  rewrite !derive_ne by done.
  rewrite derive_arrival_other
    by (rewrite !not_elem_of_cons; split_and!; try done; apply not_elem_of_nil).
  rewrite derive_ne by done. by apply derive_eq.
Qed.
End derived.

(** ** Imputation keeps the columns apart *)

Lemma NoDup_impute_numeric d col :
  NoDup (col_names d) → NoDup (col_names (impute_numeric d col)).
Proof.
  intros Hnd. unfold impute_numeric. destruct (get_col col d) as [s|]; [|done].
  destruct (existsb isnull (values s)); [|done]. by apply NoDup_set_col.
Qed.

Lemma NoDup_impute_categorical d col d' :
  NoDup (col_names d) → impute_categorical d col = Some d' → NoDup (col_names d').
Proof.
  intros Hnd. unfold impute_categorical. destruct (get_col col d) as [s|]; [|by intros [= <-]].
  destruct (existsb isnull (values s)); [|by intros [= <-]].
  destruct (mode (values s)) as [m|].
  - intros [= <-]. by apply NoDup_set_col.
  - destruct (decide (sdtype s = category)); [done|]. intros [= <-]. by apply NoDup_set_col.
Qed.

Lemma NoDup_handle_missing df d0 :
  NoDup (col_names df) → _handle_missing_values df = Some d0 → NoDup (col_names d0).
Proof.
  intros Hnd. unfold _handle_missing_values.
  assert (NoDup (col_names (foldl impute_numeric df (select_dtypes [number] df)))) as Hnum.
  { generalize (select_dtypes [number] df). intros names. revert df Hnd.
    induction names as [|col names IH]; intros df Hnd; [done|].
    simpl. by apply IH, NoDup_impute_numeric. }
  revert Hnum. generalize (foldl impute_numeric df (select_dtypes [number] df)).
  intros d1 Hd1.
  generalize (select_dtypes [object; category] d1). intros names. revert d1 Hd1.
  induction names as [|col names IH]; intros d1 Hd1; simpl.
  - by intros [= <-].
  - intros (d2 & Hd2 & Hrest)%bind_Some. eapply IH; [|exact Hrest].
    by eapply NoDup_impute_categorical.
Qed.

Section clip_last.
Context `{Externals}.

(** C10.  The clipping is the last step of [clean_nhamcs_data]: it works
    on the table as imputation, deduplication and the derivations left
    it.  Every numeric column of that table whose standard deviation is
    positive is clipped at its own 99th percentile, the derived
    [arrival_hour], [high_acuity], [has_insurance], [day_of_week],
    [is_weekend] and [month] like the columns of the input, with the
    imputed values in them; a column that is not numeric, or whose
    standard deviation is not positive, is returned as it was. *)
Theorem clip_runs_last (df d0 : DataFrame) :
  NoDup (col_names df) → _handle_missing_values df = Some d0 →
  let pre := drop_duplicates d0 in
  let mid := derive_columns pre in
  ∃ out,
    clean_nhamcs_data df = Some out
    ∧ (∀ name,
         get_col name out
         = (λ s, if decide (sdtype s = number) then clip_series s else s)
             <$> get_col name mid)
    ∧ (∀ s, get_col "ARRTIME" pre = Some s →
         get_col "arrival_hour" out
         = Some (clip_series (floordiv 100 (to_numeric s))))
    ∧ (∀ s, get_col "IMMEDR" pre = Some s →
         get_col "high_acuity" out = Some (clip_series (isin_int [1; 2]%Q s)))
    ∧ (∀ s, get_col "PAYTYPER" pre = Some s →
         get_col "has_insurance" out = Some (clip_series (not_isin_int [5; 6]%Q s)))
    ∧ (∀ s, get_col "VDATE" pre = Some s →
         get_col "day_of_week" out = Some (clip_series (dt_dayofweek (to_datetime s)))
         ∧ get_col "is_weekend" out
           = Some (clip_series (ge_int 5 (dt_dayofweek (to_datetime s))))
         ∧ get_col "month" out = Some (clip_series (dt_month (to_datetime s))))
    ∧ (∀ name s,
         name ∉ ["visit_date"; "age_group"; "arrival_hour"; "time_of_day";
                 "high_acuity"; "has_insurance"; "day_of_week"; "is_weekend"; "month"] →
         contains "DIAG" name = false →
         get_col name pre = Some s → sdtype s = number →
         get_col name out = Some (clip_series s)).
Proof.
  intros Hnd Hd0 pre mid. exists (clip_outliers mid).
  assert (NoDup (col_names mid)) as Hmid.
  { apply NoDup_derive_columns. unfold pre, drop_duplicates, filter_rows.
    rewrite col_names_take_rows. by eapply NoDup_handle_missing. }
  pose proof (λ name, get_col_clip_outliers mid name Hmid) as Hclip.
  unfold mid in *. clear mid.
  split_and!.
  - unfold clean_nhamcs_data. by rewrite Hd0.
  - done.
  - intros s Hs. by rewrite Hclip, (derive_columns_arrival_hour _ _ Hs).
  - intros s Hs. by rewrite Hclip, (derive_columns_high_acuity _ _ Hs).
  - intros s Hs. by rewrite Hclip, (derive_columns_has_insurance _ _ Hs).
  - intros s Hs. destruct (derive_columns_calendar _ _ Hs) as (Hd & Hw & Hm).
    by rewrite !Hclip, Hd, Hw, Hm.
  - intros name s Hname Hdiag Hs Hnum.
    rewrite Hclip. rewrite derive_columns_other, Hs by done.
    simpl. by rewrite decide_True.
Qed.
End clip_last.


(** ** Each cleaning step, applied twice *)

Lemma clip_upper_idem u l : clip_upper u (clip_upper u l) = clip_upper u l.
Proof.
  destruct u as [b| | |]; simpl; try done.
  rewrite <-list_fmap_compose. apply list_fmap_ext. intros _ c _. simpl.
  destruct c as [q| | |]; try done.
  destruct (Qle_bool q b) eqn:Hq; simpl.
  - by rewrite Hq.
  - assert (Qle_bool b b = true) as -> by (apply Qle_bool_iff, Qle_refl). done.
Qed.

Lemma keep_positions {A} (R : nat → A) k mask :
  R <$> mask_positions k mask = keep mask (R <$> seq k (length mask)).
Proof.
  revert k. induction mask as [|b mask IH]; intros k; [done|].
  simpl. rewrite fmap_app, IH. by destruct b.
Qed.

Lemma existsb_subseteq {A} (f : A → bool) (l k : list A) :
  (∀ x, x ∈ l → x ∈ k) → existsb f k = false → existsb f l = false.
Proof.
  intros Hsub Hk. destruct (existsb f l) eqn:Hl; [|done].
  apply existsb_exists in Hl as (x & Hx & Hf).
  rewrite <-Hk. symmetry. apply existsb_exists. exists x. split; [|done].
  apply list_elem_of_In, Hsub, list_elem_of_In, Hx.
Qed.

(** The rows that [first_occurrence] keeps are all first occurrences. *)
Lemma first_occurrence_keep seen seen' rows :
  (∀ r, r ∈ seen' → r ∈ seen) →
  Forall (λ b, b = true)
    (first_occurrence seen' (keep (first_occurrence seen rows) rows)).
Proof.
  revert seen seen'. induction rows as [|r rows IH]; intros seen seen' Hsub; simpl.
  - constructor.
  - destruct (existsb (row_eqb r) seen) eqn:Hr; simpl.
    + apply IH. intros x Hx. right. by apply Hsub.
    + constructor.
      * by rewrite (existsb_subseteq _ seen' seen).
      * apply IH. intros x [->|Hx]%elem_of_cons; [by left|right; by apply Hsub].
Qed.

Lemma mask_positions_all_true k mask :
  Forall (λ b, b = true) mask → mask_positions k mask = seq k (length mask).
Proof.
  intros Hall. revert k. induction Hall as [|b mask -> Hall IH]; intros k; [done|].
  simpl. by rewrite IH.
Qed.

Lemma take_rows_seq d : wf_frame d → take_rows (seq 0 (nrows d)) d = d.
Proof.
  intros Hwf. destruct d as [n cols]. unfold take_rows. simpl in *.
  rewrite length_seq. f_equal.
  rewrite <-(list_fmap_id cols) at 2.
  apply list.Forall_fmap_ext_1. eapply Forall_impl; [exact Hwf|].
  intros [name s] Hlen. simpl in *. unfold prod_map. simpl. f_equal.
  by apply take_series_seq.
Qed.

Lemma row_at_take_series cols idx i p :
  idx !! i = Some p →
  row_at (take_series (Some <$> idx) <$> cols) i = row_at cols p.
Proof.
  intros Hp. unfold row_at. rewrite <-list_fmap_compose.
  apply list_fmap_ext. intros _ s _. simpl. unfold take_cells.
  by rewrite !list_lookup_fmap, Hp.
Qed.

Lemma rows_of_take_rows idx d :
  rows_of (columns (take_rows idx d)).*2 (length idx) = row_at (columns d).*2 <$> idx.
Proof.
  unfold rows_of, take_rows. simpl.
  rewrite <-list_fmap_compose.
  assert ((snd ∘ prod_map id (take_series (Some <$> idx))) <$> columns d
          = take_series (Some <$> idx) <$> (columns d).*2) as Hcols.
  { rewrite <-list_fmap_compose. by apply list_fmap_ext. }
  rewrite Hcols. apply list_eq. intros i. rewrite !list_lookup_fmap.
  destruct (idx !! i) as [p|] eqn:Hp; simpl.
  - rewrite lookup_seq_lt by (by eapply lookup_lt_Some). simpl.
    f_equal. by apply row_at_take_series.
  - rewrite lookup_seq_ge; [done|]. by apply lookup_ge_None.
Qed.

(** Dropping duplicates twice drops nothing the second time. *)
Lemma drop_duplicates_idem d : drop_duplicates (drop_duplicates d) = drop_duplicates d.
Proof.
  unfold drop_duplicates at 1. unfold filter_rows.
  set (d' := drop_duplicates d).
  assert (Forall (λ b, b = true)
            (first_occurrence [] (rows_of (columns d').*2 (nrows d')))) as Hall.
  { unfold d', drop_duplicates, filter_rows.
    change (nrows (take_rows ?idx d)) with (length idx).
    rewrite rows_of_take_rows.
    rewrite (keep_positions (row_at (columns d).*2)).
    rewrite length_first_occurrence, length_rows_of.
    apply first_occurrence_keep. done. }
  rewrite mask_positions_all_true by done.
  rewrite length_first_occurrence, length_rows_of.
  apply take_rows_seq. apply wf_filter_rows.
Qed.

(** *** Imputation *)

Lemma fillna_NA l : fillna NA l = l.
Proof.
  unfold fillna. rewrite <-(list_fmap_id l) at 2. apply list_fmap_ext.
  intros _ c _. by destruct c.
Qed.

Lemma fillna_series_NA s : fillna_series NA s = s.
Proof. destruct s as [d v]. unfold fillna_series. simpl. by rewrite fillna_NA. Qed.

Lemma fillna_no_null v l : v ≠ NA → existsb isnull (fillna v l) = false.
Proof.
  intros Hv. destruct (existsb isnull (fillna v l)) eqn:Hex; [|done].
  apply existsb_exists in Hex as (c & Hc & Hnull).
  apply list_elem_of_In in Hc.
  apply (proj1 (list.Forall_forall _ _) (fillna_notna v l Hv)) in Hc.
  by destruct c.
Qed.

Lemma median_cases l : median l = NA ∨ ∃ q, median l = Num q.
Proof.
  unfold median, quantile. destruct (Qsort (nums l)); [by left|right; eauto].
Qed.

Lemma mode_fold_notna (counted present : list cell) (best : option cell) :
  best ≠ Some NA → Forall (λ x, x ≠ NA) present →
  foldl (λ best x,
           match best with
           | None => Some x
           | Some b =>
               if (count_cell b counted <? count_cell x counted)
                  || ((count_cell b counted =? count_cell x counted) && cell_leb x b)
               then Some x else Some b
           end) best present ≠ Some NA.
Proof.
  intros Hbest Hall. revert best Hbest.
  induction Hall as [|x present Hx Hall IH]; intros best Hbest; simpl; [done|].
  apply IH. destruct best as [b|].
  - destruct (_ || _); congruence.
  - congruence.
Qed.

Lemma mode_notna l m : mode l = Some m → m ≠ NA.
Proof.
  unfold mode. intros Hm ->. revert Hm. apply mode_fold_notna; [done|].
  apply list.Forall_forall. intros x [Hx _]%list_elem_of_filter Heq.
  by rewrite Heq in Hx.
Qed.

Lemma impute_numeric_assign d col :
  impute_numeric d col = assign_from col col impute_numeric_series d.
Proof.
  unfold impute_numeric, assign_from, impute_numeric_series.
  destruct (get_col col d) as [s|] eqn:Hs; [|done].
  destruct (existsb isnull (values s)); [done|]. symmetry. by apply set_col_same.
Qed.

Lemma impute_categorical_assign d col :
  impute_categorical d col
  = match get_col col d with
    | Some s => s' ← impute_categorical_series s; Some (set_col col s' d)
    | None => Some d
    end.
Proof.
  unfold impute_categorical, impute_categorical_series.
  destruct (get_col col d) as [s|] eqn:Hs; [|done].
  destruct (existsb isnull (values s)).
  - destruct (mode (values s)); [done|]. by destruct (decide (sdtype s = category)).
  - simpl. by rewrite set_col_same.
Qed.

Lemma sdtype_impute_numeric s : sdtype (impute_numeric_series s) = sdtype s.
Proof. unfold impute_numeric_series. by destruct (existsb isnull (values s)). Qed.

Lemma sdtype_impute_categorical s s' :
  impute_categorical_series s = Some s' → sdtype s' = sdtype s.
Proof.
  unfold impute_categorical_series. destruct (existsb isnull (values s)); [|by intros [= <-]].
  destruct (mode (values s)); [by intros [= <-]|].
  destruct (decide (sdtype s = category)); [done|by intros [= <-]].
Qed.

Lemma impute_numeric_settled s :
  existsb isnull (values (impute_numeric_series s)) = true →
  median (values (impute_numeric_series s)) = NA.
Proof.
  unfold impute_numeric_series. destruct (existsb isnull (values s)) eqn:Hnull.
  - destruct (median_cases (values s)) as [Hm|[q Hm]]; rewrite Hm.
    + by rewrite fillna_series_NA.
    + simpl. by rewrite fillna_no_null.
  - by rewrite Hnull.
Qed.

Lemma impute_categorical_settled s s' :
  impute_categorical_series s = Some s' → existsb isnull (values s') = false.
Proof.
  unfold impute_categorical_series. destruct (existsb isnull (values s)) eqn:Hnull.
  - destruct (mode (values s)) as [m|] eqn:Hm.
    + intros [= <-]. simpl. apply fillna_no_null. by eapply mode_notna.
    + destruct (decide (sdtype s = category)); [done|].
      intros [= <-]. simpl. by apply fillna_no_null.
  - by intros [= <-].
Qed.

(** What the categorical loop leaves in each column. *)
Lemma foldlM_impute_categorical names d d' name :
  NoDup names → foldlM impute_categorical d names = Some d' →
  get_col name d'
  = if decide (name ∈ names) then get_col name d ≫= impute_categorical_series
    else get_col name d.
Proof.
  intros Hnd. revert d. induction Hnd as [|col names Hcol Hnd IH]; intros d.
  - simpl. intros [= <-]. destruct (decide (name ∈ [])) as [Hin|]; [|done].
    by apply elem_of_nil in Hin.
  - simpl. intros (d1 & Hd1 & Hrest)%bind_Some. rewrite (IH _ Hrest).
    rewrite impute_categorical_assign in Hd1.
    destruct (decide (name = col)) as [->|Hne].
    + destruct (decide (col ∈ names)) as [|_]; [done|].
      destruct (decide (col ∈ col :: names)) as [_|Hnin]; [|destruct Hnin; by left].
      destruct (get_col col d) as [s|] eqn:Hs.
      * apply bind_Some in Hd1 as (s' & Hs' & [= <-]).
        by rewrite get_col_set_col_eq.
      * injection Hd1 as <-. by rewrite Hs.
    + assert (get_col name d1 = get_col name d) as ->.
      { destruct (get_col col d) as [s|].
        - apply bind_Some in Hd1 as (s' & Hs' & [= <-]).
          by rewrite get_col_set_col_ne.
        - by injection Hd1 as <-. }
      destruct (decide (name ∈ names)) as [Hin|Hnin];
        destruct (decide (name ∈ col :: names)) as [Hin'|Hnin']; try done.
      * destruct Hnin'. by right.
      * apply elem_of_cons in Hin' as [->|?]; done.
Qed.

Lemma handle_missing_imputed df d :
  NoDup (col_names df) → _handle_missing_values df = Some d → imputed d.
Proof.
  intros Hnd Hd. unfold _handle_missing_values in Hd.
  set (d1 := foldl impute_numeric df (select_dtypes [number] df)) in *.
  assert (∀ name, get_col name d1
            = if decide (name ∈ select_dtypes [number] df)
              then impute_numeric_series <$> get_col name df else get_col name df) as H1.
  { intros name. unfold d1.
    rewrite (foldl_ext_eq _ (λ d col, assign_from col col
                               ((λ _, impute_numeric_series) col) d))
      by apply impute_numeric_assign.
    by rewrite foldl_columns by by apply NoDup_select_dtypes. }
  assert (NoDup (col_names d1)) as Hnd1.
  { unfold d1. generalize (select_dtypes [number] df). intros names.
    clear H1 Hd d1. revert df Hnd. induction names as [|col names IH]; intros df Hnd; [done|].
    simpl. by apply IH, NoDup_impute_numeric. }
  pose proof (λ name, foldlM_impute_categorical _ _ _ name
                (NoDup_select_dtypes [object; category] d1 Hnd1) Hd) as H2.
  intros col s Hs. rewrite H2 in Hs.
  destruct (decide (col ∈ select_dtypes [object; category] d1)) as [Hcat|Hcat].
  - apply bind_Some in Hs as (s1 & Hs1 & Hs').
    pose proof (sdtype_impute_categorical _ _ Hs') as Hdt.
    apply elem_of_select_dtypes in Hcat as (s1' & Hs1' & Hk); [|done].
    rewrite Hs1 in Hs1'. injection Hs1' as <-.
    split.
    + intros Hnum. rewrite <-Hdt, Hnum in Hk.
      rewrite !elem_of_cons in Hk. destruct Hk as [?|[?|Hk]]; try done.
      by apply elem_of_nil in Hk.
    + intros _. by eapply impute_categorical_settled.
  - split.
    + intros Hnum Hnull. rewrite H1 in Hs.
      destruct (decide (col ∈ select_dtypes [number] df)) as [Hin|Hnin].
      * destruct (get_col col df) as [s0|]; [|done]. injection Hs as <-.
        by apply impute_numeric_settled.
      * destruct Hnin. apply elem_of_select_dtypes; [done|]. exists s. split; [done|].
        rewrite Hnum. by left.
    + intros Hk. destruct Hcat. apply elem_of_select_dtypes; [done|]. by exists s.
Qed.

Lemma imputed_fixed d :
  NoDup (col_names d) → imputed d → _handle_missing_values d = Some d.
Proof.
  intros Hnd Himp. unfold _handle_missing_values.
  assert (∀ names, Forall (λ col, col ∈ select_dtypes [number] d) names →
            foldl impute_numeric d names = d) as Hnum.
  { induction 1 as [|col names Hcol Hall IH]; [done|]. simpl.
    assert (impute_numeric d col = d) as ->; [|done].
    apply elem_of_select_dtypes in Hcol as (s & Hs & Hk); [|done].
    apply list_elem_of_singleton in Hk.
    unfold impute_numeric. rewrite Hs.
    destruct (existsb isnull (values s)) eqn:Hnull; [|done].
    rewrite (proj1 (Himp col s Hs) Hk Hnull), fillna_series_NA. by apply set_col_same. }
  rewrite Hnum by (apply list.Forall_forall; auto).
  assert (∀ names, Forall (λ col, col ∈ select_dtypes [object; category] d) names →
            foldlM impute_categorical d names = Some d) as Hcat.
  { induction 1 as [|col names Hcol Hall IH]; [done|]. simpl.
    assert (impute_categorical d col = Some d) as ->; [|done].
    apply elem_of_select_dtypes in Hcol as (s & Hs & Hk); [|done].
    unfold impute_categorical. rewrite Hs.
    by rewrite (proj2 (Himp col s Hs) Hk). }
  apply Hcat, list.Forall_forall. auto.
Qed.

(** C3, as the code has it.  Each step of [clean_nhamcs_data] settles
    after one application: imputing an imputed table fills nothing,
    dropping the duplicates of a deduplicated table drops nothing, and
    clipping a clipped column at the same bound changes nothing.  (The
    function as a whole is not idempotent: it computes the bound anew from
    the clipped column.) *)
Theorem cleaning_steps_idempotent (df d : DataFrame) (u : cell) (l : list cell) :
  NoDup (col_names df) → _handle_missing_values df = Some d →
  _handle_missing_values d = Some d
  ∧ drop_duplicates (drop_duplicates d) = drop_duplicates d
  ∧ clip_upper u (clip_upper u l) = clip_upper u l.
Proof.
  intros Hnd Hd. split_and!.
  - apply imputed_fixed.
    + by eapply NoDup_handle_missing.
    + by eapply handle_missing_imputed.
  - apply drop_duplicates_idem.
  - apply clip_upper_idem.
Qed.

(** The imputed arrivals are imputed once and for all. *)
Lemma cleaning_steps_sample :
  _handle_missing_values arrivals_imputed = Some arrivals_imputed.
Proof.
  assert (NoDup (col_names arrivals_sample)) as Hnd.
  { apply NoDup_singleton. }
  assert (_handle_missing_values arrivals_sample = Some arrivals_imputed) as Hd
    by (vm_compute; reflexivity).
  exact (proj1 (cleaning_steps_idempotent arrivals_sample arrivals_imputed NA [] Hnd Hd)).
Defined.

(** C3 as stated fails: waiting times 0 and 100 are cleaned to 0 and 99,
    and cleaning the result gives 0 and 98.01; the bound moved from the
    99th percentile of the input to that of the clipped column. *)
Lemma clean_nhamcs_data_not_idempotent :
  ∃ once twice,
    clean_nhamcs_data (H := sample_externals) clip_sample = Some once
    ∧ clean_nhamcs_data (H := sample_externals) once = Some twice
    ∧ get_col "WAITTIME" once = Some (series_of [0; 99]%Q)
    ∧ get_col "WAITTIME" twice = Some (series_of [0; 9801 # 100]%Q)
    ∧ once ≠ twice.
Proof.
  eexists _, _. split_and!; [vm_compute; reflexivity..|]. discriminate.
Qed.

(** On the arrivals: the unknown time is imputed as 1200, the hours are
    1, 23 and 12, and the clipping, which comes last, brings the 23 down to
    the 99th percentile of the hours, 22.78. *)
Lemma clip_runs_last_sample :
  ∃ out,
    clean_nhamcs_data (H := sample_externals) arrivals_sample = Some out
    ∧ get_col "arrival_hour" out
      = Some (mkSeries number [Num 1; Num (1139 # 50); Num 12]).
Proof.
  assert (NoDup (col_names arrivals_sample)) as Hnd.
  { apply NoDup_singleton. }
  assert (_handle_missing_values arrivals_sample = Some arrivals_imputed) as Hd
    by (vm_compute; reflexivity).
  destruct (clip_runs_last (H := sample_externals) arrivals_sample arrivals_imputed Hnd Hd)
    as (out & Hout & _ & Harr & _).
  exists out. split; [done|].
  rewrite (Harr (mkSeries number [Num 100; Num 2300; Num 1200]))
    by (vm_compute; reflexivity).
  vm_compute. reflexivity.
Defined.


(** ** A visit on a day with records *)

Lemma Zinsert_uniq_self x l : x ∈ Zinsert_uniq x l.
Proof.
  induction l as [|z l IH]; simpl; [by left|].
  destruct (x <? z)%Z; [by left|].
  destruct (Z.eqb_spec x z) as [->|?]; [by left|by right].
Qed.

Lemma Zinsert_uniq_keeps x y l : y ∈ l → y ∈ Zinsert_uniq x l.
Proof.
  induction l as [|z l IH]; simpl; [by intros ?%elem_of_nil|].
  intros Hy. destruct (x <? z)%Z; [by right|].
  destruct (x =? z)%Z; [done|].
  apply elem_of_cons in Hy as [->|Hy]; [by left|right; auto].
Qed.

Lemma elem_of_group_days keys d : Some d ∈ day_of <$> keys → d ∈ group_days keys.
Proof.
  intros (c & Hc & Hin)%list_elem_of_fmap.
  assert (d ∈ omap day_of keys) as Hd by (apply list_elem_of_omap; eauto).
  unfold group_days. revert Hd. generalize (omap day_of keys).
  induction l as [|x l IH]; [by intros ?%elem_of_nil|].
  simpl. intros [->|Hd]%elem_of_cons; [apply Zinsert_uniq_self|].
  by apply Zinsert_uniq_keeps, IH.
Qed.

Lemma group_cells_no_record keys col d :
  d ∉ group_days keys → group_cells keys col d = [].
Proof.
  intros Hd. unfold group_cells. rewrite filter_none; [done|].
  apply list.Forall_forall. intros [k c] Hin Hk. simpl in Hk.
  apply Hd, elem_of_group_days, list_elem_of_fmap.
  exists k. split; [done|]. by eapply elem_of_zip_l.
Qed.

Lemma matches_day_go (days : list Z) d j i :
  NoDup days → days !! j = Some d →
  (filter (λ jc : nat * cell, cell_eqb (Ts d 0) jc.2 = true)
     (zip (seq i (length days)) (day_index days))).*1 = [i + j].
Proof.
  unfold day_index. intros Hnd. revert i j.
  induction Hnd as [|d0 days Hd0 Hnd IH]; intros i j; [done|].
  destruct j as [|j]; simpl.
  - intros [= ->]. rewrite filter_cons_True.
    2:{ simpl. by rewrite !bool_decide_eq_true_2. }
    rewrite filter_none; [simpl; f_equal; lia|].
    apply list.Forall_forall. intros [j c] Hin Hc. simpl in Hc.
    apply elem_of_zip_r in Hin.
    apply list_elem_of_fmap in Hin as (d' & -> & Hd').
    simpl in Hc. apply andb_true_iff in Hc as [?%bool_decide_eq_true _]. congruence.
  - intros Hj. rewrite filter_cons_False.
    2:{ simpl. rewrite andb_true_r. intros ?%bool_decide_eq_true. subst d0.
        apply Hd0. by eapply list_elem_of_lookup_2. }
    replace (i + S j) with (S i + j) by lia. exact (IH (S i) j Hj).
Qed.

Lemma matches_day days d j :
  NoDup days → days !! j = Some d → matches (Ts d 0) (day_index days) = [j].
Proof.
  intros Hnd Hj. unfold matches.
  replace (length (day_index days)) with (length days)
    by (unfold day_index; by rewrite length_fmap).
  by rewrite (matches_day_go days d j 0).
Qed.

(** A timestamp off midnight equals no day of the index. *)
Lemma matches_off_midnight days d t :
  t ≠ 0%Z → matches (Ts d t) (day_index days) = [].
Proof.
  intros Ht. apply matches_nil, list.Forall_forall.
  intros c (d' & -> & _)%list_elem_of_fmap. simpl.
  rewrite (bool_decide_eq_false_2 (t = 0%Z)) by done. apply andb_false_r.
Qed.

Lemma join_indexer_lookup lkeys rindex i k :
  unique_index rindex → lkeys !! i = Some k →
  join_indexer lkeys rindex !! i = Some (i, head (matches k rindex)).
Proof.
  intros Huniq Hk. unfold join_indexer.
  assert (∀ (iks : list (nat * cell)),
            iks ≫= (λ ik, match matches ik.2 rindex with
                          | [] => [(ik.1, None)]
                          | ms => (λ j, (ik.1, Some j)) <$> ms
                          end)
            = (λ ik, (ik.1, head (matches ik.2 rindex))) <$> iks) as Hbind.
  { induction iks as [|[i' k'] iks IH]; [done|].
    rewrite bind_cons, fmap_cons, IH. simpl.
    specialize (Huniq k'). destruct (matches k' rindex) as [|j [|j' ms]];
      simpl in *; [done|done|lia]. }
  rewrite Hbind, list_lookup_fmap, lookup_zip_with.
  rewrite lookup_seq_lt by (apply lookup_lt_Some in Hk; lia).
  simpl. by rewrite Hk.
Qed.

(** What a left row finds in a column of the right side: the cell of
    the one index row that bears its key, or a missing value. *)
Lemma merge_left_right_cell left lkeys right name s i k :
  wf_frame left → length lkeys = nrows left → unique_index (index right) →
  disjoint_names left (col_names (frame right)) →
  get_col name (frame right) = Some s → lkeys !! i = Some k →
  ∃ s', get_col name (merge_left left lkeys right) = Some s'
        ∧ values s' !! i
          = Some (match head (matches k (index right)) with
                  | Some j => default NA (values s !! j)
                  | None => NA
                  end).
Proof.
  intros Hwf Hlen Huniq Hdisj Hs Hk.
  eexists. split; [by apply merge_left_right_col|].
  simpl. unfold take_cells. rewrite !list_lookup_fmap.
  by rewrite (join_indexer_lookup _ _ i k).
Qed.





(** ** Joining on the timestamp *)

Section timestamp_join.
Context (aggregate : DataFrame → option Indexed) (names : list string).
Context (Hnames : ∀ src a, aggregate src = Some a → col_names (frame a) = names).
Context (Huniq : ∀ src a, aggregate src = Some a → unique_index (index a)).

Lemma merge_on_visit_date_left_col merged source out name s :
  wf_frame merged → disjoint_names merged names →
  merge_on_visit_date aggregate merged source = Some out →
  get_col name merged = Some s → get_col name out = Some s.
Proof.
  intros Hwf Hdisj. unfold merge_on_visit_date.
  destruct source as [src|]; [|by intros [= <-]].
  destruct (empty src); [by intros [= <-]|].
  intros (a & Ha & Hout)%bind_Some Hs.
  apply bind_Some in Hout as (vd & Hvd & Hout).
  injection Hout as <-. apply merge_left_left_col; try done.
  - by eapply wf_get_col.
  - by eapply Huniq.
  - by rewrite (Hnames _ _ Ha).
Qed.

Lemma merge_on_visit_date_disjoint merged source out names' :
  wf_frame merged → disjoint_names merged names →
  disjoint_names merged names' → Forall (λ n, n ∉ names') names →
  merge_on_visit_date aggregate merged source = Some out → disjoint_names out names'.
Proof.
  intros Hwf Hdisj Hdisj' Hnn. unfold merge_on_visit_date.
  destruct source as [src|]; [|by intros [= <-]].
  destruct (empty src); [by intros [= <-]|].
  intros (a & Ha & Hout)%bind_Some.
  apply bind_Some in Hout as (vd & Hvd & Hout).
  injection Hout as <-. unfold disjoint_names.
  rewrite merge_left_col_names; try done.
  - apply Forall_app. split; [done|]. by rewrite (Hnames _ _ Ha).
  - by eapply wf_get_col.
  - by eapply Huniq.
  - by rewrite (Hnames _ _ Ha).
Qed.
End timestamp_join.

Lemma disjoint_names_cons df n k :
  disjoint_names df (n :: k) → disjoint_names df [n] ∧ disjoint_names df k.
Proof. apply (disjoint_names_app df [n] k). Qed.

(** X2.  [merge_all_sources] joins on the timestamp of the visit: a visit
    at midnight gets the number of news records of its day, every other
    visit gets zero, whatever the news table holds for its day. *)
Theorem merge_all_sources_counts_midnight_visits (nhamcs_df src : DataFrame)
    (reddit_df twitter_df : option DataFrame) (vd date : Series)
    (i : nat) (d t : Z) (out : DataFrame) :
  wf_frame nhamcs_df → disjoint_names nhamcs_df count_names →
  empty src = false →
  get_col "visit_date" nhamcs_df = Some vd → values vd !! i = Some (Ts d t) →
  get_col "date" src = Some date →
  merge_all_sources nhamcs_df (Some src) reddit_df twitter_df = Some out →
  ∃ s, get_col "cdc_count" out = Some s
       ∧ values s !! i
         = Some (Num (if decide (t = 0%Z)
                      then Qnat (length (group_cells (values date) (values date) d))
                      else 0%Q)).
Proof.
  intros Hwf Hdisj Hempty Hvd Hc Hdate. unfold merge_all_sources.
  intros (m1 & H1 & Hout)%bind_Some.
  apply bind_Some in Hout as (m2 & H2 & Hout).
  apply bind_Some in Hout as (m3 & H3 & Hout). injection Hout as <-.
  apply disjoint_names_cons in Hdisj as [Dc Hdisj].
  apply disjoint_names_cons in Hdisj as [Dr Dt].
  pose proof (merge_on_visit_date_rows _ (daily_size_unique "cdc_count") _ _ _ Hwf H1)
    as [_ W1].
  pose proof (merge_on_visit_date_rows _ daily_sentiment_unique _ _ _ W1 H2) as [_ W2].
  pose proof (merge_on_visit_date_disjoint _ ["cdc_count"] (daily_size_names "cdc_count")
                (daily_size_unique "cdc_count") nhamcs_df (Some src) m1
                ["reddit_sentiment"] Hwf Dc Dr
                (names_apart ["cdc_count"] ["reddit_sentiment"] eq_refl) H1) as Dr1.
  pose proof (merge_on_visit_date_disjoint _ ["cdc_count"] (daily_size_names "cdc_count")
                (daily_size_unique "cdc_count") nhamcs_df (Some src) m1
                ["twitter_count"] Hwf Dc Dt
                (names_apart ["cdc_count"] ["twitter_count"] eq_refl) H1) as Dt1.
  pose proof (merge_on_visit_date_disjoint _ ["reddit_sentiment"] daily_sentiment_names
                daily_sentiment_unique m1 reddit_df m2 ["twitter_count"] W1 Dr1 Dt1
                (names_apart ["reddit_sentiment"] ["twitter_count"] eq_refl) H2) as Dt2.
  pose proof (λ name s, merge_on_visit_date_left_col _ ["reddit_sentiment"]
                daily_sentiment_names daily_sentiment_unique m1 reddit_df m2 name s
                W1 Dr1 H2) as K2.
  pose proof (λ name s, merge_on_visit_date_left_col _ ["twitter_count"]
                (daily_size_names "twitter_count") (daily_size_unique "twitter_count")
                m2 twitter_df m3 name s W2 Dt2 H3) as K3.
  unfold merge_on_visit_date in H1. rewrite Hempty in H1.
  apply bind_Some in H1 as (a & Ha & H1). rewrite Hvd in H1. injection H1 as <-.
  pose proof (daily_size_unique _ _ _ Ha) as Ua.
  pose proof (daily_size_names _ _ _ Ha) as Na.
  unfold daily_size in Ha. rewrite Hdate in Ha. injection Ha as <-.
  destruct (merge_left_right_cell nhamcs_df (values vd)
              (mkIndexed (day_index (group_days (values date)))
                 (mkDF (length (group_days (values date)))
                    [("cdc_count", agg agg_size (values date)
                                     (group_days (values date)) date)]))
              "cdc_count"
              (agg agg_size (values date) (group_days (values date)) date) i (Ts d t))
    as (s' & Hs' & Hi); try done.
  { by eapply wf_get_col. }
  exists (fillna_series (Num 0) s'). split.
  { rewrite get_col_fill_zero, (K3 _ _ (K2 _ _ Hs')). done. }
  simpl. rewrite fillna_lookup, Hi. simpl index.
  destruct (decide (t = 0%Z)) as [->|Ht].
  - destruct (decide (d ∈ group_days (values date))) as [Hin|Hnot].
    + apply list_elem_of_lookup in Hin as [j Hj].
      rewrite (matches_day _ d j (group_days_NoDup _) Hj). simpl.
      by rewrite list_lookup_fmap, Hj.
    + rewrite matches_nil.
      2:{ apply list.Forall_forall. intros c (d' & -> & Hd')%list_elem_of_fmap. simpl.
          rewrite andb_true_r. apply bool_decide_eq_false. by intros ->. }
      simpl. by rewrite group_cells_no_record.
  - by rewrite matches_off_midnight.
Qed.

Lemma wf_visits_counts : disjoint_names visits_sample count_names.
Proof. apply names_apart. by vm_compute. Qed.

(** The visit at 14:30 gets zero, with two news records on its day. *)
Lemma merge_all_sources_counts_midnight_sample :
  ∃ out s,
    merge_all_sources visits_sample (Some news_sample) None None = Some out
    ∧ get_col "cdc_count" out = Some s
    ∧ values s !! 1 = Some (Num 0).
Proof.
  assert (∃ out, merge_all_sources visits_sample (Some news_sample) None None = Some out)
    as [out Hout] by (eexists; vm_compute; reflexivity).
  destruct (merge_all_sources_counts_midnight_visits visits_sample news_sample None None
              (mkSeries datetime [Ts 19000 0; Ts 19001 52200])
              (mkSeries datetime [Ts 19001 3600; Ts 19001 7200])
              1 19001 52200 out) as (s & Hs & Hi);
    [apply wf_visits_sample|apply wf_visits_counts|reflexivity..|exact Hout|].
  by exists out, s.
Defined.

(** ** A primary table without [visit_date] *)






(** ** The duplicate check and the removal of duplicates *)

Lemma mask_split (mask : list bool) :
  length (filter (λ b, b = true) mask) + length (filter (λ b, b = false) mask)
  = length mask.
Proof.
  induction mask as [|[] mask IH]; [done|..].
  - rewrite filter_cons_True, filter_cons_False by done. simpl. lia.
  - rewrite filter_cons_False, filter_cons_True by done. simpl. lia.
Qed.

Lemma count_duplicated_dropped df :
  count_duplicated (columns df).*2 (nrows df) + nrows (drop_duplicates df) = nrows df.
Proof.
  unfold count_duplicated, drop_duplicates. rewrite nrows_filter_rows.
  rewrite Nat.add_comm, mask_split.
  by rewrite length_first_occurrence, length_rows_of.
Qed.

Lemma count_duplicated_below cols n : n ≠ 0 → count_duplicated cols n < n.
Proof.
  intros Hn. unfold count_duplicated.
  pose proof (mask_split (first_occurrence [] (rows_of cols n))) as Hsplit.
  rewrite length_first_occurrence, length_rows_of in Hsplit.
  destruct n as [|n]; [done|].
  unfold rows_of in *. simpl in *. lia.
Qed.

(** X4.  The duplicate check counts the rows that [drop_duplicates]
    removes: the count and the rows that stay add up to the rows of the
    table, the count is below the number of rows of a table that has
    any, and a table whose duplicates were dropped reports none.  A
    subset that names a column the table does not have raises
    [KeyError]. *)
Theorem check_duplicates_counts_dropped_rows (df : DataFrame) :
  (∃ r, check_duplicates df [] = Some r
        ∧ duplicate_count r + nrows (drop_duplicates df) = nrows df
        ∧ (nrows df ≠ 0 → duplicate_count r < nrows df)
        ∧ checked_columns r = None)
  ∧ duplicate_count <$> check_duplicates (drop_duplicates df) [] = Some 0
  ∧ (∀ subset col, col ∈ subset → get_col col df = None →
       check_duplicates df subset = None).
Proof.
  split_and!.
  - eexists. split; [reflexivity|]. simpl. split_and!; [|by apply count_duplicated_below|done].
    apply count_duplicated_dropped.
  - change (Some (count_duplicated (columns (drop_duplicates df)).*2
                    (nrows (drop_duplicates df))) = Some 0).
    f_equal.
    pose proof (count_duplicated_dropped (drop_duplicates df)) as Hsum.
    rewrite drop_duplicates_idem in Hsum. lia.
  - intros subset col Hin Hcol. unfold check_duplicates.
    destruct subset as [|c0 subset]; [by apply elem_of_nil in Hin|].
    assert (select_cols (c0 :: subset) df = None) as ->; [|done].
    unfold select_cols. apply eq_None_not_Some. intros [cols Hcols].
    apply mapM_Some_1 in Hcols.
    apply list_elem_of_lookup in Hin as [i Hi].
    destruct (Forall2_lookup_l _ _ _ _ _ Hcols Hi) as (s & _ & Hs). congruence.
Qed.

(** ** The report on missing values *)

Lemma Qnat_pos a : 0 < a → (0 < Qnat a)%Q.
Proof. intros Ha. unfold Qnat, inject_Z, Qlt. simpl. lia. Qed.

Lemma ratio_positive a b :
  b ≠ 0 → Qgt_bool (Qred (Qnat a / Qnat b)) 0 = bool_decide (0 < a).
Proof.
  intros Hb. unfold Qgt_bool. destruct (decide (0 < a)) as [Ha|Ha].
  - rewrite bool_decide_eq_true_2 by done. apply negb_true_iff.
    apply not_true_is_false. rewrite Qle_bool_iff, Qred_correct.
    apply Qlt_not_le, Qlt_shift_div_l; [apply Qnat_pos; lia|].
    rewrite Qmult_0_l. by apply Qnat_pos.
  - rewrite bool_decide_eq_false_2 by done. apply negb_false_iff.
    rewrite Qle_bool_iff, Qred_correct. replace a with 0 by lia.
    unfold Qdiv. rewrite Qmult_0_l. apply Qle_refl.
Qed.

Lemma ratio_at_most_one a b : a ≤ b → b ≠ 0 → (Qred (Qnat a / Qnat b) <= 1)%Q.
Proof.
  intros Hab Hb. rewrite Qred_correct.
  apply Qle_shift_div_r; [apply Qnat_pos; lia|].
  rewrite Qmult_1_l. unfold Qnat, inject_Z, Qle. simpl. lia.
Qed.

Lemma missing_count_le s : missing_count s ≤ length (values s).
Proof. unfold missing_count. apply length_filter. Qed.

Section missing.
Context (df : DataFrame) (threshold : Q).

Local Abbreviation counts := ((λ p : string * Series, (p.1, missing_count p.2)) <$> columns df).
Local Abbreviation ratios :=
  ((λ p : string * Series, (p.1, np_true_divide (missing_count p.2) (nrows df)))
     <$> columns df).
Local Abbreviation above := (λ (bound : Q) (p : string * option Q),
  match p.2 with
  | Some r => if Qgt_bool r bound then Some (p.1, r) else None
  | None => None
  end).

Lemma total_missing_listed :
  sum_list counts.*2 = sum_list (filter (λ p : string * nat, 0 < p.2) counts).*2.
Proof.
  induction (columns df) as [|[n s] l IH]; [done|]. rewrite !fmap_cons.
  cbn [fst snd sum_list_with].
  destruct (decide (0 < missing_count s)) as [Hpos|Hzero].
  - rewrite filter_cons_True by done. rewrite fmap_cons.
    cbn [fst snd sum_list_with]. by rewrite IH.
  - rewrite filter_cons_False by done. rewrite <-IH. unfold id. lia.
Qed.

Lemma ratios_listed :
  nrows df ≠ 0 →
  (omap (above 0%Q) ratios).*1 = (filter (λ p : string * nat, 0 < p.2) counts).*1.
Proof.
  intros Hrows. induction (columns df) as [|[n s] l IH]; [done|]. rewrite !fmap_cons.
  cbn [omap list_omap fst snd]. unfold np_true_divide at 1.
  destruct (nrows df) as [|k] eqn:Hk; [done|].
  rewrite ratio_positive by done.
  destruct (decide (0 < missing_count s)) as [Hpos|Hzero].
  - rewrite bool_decide_eq_true_2, filter_cons_True by done.
    rewrite !fmap_cons. cbn [fst]. by rewrite IH.
  - rewrite bool_decide_eq_false_2, filter_cons_False by done. by rewrite IH.
Qed.

Lemma no_ratio_without_rows bound : nrows df = 0 → omap (above bound) ratios = [].
Proof.
  intros ->. induction (columns df) as [|[n s] l IH]; [done|]. simpl. exact IH.
Qed.

Lemma above_weaken p q :
  (0 <= threshold)%Q → above threshold p = Some q → above 0%Q p = Some q.
Proof.
  intros Hth. destruct p as [n [r|]]; simpl; [|done].
  unfold Qgt_bool. destruct (Qle_bool r threshold) eqn:Hr; [done|]. simpl.
  intros [= <-]. destruct (Qle_bool r 0) eqn:H0; [|done].
  apply Qle_bool_iff in H0. apply not_true_iff_false in Hr. destruct Hr.
  apply Qle_bool_iff. by eapply Qle_trans.
Qed.
End missing.

(** X5.  The report on missing values is consistent: the total is the
    sum of the counts it lists; on a table with rows the ratios are
    listed for the columns for which a count is, each ratio positive, and
    at most one on a well-formed table; a table without rows gets no
    ratio and no column with too many missing values; and for a
    threshold that is not negative every column reported as missing too
    much is one for which a ratio is listed. *)
Theorem missing_report_consistent (df : DataFrame) (threshold : Q) :
  let report := check_missing_values df threshold in
  total_missing report = sum_list (columns_with_missing report).*2
  ∧ (nrows df ≠ 0 → (missing_ratios report).*1 = (columns_with_missing report).*1)
  ∧ (nrows df = 0 → missing_ratios report = [] ∧ high_missing_columns report = [])
  ∧ (∀ col r, (col, r) ∈ missing_ratios report →
       (0 < r)%Q ∧ (wf_frame df → (r <= 1)%Q))
  ∧ ((0 <= threshold)%Q →
       high_missing_columns report ⊆ (missing_ratios report).*1).
Proof.
  intros report. subst report. unfold check_missing_values. simpl. split_and!.
  - apply total_missing_listed.
  - apply ratios_listed.
  - intros Hrows. by rewrite !no_ratio_without_rows.
  - intros col r (p & Hin & Hp)%list_elem_of_omap.
    apply list_elem_of_fmap in Hin as ([n s] & -> & Hin). simpl in Hp.
    unfold np_true_divide in Hp. destruct (nrows df) as [|k] eqn:Hk; [done|].
    destruct (Qgt_bool _ 0) eqn:Hgt; [|done]. injection Hp as <- <-. split.
    + unfold Qgt_bool in Hgt. apply negb_true_iff, not_true_iff_false in Hgt.
      apply Qnot_le_lt. by rewrite <-Qle_bool_iff.
    + intros Hwf. apply ratio_at_most_one; [|done].
      pose proof (missing_count_le s) as Hle.
      pose proof (proj1 (list.Forall_forall _ _) Hwf (n, s) Hin) as Hlen.
      simpl in Hlen. lia.
  - intros Hth col (q & -> & Hq)%list_elem_of_fmap.
    apply list_elem_of_omap in Hq as (p & Hp & Hq).
    apply list_elem_of_fmap. exists q. split; [done|].
    apply list_elem_of_omap. exists p. split; [done|]. by apply (above_weaken threshold).
Qed.

(** ** The columns of the range report *)

Section ranges.
Context `{Externals}.

Lemma check_columns_keys df er cols rep0 rep :
  foldlM (check_column df er) rep0 cols = Some rep →
  (outliers rep).*1 = (outliers rep0).*1 ++ cols
  ∧ (statistics rep).*1 = (statistics rep0).*1 ++ cols
  ∧ (range_violations rep).*1
    = (range_violations rep0).*1 ++ filter (λ col, col ∈ er.*1) cols.
Proof.
  revert rep0. induction cols as [|col cols IH]; intros rep0; simpl.
  - intros [= <-]. by rewrite !app_nil_r.
  - intros (rep1 & H1 & Hrest)%bind_Some.
    destruct (IH _ Hrest) as (IHo & IHs & IHv). clear IH.
    unfold check_column in H1.
    apply bind_Some in H1 as (s & Hs & H1).
    apply bind_Some in H1 as (ratio & Hratio & H1). injection H1 as <-.
    simpl in *. rewrite IHo, IHs, IHv, !fmap_app, <-!app_assoc. simpl.
    split_and!; [done..|]. f_equal.
    destruct (list_find _ er) as [[j [c [lo hi]]]|] eqn:Hfind.
    + apply list_find_Some in Hfind as (Hj & Hc & _). simpl in Hc. subst c.
      rewrite filter_cons_True; [done|].
      apply list_elem_of_fmap. exists (col, (lo, hi)). split; [done|].
      by eapply list_elem_of_lookup_2.
    + rewrite filter_cons_False; [done|].
      intros ([c r] & -> & Hin)%list_elem_of_fmap.
      apply list_find_None in Hfind.
      by apply (proj1 (list.Forall_forall _ _) Hfind (c, r) Hin).
Qed.

Lemma check_columns_counts df er cols rep0 rep :
  wf_frame df →
  foldlM (check_column df er) rep0 cols = Some rep →
  Forall (λ e, outlier_count e.2 ≤ nrows df) (outliers rep0) →
  Forall (λ e, outlier_count e.2 ≤ nrows df) (outliers rep).
Proof.
  intros Hwf. revert rep0. induction cols as [|col cols IH]; intros rep0; simpl.
  - by intros [= <-].
  - intros (rep1 & H1 & Hrest)%bind_Some Hall. apply (IH _ Hrest). clear IH Hrest.
    unfold check_column in H1.
    apply bind_Some in H1 as (s & Hs & H1).
    apply bind_Some in H1 as (ratio & Hratio & H1). injection H1 as <-.
    simpl. apply Forall_app. split; [done|]. constructor; [|done]. simpl.
    rewrite <-(wf_get_col df col s Hwf Hs). apply length_filter.
Qed.
End ranges.

(** X6.  The range report has an outlier entry and a statistics entry
    for every numeric column, in the order of the columns, and a
    range-violation entry for exactly those of them that
    [expected_ranges] names: a range given for a column that is absent or
    not numeric is passed over in silence.  No outlier count exceeds the
    number of rows. *)
Theorem range_report_covers_numeric_columns `{Externals} (df : DataFrame)
    (expected_ranges : list (string * (Q * Q))) (rep : RangeReport) :
  check_numeric_ranges df expected_ranges = Some rep →
  (outliers rep).*1 = select_dtypes [number] df
  ∧ (statistics rep).*1 = select_dtypes [number] df
  ∧ (range_violations rep).*1
    = filter (λ col, col ∈ expected_ranges.*1) (select_dtypes [number] df)
  ∧ (wf_frame df →
     ∀ col info, (col, info) ∈ outliers rep → outlier_count info ≤ nrows df).
Proof.
  intros Hrep. unfold check_numeric_ranges in Hrep.
  destruct (check_columns_keys _ _ _ _ _ Hrep) as (Ho & Hs & Hv).
  split_and!; [done..|].
  intros Hwf col info Hin.
  pose proof (check_columns_counts _ _ _ _ _ Hwf Hrep (Forall_nil_2 _)) as Hall.
  by apply (proj1 (list.Forall_forall _ _) Hall (col, info)).
Qed.

(** A waiting time and a text column, with a range for the waiting
    time and one for an age the table does not have. *)
Lemma range_report_sample :
  ∃ rep,
    check_numeric_ranges (H := sample_externals) repeats_clip_sample
      [("WAITTIME", (0, 50)%Q); ("AGE", (0, 120)%Q)] = Some rep
    ∧ (outliers rep).*1 = ["WAITTIME"]
    ∧ range_violations rep = [("WAITTIME", 1)].
Proof.
  assert (∃ rep, check_numeric_ranges (H := sample_externals) repeats_clip_sample
                   [("WAITTIME", (0, 50)%Q); ("AGE", (0, 120)%Q)] = Some rep)
    as [rep Hrep] by (eexists; vm_compute; reflexivity).
  destruct (range_report_covers_numeric_columns (H := sample_externals) _ _ _ Hrep)
    as (Ho & _ & _ & _).
  exists rep. split; [done|]. split; [by rewrite Ho|].
  revert Hrep. vm_compute. by intros [= <-].
Defined.

(** ** The report on dates *)








Section dates.
Context `{Externals}.



End dates.




(** ** Runs of assignments, continued *)

Lemma nrows_apply_writes (ws : list write) df :
  nrows (foldl apply_write df ws) = nrows df.
Proof.
  revert df. induction ws as [|w ws IH]; intros df; simpl; [done|].
  rewrite IH. apply nrows_assign_from.
Qed.

Lemma apply_writes_other (ws : list write) df name :
  Forall (λ w : write, w.1.1 ≠ name) ws →
  get_col name (foldl apply_write df ws) = get_col name df.
Proof.
  intros Hws. revert df. induction Hws as [|w ws Hw Hws IH]; intros df; simpl; [done|].
  rewrite IH. unfold apply_write. by apply assign_from_ne.
Qed.

Lemma wf_apply_writes (ws : list write) df :
  Forall (λ w : write, ∀ s, length (values (w.2 s)) = length (values s)) ws →
  wf_frame df → wf_frame (foldl apply_write df ws).
Proof.
  intros Hws. revert df. induction Hws as [|w ws Hw Hws IH]; intros df Hwf; simpl; [done|].
  apply IH. unfold apply_write. by apply wf_assign_from.
Qed.

Lemma lag_writes_col col lags : Forall (λ w : write, w.1.2 = col) (lag_writes col lags).
Proof. unfold lag_writes. apply Forall_fmap, Forall_true. done. Qed.

(** The nested loops of [create_lagged_features] are one run of
    assignments. *)
Lemma create_lagged_features_writes df value_cols lags :
  create_lagged_features df value_cols lags
  = foldl apply_write df (value_cols ≫= λ col, lag_writes col lags).
Proof.
  unfold create_lagged_features. rewrite <-foldl_bind.
  apply foldl_ext_eq. intros d col.
  rewrite <-(apply_writes_guard col) by apply lag_writes_col.
  destruct (has_col col d); [|done].
  unfold lag_writes. by rewrite foldl_fmap.
Qed.

Lemma elem_of_all_lag_writes (wr : write) value_cols lags :
  wr ∈ (value_cols ≫= λ col, lag_writes col lags) ↔
  ∃ col lag, col ∈ value_cols ∧ lag ∈ lags ∧ wr = (lag_name col lag, col, shift_series lag).
Proof.
  rewrite list_elem_of_bind. split.
  - intros (col & Hwr & Hcol). apply list_elem_of_fmap in Hwr as (lag & -> & Hlag).
    by exists col, lag.
  - intros (col & lag & Hcol & Hlag & ->). exists col. split; [|done].
    apply list_elem_of_fmap. by exists lag.
Qed.

Lemma apply_writes_all_absent (ws : list write) df :
  Forall (λ w : write, get_col w.1.2 df = None) ws → foldl apply_write df ws = df.
Proof.
  induction 1 as [|w ws Hw Hws IH]; simpl; [done|].
  unfold apply_write at 2, assign_from. by rewrite Hw.
Qed.

Lemma length_rolling_series w stat s :
  length (values (rolling_series w stat s)) = length (values s).
Proof. simpl. apply length_rolling. Qed.

(** X8.  The lagged and the rolling features add columns and touch
    nothing else: a column whose name is not that of a generated column
    comes out as it went in, the number of rows stays, a well-formed
    table stays well formed, and listed columns that the table does not
    have are passed over, so that a list of absent columns leaves the
    table as it is. *)
Theorem lag_and_rolling_keep_the_input `{Externals} (df : DataFrame)
    (value_cols : list string) (lags : list Z) (windows : list nat) :
  let lagged := create_lagged_features df value_cols lags in
  let rolled := create_rolling_features df value_cols windows in
  (∀ name, (∀ c k, c ∈ value_cols → k ∈ lags → name ≠ lag_name c k) →
     get_col name lagged = get_col name df)
  ∧ (∀ name, (∀ c st w, c ∈ value_cols → w ∈ windows → st ∈ rolling_stats →
                name ≠ rolling_name c st w) →
       get_col name rolled = get_col name df)
  ∧ nrows lagged = nrows df ∧ nrows rolled = nrows df
  ∧ (wf_frame df → wf_frame lagged ∧ wf_frame rolled)
  ∧ (Forall (λ c, get_col c df = None) value_cols → lagged = df ∧ rolled = df).
Proof.
  intros lagged rolled. subst lagged rolled.
  rewrite create_lagged_features_writes, create_rolling_features_writes.
  split_and!.
  - intros name Hfresh. apply apply_writes_other, list.Forall_forall.
    intros wr (col & lag & ? & ? & ->)%elem_of_all_lag_writes. simpl.
    intros Heq. symmetry in Heq. by eapply Hfresh.
  - intros name Hfresh. apply apply_writes_other, list.Forall_forall.
    intros wr (col & w & st & ? & ? & ? & ->)%elem_of_all_rolling_writes. simpl.
    intros Heq. symmetry in Heq. by eapply Hfresh.
  - apply nrows_apply_writes.
  - apply nrows_apply_writes.
  - intros Hwf. split; (apply wf_apply_writes; [|done]); apply list.Forall_forall.
    + intros wr (col & lag & ? & ? & ->)%elem_of_all_lag_writes s. simpl.
      apply length_shift.
    + intros wr (col & w & st & ? & ? & ? & ->)%elem_of_all_rolling_writes s.
      apply length_rolling_series.
  - intros Habs. split; apply apply_writes_all_absent, list.Forall_forall.
    + intros wr (col & lag & Hcol & ? & ->)%elem_of_all_lag_writes. simpl.
      by apply (proj1 (list.Forall_forall _ _) Habs).
    + intros wr (col & w & st & Hcol & ? & ? & ->)%elem_of_all_rolling_writes. simpl.
      by apply (proj1 (list.Forall_forall _ _) Habs).
Qed.

(** ** Generated names hold an underscore *)

Lemma lag_name_underscore c k : ¬ char_free "_" (lag_name c k).
Proof. unfold lag_name. str_simpl. apply char_free_occurs. Qed.

Lemma rolling_name_underscore c st w : ¬ char_free "_" (rolling_name c st w).
Proof. unfold rolling_name. str_simpl. apply char_free_occurs. Qed.

(** ** The calendar features *)

Lemma existsb_holiday d t (days : list Z) :
  existsb (cell_eqb (Ts d t)) ((λ h, Ts h 0) <$> days)
  = bool_decide (t = 0%Z ∧ d ∈ days).
Proof.
  induction days as [|h days IH].
  - symmetry. apply bool_decide_eq_false. intros [_ ?%elem_of_nil]. done.
  - rewrite fmap_cons. cbn [existsb cell_eqb].
    rewrite IH. destruct (decide (t = 0%Z)) as [->|Ht].
    + rewrite (bool_decide_eq_true_2 (0%Z = 0%Z)), andb_true_r by done.
      destruct (decide (d = h)) as [->|Hne].
      * rewrite (bool_decide_eq_true_2 (h = h)) by done. simpl. symmetry.
        apply bool_decide_eq_true. split; [done|by left].
      * rewrite (bool_decide_eq_false_2 (d = h)) by done. simpl.
        apply bool_decide_ext. rewrite elem_of_cons. tauto.
    + rewrite (bool_decide_eq_false_2 (t = 0%Z)), andb_false_r by done. simpl.
      rewrite !bool_decide_eq_false_2; tauto.
Qed.

Lemma flags_exclusive q :
  Qle_bool 5 q && Qeq_bool q 0 = false
  ∧ Qle_bool 5 q && Qeq_bool q 4 = false
  ∧ Qeq_bool q 0 && Qeq_bool q 4 = false.
Proof.
  split_and!; apply not_true_iff_false; intros [H1 H2]%andb_true_iff.
  - apply Qle_bool_iff in H1. apply Qeq_bool_iff in H2. rewrite H2 in H1. done.
  - apply Qle_bool_iff in H1. apply Qeq_bool_iff in H2. rewrite H2 in H1. done.
  - apply Qeq_bool_iff in H1. apply Qeq_bool_iff in H2. rewrite H1 in H2. done.
Qed.

Lemma foldl_apply_write_cons df (w : write) ws :
  foldl apply_write df (w :: ws) = foldl apply_write (apply_write df w) ws.
Proof. reflexivity. Qed.

Lemma foldl_apply_write_nil df : foldl apply_write df [] = df.
Proof. reflexivity. Qed.

Lemma apply_write_triple df name col f :
  apply_write df (name, col, f) = assign_from name col f df.
Proof. reflexivity. Qed.

Lemma bind_unless_Some {A B} (m : option A) (P : Prop) `{Decision P} (g : A → B) out :
  (x ← m; if decide P then None else Some (g x)) = Some out →
  ∃ x, m = Some x ∧ ¬ P ∧ out = g x.
Proof.
  intros (x & Hx & Hout)%bind_Some. destruct (decide P); [done|].
  injection Hout as <-. by exists x.
Qed.

Section temporal.
Context `{FeatureExternals}.

Lemma length_to_datetime_strict s parsed :
  to_datetime_strict s = Some parsed → length (values parsed) = length (values s).
Proof.
  unfold to_datetime_strict. intros (vs & Hvs & [= <-])%bind_Some. simpl.
  symmetry. by eapply length_mapM.
Qed.

Lemma to_datetime_strict_lookup s parsed i c :
  to_datetime_strict s = Some parsed → values s !! i = Some c →
  ∃ c', values parsed !! i = Some c'
        ∧ (∀ d t, c = Ts d t → c' = Ts d t) ∧ (c = NA → c' = NA).
Proof.
  unfold to_datetime_strict. intros (vs & Hvs & [= <-])%bind_Some Hc. simpl.
  apply mapM_Some_1 in Hvs.
  destruct (Forall2_lookup_l _ _ _ _ _ Hvs Hc) as (c' & Hc' & Hpar).
  exists c'. split; [done|]. split.
  - intros d t ->. by injection Hpar as <-.
  - intros ->. by injection Hpar as <-.
Qed.

Lemma create_temporal_features_writes df date_col s :
  get_col date_col df = Some s →
  create_temporal_features df date_col
  = parsed ← to_datetime_strict s;
    if decide (date_col ∈ take 12 temporal_names) then None
    else Some (foldl apply_write (set_col date_col parsed df)
                 (temporal_writes date_col)).
Proof.
  intros Hs. unfold create_temporal_features. rewrite Hs.
  destruct (to_datetime_strict s) as [parsed|]; cbn [mbind option_bind]; [|reflexivity].
  destruct (decide _); [reflexivity|].
  unfold temporal_writes.
  rewrite !foldl_apply_write_cons, foldl_apply_write_nil, !apply_write_triple.
  reflexivity.
Qed.

Local Ltac names_differ Hnot :=
  repeat (constructor;
          [simpl; let Heq := fresh in
           intros Heq; apply Hnot; rewrite <-Heq;
           apply (bool_decide_unpack _); vm_compute; exact I|]);
  constructor.

Local Ltac one_writer :=
  repeat (constructor; [simpl; first [by intros [=]|by intros _]|]); constructor.

(** The columns read off the date column, and those derived from the
    day of the week. *)
Lemma temporal_columns df date_col parsed :
  date_col ∉ take 12 temporal_names →
  let out := foldl apply_write (set_col date_col parsed df) (temporal_writes date_col) in
  get_col "month" out = Some (dt_month parsed)
  ∧ get_col "is_holiday" out = Some (isin_dates holiday_dates parsed)
  ∧ get_col "is_weekend" out = Some (ge_int 5 (dt_dayofweek parsed))
  ∧ get_col "is_monday" out = Some (eq_int 0 (dt_dayofweek parsed))
  ∧ get_col "is_friday" out = Some (eq_int 4 (dt_dayofweek parsed)).
Proof.
  intros Hnot out. subst out.
  assert (get_col date_col (set_col date_col parsed df) = Some parsed) as Hsrc
    by apply get_col_set_col_eq.
  change (temporal_writes date_col)
    with (take 12 (temporal_writes date_col) ++ drop 12 (temporal_writes date_col)).
  rewrite foldl_app.
  assert (∀ name f,
            name ≠ "days_since_epoch" →
            Forall (λ w : write, w.1.1 = name → w.1.2 = date_col ∧ w.2 parsed = f parsed)
              (take 12 (temporal_writes date_col)) →
            (∃ w : write, w ∈ take 12 (temporal_writes date_col) ∧ w.1.1 = name) →
            get_col name
              (foldl apply_write
                 (foldl apply_write (set_col date_col parsed df)
                    (take 12 (temporal_writes date_col)))
                 (drop 12 (temporal_writes date_col)))
            = Some (f parsed)) as Hdirect.
  { intros name f Hlast Hone Hex.
    change (drop 12 (temporal_writes date_col))
      with [("days_since_epoch", date_col, days_since (days_from_civil 2020 1 1)) : write].
    cbn [foldl]. unfold apply_write at 1. rewrite assign_from_ne by done.
    apply (apply_writes_spec _ _ date_col parsed name f); [done| |done|done].
    simpl take. names_differ Hnot. }
  assert (∀ name f,
            name ∉ ["is_month_start"; "is_month_end"; "is_holiday"; "days_since_epoch"] →
            (∃ w : write, w ∈ take 3 (drop 6 (temporal_writes date_col))
                          ∧ w.1.1 = name ∧ w.2 = f) →
            get_col name
              (foldl apply_write
                 (foldl apply_write (set_col date_col parsed df)
                    (take 12 (temporal_writes date_col)))
                 (drop 12 (temporal_writes date_col)))
            = Some (f (dt_dayofweek parsed))) as Hweek.
  { intros name f Hname (w & Hw & Hwn & Hwf).
    rewrite <-foldl_app.
    change (take 12 (temporal_writes date_col) ++ drop 12 (temporal_writes date_col))
      with (take 6 (temporal_writes date_col)
            ++ (take 3 (drop 6 (temporal_writes date_col))
                ++ drop 9 (temporal_writes date_col))).
    rewrite !foldl_app.
    rewrite apply_writes_other.
    2:{ simpl drop. repeat (constructor; [simpl; intros <-; apply Hname;
          apply (bool_decide_unpack _); vm_compute; exact I|]). constructor. }
    apply (apply_writes_spec _ _ "day_of_week" (dt_dayofweek parsed) name f).
    - apply (apply_writes_spec _ _ date_col parsed "day_of_week" dt_dayofweek);
        [done| |one_writer|].
      + simpl take. names_differ Hnot.
      + exists ("day_of_week", date_col, dt_dayofweek). split; [|done].
        simpl. do 3 right. by left.
    - simpl. repeat (constructor; [by simpl|]). constructor.
    - simpl. simpl in Hw.
      repeat (apply elem_of_cons in Hw as [->|Hw]); [..|by apply elem_of_nil in Hw];
        simpl in *; subst name f;
        repeat (constructor; [simpl; first [by intros [=]|by intros _]|]); constructor.
    - exists w. done. }
  split_and!.
  - apply (Hdirect "month" dt_month); [done|simpl take; one_writer|].
    exists ("month", date_col, dt_month). split; [|done]. simpl. right. by left.
  - apply (Hdirect "is_holiday" (isin_dates holiday_dates)); [done|simpl take; one_writer|].
    exists ("is_holiday", date_col, isin_dates holiday_dates). split; [|done].
    simpl. do 11 right. by left.
  - apply (Hweek "is_weekend" (ge_int 5)).
    + intros Hin. apply (bool_decide_pack _) in Hin. by vm_compute in Hin.
    + exists ("is_weekend", "day_of_week", ge_int 5). split; [|done]. simpl. by left.
  - apply (Hweek "is_monday" (eq_int 0)).
    + intros Hin. apply (bool_decide_pack _) in Hin. by vm_compute in Hin.
    + exists ("is_monday", "day_of_week", eq_int 0). split; [|done].
      simpl. right. by left.
  - apply (Hweek "is_friday" (eq_int 4)).
    + intros Hin. apply (bool_decide_pack _) in Hin. by vm_compute in Hin.
    + exists ("is_friday", "day_of_week", eq_int 4). split; [|done].
      simpl. do 2 right. by left.
Qed.

Lemma create_temporal_features_Some df date_col s out :
  get_col date_col df = Some s → create_temporal_features df date_col = Some out →
  ∃ parsed, to_datetime_strict s = Some parsed
            ∧ (date_col ∉ take 12 temporal_names)
            ∧ out = foldl apply_write (set_col date_col parsed df)
                      (temporal_writes date_col).
Proof.
  intros Hs. rewrite (create_temporal_features_writes _ _ _ Hs).
  apply (bind_unless_Some (to_datetime_strict s) (date_col ∈ take 12 temporal_names)
           (λ parsed, foldl apply_write (set_col date_col parsed df)
                        (temporal_writes date_col))).
Qed.
End temporal.

(** X9.  The three flags of the day of the week are never missing and
    never set together: a visit is at most one of weekend, Monday and
    Friday, and a visit without a date is none of them, where its year,
    month and day are missing.  The table keeps its rows. *)
Theorem weekday_flags_exclusive `{FeatureExternals} (df : DataFrame)
    (date_col : string) (s : Series) (out : DataFrame) :
  get_col date_col df = Some s →
  create_temporal_features df date_col = Some out →
  nrows out = nrows df
  ∧ ∃ w m f,
      get_col "is_weekend" out = Some w
      ∧ get_col "is_monday" out = Some m
      ∧ get_col "is_friday" out = Some f
      ∧ ∀ i c, values s !! i = Some c →
          ∃ a b e : bool,
            values w !! i = Some (Num (Z_of_bool a))
            ∧ values m !! i = Some (Num (Z_of_bool b))
            ∧ values f !! i = Some (Num (Z_of_bool e))
            ∧ a && b = false ∧ a && e = false ∧ b && e = false
            ∧ (c = NA → a = false ∧ b = false ∧ e = false).
Proof.
  intros Hs Hout.
  destruct (create_temporal_features_Some _ _ _ _ Hs Hout) as (parsed & Hparsed & Hnot & ->).
  split; [by rewrite nrows_apply_writes|].
  destruct (temporal_columns df date_col parsed Hnot) as (_ & _ & Hw & Hm & Hf).
  eexists _, _, _. split_and!; [done..|].
  intros i c Hc.
  destruct (to_datetime_strict_lookup _ _ _ _ Hparsed Hc) as (c' & Hc' & _ & Hna).
  simpl. rewrite !list_lookup_fmap, Hc'. simpl.
  destruct c' as [q|x|d t|] eqn:Hcell.
  - exists false, false, false. by split_and!.
  - exists false, false, false. by split_and!.
  - destruct (flags_exclusive (inject_Z (dayofweek d))) as (E1 & E2 & E3).
    eexists _, _, _. split_and!; [done..|]. intros Hc0. by specialize (Hna Hc0).
  - exists false, false, false. by split_and!.
Qed.

(** A Saturday, a Monday and a visit without a date. *)
Lemma weekday_flags_sample :
  ∃ out,
    create_temporal_features (H := sample_feature_externals) calendar_sample "visit_date"
    = Some out
    ∧ get_col "is_weekend" out = Some (mkSeries number [Num 1; Num 0; Num 0])
    ∧ get_col "is_monday" out = Some (mkSeries number [Num 0; Num 1; Num 0])
    ∧ nrows out = 3.
Proof.
  assert (∃ out, create_temporal_features (H := sample_feature_externals)
                   calendar_sample "visit_date" = Some out) as [out Hout]
    by (eexists; vm_compute; reflexivity).
  destruct (weekday_flags_exclusive (H := sample_feature_externals) calendar_sample
              "visit_date" _ out eq_refl Hout) as (Hrows & _).
  exists out. split; [done|].
  revert Hout. vm_compute. intros [= <-]. by split_and!.
Defined.

(** X10.  The holiday flag compares timestamps: it is set on a visit at
    midnight of one of the four listed days, and on no other visit; a
    visit later in the day of a holiday is not flagged. *)
Theorem holiday_flag_needs_midnight `{FeatureExternals} (df : DataFrame)
    (date_col : string) (s : Series) (out : DataFrame) (i : nat) (d t : Z) :
  get_col date_col df = Some s →
  create_temporal_features df date_col = Some out →
  values s !! i = Some (Ts d t) →
  ∃ h, get_col "is_holiday" out = Some h
       ∧ values h !! i
         = Some (Num (Z_of_bool
                        (bool_decide
                           (t = 0%Z
                            ∧ d ∈ [days_from_civil 2023 1 1; days_from_civil 2023 7 4;
                                   days_from_civil 2023 11 23;
                                   days_from_civil 2023 12 25])))).
Proof.
  intros Hs Hout Hc.
  destruct (create_temporal_features_Some _ _ _ _ Hs Hout) as (parsed & Hparsed & Hnot & ->).
  destruct (temporal_columns df date_col parsed Hnot) as (_ & Hh & _).
  eexists. split; [done|].
  destruct (to_datetime_strict_lookup _ _ _ _ Hparsed Hc) as (c' & Hc' & Hts & _).
  rewrite (Hts d t eq_refl) in Hc'.
  simpl. rewrite list_lookup_fmap, Hc'. simpl. do 3 f_equal.
  apply (existsb_holiday d t [days_from_civil 2023 1 1; days_from_civil 2023 7 4;
                              days_from_civil 2023 11 23; days_from_civil 2023 12 25]).
Qed.

(** Christmas Day 2023 at 14:30 is no holiday. *)
Lemma holiday_flag_sample :
  ∃ out h,
    create_temporal_features (H := sample_feature_externals) calendar_sample "visit_date"
    = Some out
    ∧ civil 19716 = (2023, 12, 25)%Z
    ∧ get_col "is_holiday" out = Some h
    ∧ values h !! 1 = Some (Num 0).
Proof.
  assert (∃ out, create_temporal_features (H := sample_feature_externals)
                   calendar_sample "visit_date" = Some out) as [out Hout]
    by (eexists; vm_compute; reflexivity).
  destruct (holiday_flag_needs_midnight (H := sample_feature_externals) calendar_sample
              "visit_date" _ out 1 19716 52200 eq_refl Hout eq_refl) as (h & Hh & Hi).
  exists out, h. split_and!; [done|by vm_compute|done|].
  rewrite Hi. by vm_compute.
Defined.


(** ** The interaction features *)

Lemma assign_from2_ne name name' col1 col2 f df :
  name ≠ name' → get_col name' (assign_from2 name col1 col2 f df) = get_col name' df.
Proof.
  intros Hne. unfold assign_from2.
  destruct (get_col col1 df), (get_col col2 df); try done.
  by apply get_col_set_col_ne.
Qed.

Lemma assign_from2_eq name col1 col2 f df a b :
  get_col col1 df = Some a → get_col col2 df = Some b →
  get_col name (assign_from2 name col1 col2 f df)
  = Some (mkSeries number (zip_with f (values a) (values b))).
Proof.
  intros Ha Hb. unfold assign_from2. rewrite Ha, Hb. apply get_col_set_col_eq.
Qed.

Lemma nrows_assign_from2 name col1 col2 f df :
  nrows (assign_from2 name col1 col2 f df) = nrows df.
Proof. unfold assign_from2. by destruct (get_col col1 df), (get_col col2 df). Qed.

Lemma has_col_assign_from2_ne name name' col1 col2 f df :
  name ≠ name' → has_col name' (assign_from2 name col1 col2 f df) = has_col name' df.
Proof. intros Hne. unfold has_col. by rewrite assign_from2_ne. Qed.

Lemma has_col_Some name df s : get_col name df = Some s → has_col name df = true.
Proof. intros Hs. apply has_col_true. by rewrite Hs. Qed.

Lemma guarded2 name col1 col2 f df :
  (if has_col col1 df && has_col col2 df then assign_from2 name col1 col2 f df else df)
  = assign_from2 name col1 col2 f df.
Proof.
  unfold assign_from2.
  destruct (has_col col1 df) eqn:H1; [destruct (has_col col2 df) eqn:H2; [done|]|].
  - apply has_col_false in H2. rewrite H2. by destruct (get_col col1 df).
  - apply has_col_false in H1. by rewrite H1.
Qed.

Lemma guarded1 name col f df :
  (if has_col col df then assign_from name col f df else df) = assign_from name col f df.
Proof.
  destruct (has_col col df) eqn:H1; [done|].
  apply has_col_false in H1. unfold assign_from. by rewrite H1.
Qed.

(** The guards of [create_interaction_features] are those of the
    assignments themselves. *)
Lemma create_interaction_features_steps df :
  create_interaction_features df
  = assign_from "is_flu_season" "month" (isin_int flu_months)
      (assign_from2 "weekend_high_acuity" "is_weekend" "high_acuity" (cell_op Qmult)
         (assign_from2 "senior_uninsured" "age_group" "has_insurance"
            (λ a i, Num (Z_of_bool (cell_is_text "65+" a && cell_is 0 i)))
            (assign_from2 "weekend_evening" "is_weekend" "arrival_hour"
               (λ w h, Num (Z_of_bool (cell_is 1 w && between 18 23 h))) df))).
Proof. unfold create_interaction_features. by rewrite !guarded2, guarded1. Qed.

Lemma nrows_create_interaction_features df :
  nrows (create_interaction_features df) = nrows df.
Proof.
  rewrite create_interaction_features_steps.
  by rewrite nrows_assign_from, !nrows_assign_from2.
Qed.

Lemma create_interaction_features_other name df :
  name ∉ interaction_names →
  get_col name (create_interaction_features df) = get_col name df.
Proof.
  intros Hnot. rewrite create_interaction_features_steps.
  rewrite assign_from_ne, !assign_from2_ne; [done|..];
    intros <-; apply Hnot; apply (bool_decide_unpack _); vm_compute; exact I.
Qed.

Lemma create_interaction_features_flu df m :
  get_col "month" df = Some m →
  get_col "is_flu_season" (create_interaction_features df)
  = Some (isin_int flu_months m).
Proof.
  intros Hm. rewrite create_interaction_features_steps.
  apply assign_from_eq. by rewrite !assign_from2_ne.
Qed.

Lemma create_interaction_features_evening df w h :
  get_col "is_weekend" df = Some w → get_col "arrival_hour" df = Some h →
  get_col "weekend_evening" (create_interaction_features df)
  = Some (mkSeries number
            (zip_with (λ w h, Num (Z_of_bool (cell_is 1 w && between 18 23 h)))
               (values w) (values h))).
Proof.
  intros Hw Hh. rewrite create_interaction_features_steps.
  rewrite assign_from_ne, !assign_from2_ne by done.
  by apply assign_from2_eq.
Qed.

Lemma create_interaction_features_acuity df w a :
  get_col "is_weekend" df = Some w → get_col "high_acuity" df = Some a →
  get_col "weekend_high_acuity" (create_interaction_features df)
  = Some (mkSeries number (zip_with (cell_op Qmult) (values w) (values a))).
Proof.
  intros Hw Ha. rewrite create_interaction_features_steps.
  rewrite assign_from_ne by done.
  apply assign_from2_eq; by rewrite !assign_from2_ne.
Qed.

Lemma between_spec lo hi c :
  between lo hi c = true ↔ ∃ q, c = Num q ∧ (lo <= q)%Q ∧ (q <= hi)%Q.
Proof.
  destruct c as [q|x|d t|]; simpl.
  - rewrite andb_true_iff, !Qle_bool_iff. split.
    + intros [??]. by exists q.
    + by intros (? & [= <-] & ? & ?).
  - split; [done|]. by intros (? & ? & _).
  - split; [done|]. by intros (? & ? & _).
  - split; [done|]. by intros (? & ? & _).
Qed.

Lemma cell_is_spec n c : cell_is n c = true ↔ ∃ q, c = Num q ∧ (q == n)%Q.
Proof.
  destruct c as [q|x|d t|]; simpl.
  - rewrite Qeq_bool_iff. split.
    + intros ?. by exists q.
    + by intros (? & [= <-] & ?).
  - split; [done|]. by intros (? & ? & _).
  - split; [done|]. by intros (? & ? & _).
  - split; [done|]. by intros (? & ? & _).
Qed.

(** X11.  The interaction features treat a missing value in two ways.
    The flag [weekend_evening] is never missing: it is 1 on the rows
    whose weekend flag is 1 and whose hour lies from 18 to 23, and 0 on
    every other row, a row without an hour or without a weekend flag
    among them.  The product [weekend_high_acuity] is missing wherever
    one of its factors is; on two 0/1 flags it is the 0/1 flag that is
    1 when both are.  The table keeps its rows, and its other columns. *)
Theorem interaction_flags_and_missing_values (df : DataFrame) (w h a : Series) :
  get_col "is_weekend" df = Some w →
  get_col "arrival_hour" df = Some h →
  get_col "high_acuity" df = Some a →
  let out := create_interaction_features df in
  nrows out = nrows df
  ∧ (∀ name, name ∉ interaction_names → get_col name out = get_col name df)
  ∧ ∃ e p,
      get_col "weekend_evening" out = Some e
      ∧ get_col "weekend_high_acuity" out = Some p
      ∧ ∀ i x y z,
          values w !! i = Some x → values h !! i = Some y → values a !! i = Some z →
          (∃ b : bool,
             values e !! i = Some (Num (Z_of_bool b))
             ∧ (b = true ↔ ∃ q r, x = Num q ∧ y = Num r
                               ∧ (q == 1)%Q ∧ (18 <= r)%Q ∧ (r <= 23)%Q))
          ∧ (x = NA ∨ z = NA → values p !! i = Some NA)
          ∧ (is_flag x → is_flag z →
               ∃ c : bool, values p !! i = Some (Num (Z_of_bool c))
                           ∧ (c = true ↔ x = Num 1 ∧ z = Num 1)).
Proof.
  intros Hw Hh Ha out. subst out. split; [apply nrows_create_interaction_features|].
  split; [intros name; apply create_interaction_features_other|].
  eexists _, _. split; [by apply create_interaction_features_evening|].
  split; [by apply create_interaction_features_acuity|].
  intros i x y z Hx Hy Hz. cbn [values].
  rewrite !lookup_zip_with, Hx, Hy, Hz. cbn [mbind option_bind]. split_and!.
  - eexists. split; [done|]. rewrite andb_true_iff, cell_is_spec, between_spec. split.
    + intros [(q & -> & Hq) (r & -> & Hlo & Hhi)]. by exists q, r.
    + intros (q & r & -> & -> & Hq & Hlo & Hhi). split; [by exists q|by exists r].
  - intros [->| ->]; [done|]. by destruct x.
  - intros [->| ->] [->| ->].
    + exists false. split; [done|]. split; [done|]. by intros [[=] _].
    + exists false. split; [done|]. split; [done|]. by intros [[=] _].
    + exists false. split; [done|]. split; [done|]. by intros [_ [=]].
    + exists true. done.
Qed.

(** A weekend evening, a weekday evening, and a weekend visit of which
    neither the hour nor the acuity is known. *)
Lemma interaction_flags_sample :
  get_col "weekend_evening" (create_interaction_features interaction_sample)
  = Some (mkSeries number [Num 1; Num 0; Num 0; Num 0])
  ∧ get_col "weekend_high_acuity" (create_interaction_features interaction_sample)
    = Some (mkSeries number [Num 1; Num 0; NA; NA])
  ∧ nrows (create_interaction_features interaction_sample) = 4.
Proof.
  destruct (interaction_flags_and_missing_values interaction_sample _ _ _
              eq_refl eq_refl eq_refl) as (Hrows & _).
  split_and!; [by vm_compute|by vm_compute|exact Hrows].
Defined.


(** ** All features in one run *)

Section all_features.
Context `{Externals} `{FeatureExternals}.

Lemma add_cycle_other name col prefix period df :
  name ≠ prefix +:+ "_sin" → name ≠ prefix +:+ "_cos" →
  get_col name (add_cycle col prefix period df) = get_col name df.
Proof.
  intros Hsin Hcos. unfold add_cycle. destruct (has_col col df); [|done].
  by rewrite !assign_from_ne.
Qed.

Lemma nrows_add_cycle col prefix period df :
  nrows (add_cycle col prefix period df) = nrows df.
Proof.
  unfold add_cycle. destruct (has_col col df); [|done].
  by rewrite !nrows_assign_from.
Qed.

Lemma create_cyclical_features_other name df :
  name ∉ cyclical_names →
  get_col name (create_cyclical_features df) = get_col name df.
Proof.
  intros Hnot. unfold create_cyclical_features.
  rewrite !add_cycle_other; [done|..];
    intros ->; apply Hnot; apply (bool_decide_unpack _); vm_compute; exact I.
Qed.

Lemma nrows_create_cyclical_features df :
  nrows (create_cyclical_features df) = nrows df.
Proof. unfold create_cyclical_features. by rewrite !nrows_add_cycle. Qed.

(** The lagged and the rolling features write to names that hold an
    underscore. *)
Lemma lagged_rolled_plain_name name df value_cols lags windows :
  char_free "_" name →
  get_col name
    (create_rolling_features (create_lagged_features df value_cols lags) value_cols windows)
  = get_col name df.
Proof.
  intros Hfree.
  rewrite create_rolling_features_writes, create_lagged_features_writes.
  rewrite !apply_writes_other; [done|..]; apply list.Forall_forall.
  - intros wr (col & lag & _ & _ & ->)%elem_of_all_lag_writes. simpl.
    intros Heq. by apply (lag_name_underscore col lag); rewrite Heq.
  - intros wr (col & w & st & _ & _ & _ & ->)%elem_of_all_rolling_writes. simpl.
    intros Heq. by apply (rolling_name_underscore col st w); rewrite Heq.
Qed.

Lemma nrows_lagged_rolled df value_cols lags windows :
  nrows (create_rolling_features (create_lagged_features df value_cols lags)
           value_cols windows)
  = nrows df.
Proof.
  rewrite create_rolling_features_writes, create_lagged_features_writes.
  by rewrite !nrows_apply_writes.
Qed.

Lemma create_all_features_after df date_col value_cols :
  create_all_features df date_col value_cols
  = after_temporal value_cols <$> create_temporal_features df date_col.
Proof.
  unfold create_all_features.
  generalize (create_temporal_features df date_col). by intros [d|].
Qed.

Lemma nrows_after_temporal value_cols df : nrows (after_temporal value_cols df) = nrows df.
Proof.
  unfold after_temporal. rewrite nrows_create_interaction_features.
  destruct value_cols; [|rewrite nrows_lagged_rolled]; apply nrows_create_cyclical_features.
Qed.

Lemma after_temporal_flu value_cols df m :
  get_col "month" df = Some m →
  get_col "is_flu_season" (after_temporal value_cols df) = Some (isin_int flu_months m).
Proof.
  intros Hm. unfold after_temporal. apply create_interaction_features_flu.
  assert (get_col "month" (create_cyclical_features df) = Some m) as Hc.
  { rewrite create_cyclical_features_other; [done|].
    intros Hin. apply (bool_decide_pack _) in Hin. by vm_compute in Hin. }
  destruct value_cols; [done|].
  rewrite lagged_rolled_plain_name; [done|]. by vm_compute.
Qed.
End all_features.

Lemma isin_whole_numbers (m : Z) (l : list Z) :
  isin (inject_Z <$> l) (Num (inject_Z m)) = bool_decide (m ∈ l).
Proof.
  cbn [isin]. induction l as [|a l IH].
  - symmetry. apply bool_decide_eq_false. by intros ?%elem_of_nil.
  - rewrite fmap_cons. cbn [existsb]. rewrite IH.
    destruct (decide (m = a)) as [->|Hne].
    + assert (Qeq_bool (inject_Z a) (inject_Z a) = true) as ->
        by (apply Qeq_bool_iff; reflexivity).
      symmetry. apply bool_decide_eq_true. by left.
    + assert (Qeq_bool (inject_Z m) (inject_Z a) = false) as ->.
      { apply not_true_iff_false. intros Heq%Qeq_bool_iff.
        by apply Hne, inject_Z_injective. }
      apply bool_decide_ext. rewrite elem_of_cons. tauto.
Qed.

(** X12.  In [create_all_features] the flu season is that of the date
    column: the month the temporal features read off the date reaches
    the interaction features through the cyclical, the lagged and the
    rolling features, whatever [value_cols] lists, and a [month] column
    of the input is not looked at.  A visit in October to March is
    flagged, a visit without a date is not.  Only when the table has no
    date column does the flag come from the [month] column of the
    input.  The table keeps its rows. *)
Theorem all_features_flu_season_of_the_date `{Externals} `{FeatureExternals}
    (df : DataFrame) (date_col : string) (value_cols : list string) (out : DataFrame) :
  create_all_features df date_col value_cols = Some out →
  nrows out = nrows df
  ∧ (∀ s, get_col date_col df = Some s →
       ∃ f, get_col "is_flu_season" out = Some f
            ∧ ∀ i c, values s !! i = Some c →
                (∀ d t, c = Ts d t →
                   values f !! i
                   = Some (Num (Z_of_bool
                                  (bool_decide ((civil d).1.2 ∈ [10; 11; 12; 1; 2; 3]%Z)))))
                ∧ (c = NA → values f !! i = Some (Num 0)))
  ∧ (get_col date_col df = None →
       ∀ m, get_col "month" df = Some m →
            get_col "is_flu_season" out = Some (isin_int flu_months m)).
Proof.
  rewrite create_all_features_after.
  intros (mid & Hmid & ->)%fmap_Some. split_and!.
  - rewrite nrows_after_temporal.
    destruct (get_col date_col df) as [s|] eqn:Hs.
    + destruct (create_temporal_features_Some _ _ _ _ Hs Hmid) as (parsed & _ & _ & ->).
      by rewrite nrows_apply_writes.
    + unfold create_temporal_features in Hmid. rewrite Hs in Hmid. by injection Hmid as <-.
  - intros s Hs.
    destruct (create_temporal_features_Some _ _ _ _ Hs Hmid) as (parsed & Hparsed & Hnot & ->).
    destruct (temporal_columns df date_col parsed Hnot) as (Hmonth & _).
    eexists. split; [by apply after_temporal_flu|].
    intros i c Hc.
    destruct (to_datetime_strict_lookup _ _ _ _ Hparsed Hc) as (c' & Hc' & Hts & Hna).
    cbn [values isin_int dt_month dt_field]. rewrite !list_lookup_fmap, Hc'. split.
    + intros d t ->. rewrite (Hts d t eq_refl). cbn [fmap option_fmap option_map].
      do 3 f_equal.
      apply (isin_whole_numbers ((civil d).1.2) [10; 11; 12; 1; 2; 3]%Z).
    + intros ->. by rewrite (Hna eq_refl).
  - intros Hnone m Hm. unfold create_temporal_features in Hmid. rewrite Hnone in Hmid.
    injection Hmid as <-. by apply after_temporal_flu.
Qed.

(** Two visits of December 2023 and one without a date, in a table
    whose [month] column says July. *)
Lemma all_features_flu_season_sample :
  ∃ out,
    create_all_features (H := sample_externals) (H0 := sample_feature_externals)
      calendar_sample "visit_date" ["arrival_hour"] = Some out
    ∧ get_col "month" calendar_sample = Some (mkSeries number [Num 7; Num 7; Num 7])
    ∧ get_col "is_flu_season" out = Some (mkSeries number [Num 1; Num 1; Num 0])
    ∧ nrows out = 3.
Proof.
  assert (∃ out, create_all_features (H := sample_externals)
                   (H0 := sample_feature_externals)
                   calendar_sample "visit_date" ["arrival_hour"] = Some out) as [out Hout]
    by (eexists; vm_compute; reflexivity).
  destruct (all_features_flu_season_of_the_date (H := sample_externals)
              (H0 := sample_feature_externals) calendar_sample "visit_date"
              ["arrival_hour"] out Hout) as (Hrows & _).
  exists out. split; [done|]. split; [done|]. split; [|exact Hrows].
  revert Hout. vm_compute. by intros [= <-].
Defined.

